(** * docling-openai test harness: module substitution and async bridging

    A shallow embedding of the bootstrap code of the repository
    ([conftest.py], [sitecustomize.py], [docling_core_stub.py]) and the
    properties of its module registry, late-binding import hook and
    asyncio bridge.

    Python code is embedded as state-passing functions: a statement
    sequence is a computation [M S A] over an interpreter state [S] that
    either returns a value or raises, and keeps the state it reached in
    both cases (a raise does not roll back earlier assignments). *)

From Stdlib Require Import Ascii String.
From stdpp Require Import gmap strings list fin_maps.

Open Scope string_scope.

(** ** Python outcomes *)

Module Py.

(** The exceptions the embedded code can meet. *)
Inductive exn : Type :=
| NameError (name : string)
| AttributeError (attr : string)
| KeyError (key : string)
| TypeError (msg : string)
| ValueError (msg : string)
| RuntimeError (msg : string)
| ModuleNotFoundError (name : string)
| ZeroDivisionError
| StopIteration
| StopAsyncIteration.

Inductive outcome (A : Type) : Type :=
| Return (a : A)
| Raise (e : exn).
Arguments Return {A} a.
Arguments Raise {A} e.

(** Python objects as far as the harness looks at them: modules live on
    a heap and are compared by identity ([VModule l]); classes,
    functions and other objects are named by the definition that
    created them ([VObj]). *)
Abbreviation loc := nat.

Inductive value : Type :=
| VNone
| VBool (b : bool)
| VStr (s : string)
| VModule (l : loc)
| VObj (qualname : string).

#[export] Instance exn_eq_dec : EqDecision exn.
Proof. solve_decision. Defined.
#[export] Instance value_eq_dec : EqDecision value.
Proof. solve_decision. Defined.

(** State and exception monad. *)
Definition M (S A : Type) : Type := S -> outcome A * S.

Definition ret {S A} (a : A) : M S A := fun s => (Return a, s).
Definition raise {S A} (e : exn) : M S A := fun s => (Raise e, s).
Definition bind {S A B} (m : M S A) (k : A -> M S B) : M S B :=
  fun s => match m s with
           | (Return a, s') => k a s'
           | (Raise e, s') => (Raise e, s')
           end.
Definition get {S} : M S S := fun s => (Return s, s).
Definition modify {S} (f : S -> S) : M S unit := fun s => (Return tt, f s).

(** [try: m except e: h] for one exception class. *)
Definition try_except {S A} (m : M S A) (catches : exn -> bool) (h : M S A)
  : M S A :=
  fun s => match m s with
           | (Return a, s') => (Return a, s')
           | (Raise e, s') => if catches e then h s' else (Raise e, s')
           end.

(** [try: m except: cleanup; raise]. *)
Definition on_exception {S A} (m : M S A) (cleanup : S -> S) : M S A :=
  fun s => match m s with
           | (Return a, s') => (Return a, s')
           | (Raise e, s') => (Raise e, cleanup s')
           end.

(** An outcome that does not depend on the state. *)
Definition lift {S A} (o : outcome A) : M S A := fun s => (o, s).

Definition exec {S A} (m : M S A) (s : S) : S := snd (m s).
Definition result {S A} (m : M S A) (s : S) : outcome A := fst (m s).

End Py.
Export Py.

Declare Scope py_scope.
Delimit Scope py_scope with py.
Notation "x <- m ;; k" := (bind m (fun x => k))
  (at level 100, m at next level, right associativity) : py_scope.
Notation "m ;;; k" := (bind m (fun _ => k))
  (at level 100, right associativity) : py_scope.
Open Scope py_scope.

(** ** The interpreter state: module heap, [sys.modules], globals *)

Module Interp.

(** A module object: [__name__] and the module-valued or named entries
    of its [__dict__]. *)
Record module_obj : Type := {
  mod_name : string;
  mod_dict : gmap string value
}.

(** Entries of [sys.meta_path] that matter here. *)
Inductive finder : Type :=
| PytestImportHook
| PathFinder.

(** Ghost events, recorded to count what ran. *)
Inductive event : Type :=
| EvHookFired          (* find_spec wrapped a loader for "pytest" *)
| EvOrigExec           (* the target module's own code ran *)
| EvUpgradeCalled.     (* _upgrade_pytest_asyncio_stub was entered *)

#[export] Instance finder_eq_dec : EqDecision finder.
Proof. solve_decision. Defined.
#[export] Instance event_eq_dec : EqDecision event.
Proof. solve_decision. Defined.

Record interp : Type := {
  heap : list module_obj;            (* module objects, by address *)
  sys_modules : gmap string value;   (* the process-wide registry *)
  globals : gmap string value;       (* names bound at module level *)
  meta_path : list finder;           (* sys.meta_path *)
  mark_asyncio : bool;               (* pytest.mark has attribute asyncio *)
  plugins : list string;             (* names known to the plugin manager *)
  trace : list event                 (* ghost *)
}.

Definition empty_interp : interp :=
  {| heap := []; sys_modules := ∅; globals := ∅; meta_path := [PathFinder];
     mark_asyncio := false; plugins := []; trace := [] |}.

Definition set_heap (h : list module_obj) (st : interp) : interp :=
  {| heap := h; sys_modules := sys_modules st; globals := globals st;
     meta_path := meta_path st; mark_asyncio := mark_asyncio st;
     plugins := plugins st; trace := trace st |}.
Definition set_sys_modules (m : gmap string value) (st : interp) : interp :=
  {| heap := heap st; sys_modules := m; globals := globals st;
     meta_path := meta_path st; mark_asyncio := mark_asyncio st;
     plugins := plugins st; trace := trace st |}.
Definition set_globals (g : gmap string value) (st : interp) : interp :=
  {| heap := heap st; sys_modules := sys_modules st; globals := g;
     meta_path := meta_path st; mark_asyncio := mark_asyncio st;
     plugins := plugins st; trace := trace st |}.
Definition set_meta_path (p : list finder) (st : interp) : interp :=
  {| heap := heap st; sys_modules := sys_modules st; globals := globals st;
     meta_path := p; mark_asyncio := mark_asyncio st;
     plugins := plugins st; trace := trace st |}.
Definition set_mark_asyncio (b : bool) (st : interp) : interp :=
  {| heap := heap st; sys_modules := sys_modules st; globals := globals st;
     meta_path := meta_path st; mark_asyncio := b;
     plugins := plugins st; trace := trace st |}.
Definition set_plugins (p : list string) (st : interp) : interp :=
  {| heap := heap st; sys_modules := sys_modules st; globals := globals st;
     meta_path := meta_path st; mark_asyncio := mark_asyncio st;
     plugins := p; trace := trace st |}.
Definition set_trace (t : list event) (st : interp) : interp :=
  {| heap := heap st; sys_modules := sys_modules st; globals := globals st;
     meta_path := meta_path st; mark_asyncio := mark_asyncio st;
     plugins := plugins st; trace := t |}.

(** [types.ModuleType(name)]: a new module object at a fresh address. *)
Definition ModuleType (name : string) : M interp value :=
  fun st =>
    (Return (VModule (length (heap st))),
     set_heap (heap st ++ [{| mod_name := name; mod_dict := ∅ |}]) st).

(** [obj.attr = v]. Only module objects are assigned to in this code. *)
Definition setattr (obj : value) (attr : string) (v : value) : M interp unit :=
  fun st =>
    match obj with
    | VModule l =>
        match heap st !! l with
        | Some m =>
            (Return tt,
             set_heap (<[l := {| mod_name := mod_name m;
                                 mod_dict := <[attr := v]> (mod_dict m) |}]>
                         (heap st)) st)
        | None => (Raise (AttributeError attr), st)
        end
    | _ => (Raise (AttributeError attr), st)
    end.

(** The attribute of a module object, if it has it. *)
Definition lookup_attr (st : interp) (obj : value) (attr : string)
  : option value :=
  match obj with
  | VModule l => m ← heap st !! l; mod_dict m !! attr
  | _ => None
  end.

Definition hasattr (obj : value) (attr : string) : M interp bool :=
  fun st => (Return (bool_decide (is_Some (lookup_attr st obj attr))), st).

(** Reading and binding a module-level name. *)
Definition load_name (x : string) : M interp value :=
  fun st => match globals st !! x with
            | Some v => (Return v, st)
            | None => (Raise (NameError x), st)
            end.
Definition store_name (x : string) (v : value) : M interp unit :=
  modify (fun st => set_globals (<[x := v]> (globals st)) st).

(** [name in sys.modules], [sys.modules[name] = v], [sys.modules.get]. *)
Definition sys_modules_contains (name : string) : M interp bool :=
  fun st => (Return (bool_decide (is_Some (sys_modules st !! name))), st).
Definition sys_modules_setitem (name : string) (v : value) : M interp unit :=
  modify (fun st => set_sys_modules (<[name := v]> (sys_modules st)) st).
Definition sys_modules_get (name : string) : M interp (option value) :=
  fun st => (Return (sys_modules st !! name), st).

(** [sys.modules.update({k1: v1, ...})] with the pairs already evaluated:
    later pairs overwrite earlier ones and existing entries. *)
Definition sys_modules_update (kvs : list (string * value)) : M interp unit :=
  modify (fun st =>
    set_sys_modules
      (foldl (fun m kv => <[kv.1 := kv.2]> m) (sys_modules st) kvs) st).

Definition log (e : event) : M interp unit :=
  modify (fun st => set_trace (trace st ++ [e]) st).

End Interp.
Export Interp.

(** ** Dotted module names *)

Module ModuleName.

(** [name.rpartition(".")]: the parent name and the last component of a
    dotted name, [None] for a name without a dot. *)
Fixpoint rsplit_dot (s : string) : option (string * string) :=
  match s with
  | EmptyString => None
  | String c rest =>
      match rsplit_dot rest with
      | Some (p, child) => Some (String c p, child)
      | None => if Ascii.eqb c "."%char then Some (EmptyString, rest) else None
      end
  end.

(** Direct lookup of a module name in the registry. *)
Definition direct_lookup (st : interp) (name : string) : option value :=
  sys_modules st !! name.

(** The parent of [name] is registered and has the last component of
    [name] as an attribute bound to the module registered as [name]. *)
Definition linked_to_parent (st : interp) (name : string) : Prop :=
  forall p c, rsplit_dot name = Some (p, c) ->
    exists hp, direct_lookup st p = Some hp /\
               lookup_attr st hp c = direct_lookup st name.

(** Parent-child consistency of the whole registry: every registered
    dotted name is linked to its parent. Parents are registered names
    themselves, so this covers all ancestors. *)
Definition parent_child_consistent (st : interp) : Prop :=
  forall name, is_Some (direct_lookup st name) -> linked_to_parent st name.

(** The weaker half: the parent of every registered dotted name is
    registered too. *)
Definition parents_registered (m : gmap string value) : Prop :=
  forall name p c, is_Some (m !! name) -> rsplit_dot name = Some (p, c) ->
    is_Some (m !! p).

End ModuleName.
Export ModuleName.

(** ** Model of [asyncio]: event loops, coroutines, async generators

    [asyncio] is the standard library, not code of the repository. What
    the harness uses of it is modelled here: a coroutine body is a finite
    tree of the operations it awaits; [asyncio.run] builds a new loop,
    drives the awaitable on it and closes the loop before it returns or
    raises. Event loops and async generator objects live in the [world]
    and are named by their address. *)

Module Asyncio.

(** An event loop object: whether it was closed, and the state stored
    on it while it ran. *)
Record loop_rec : Type := {
  closed : bool;
  locals : gmap string value
}.

(** The body of an [async def] without [yield]. *)
Inductive coro : Type :=
| CReturn (v : value)
| CRaise (e : exn)
| CSleep (k : coro)                            (* await asyncio.sleep(0) *)
| CStore (key : string) (v : value) (k : coro) (* store on the running loop *)
| CLoad (key : string) (k : option value -> coro)
| CLoopId (k : nat -> coro).                   (* asyncio.get_running_loop() *)

(** The body of an [async def] with [yield]. [GTryYield v cleanup k] is
    a [yield] inside [try ... finally] or [with]: resumed, the body goes
    on as [k], which holds the cleanup where it then runs; closed at
    this [yield], the generator runs [cleanup] and nothing of [k]. *)
Inductive agen_body : Type :=
| GYield (v : value) (k : agen_body)
| GReturn
| GRaise (e : exn)
| GSleep (k : agen_body)
| GStore (key : string) (v : value) (k : agen_body)
| GLoad (key : string) (k : option value -> agen_body)
| GLoopId (k : nat -> agen_body)
| GTryYield (v : value) (cleanup : coro) (k : agen_body).

(** An async generator object: not started or suspended at a plain
    [yield], with the rest of its body; suspended at a [yield] under a
    cleanup; finished, by returning or raising; or closed while it was
    suspended, the rest of its body dropped, with the outcome of the
    cleanup that ran, if there was one. *)
Inductive agen_obj : Type :=
| AgenSuspended (rest : agen_body)
| AgenFinished
| AgenGuarded (cleanup : coro) (rest : agen_body)
| AgenClosed (rest : agen_body) (cleanup : option (outcome value)).

(** What a generator object has left to run when it is resumed. *)
Definition pending (o : agen_obj) : option agen_body :=
  match o with
  | AgenSuspended rest | AgenGuarded _ rest => Some rest
  | AgenFinished | AgenClosed _ _ => None
  end.

Record world : Type := {
  loops : list loop_rec;       (* every loop created so far *)
  running : option nat;        (* the loop running in this thread *)
  agens : list agen_obj        (* async generator objects *)
}.

Definition empty_world : world :=
  {| loops := []; running := None; agens := [] |}.

Definition new_loop : loop_rec := {| closed := false; locals := ∅ |}.

Definition set_loops (ls : list loop_rec) (w : world) : world :=
  {| loops := ls; running := running w; agens := agens w |}.
Definition set_running (r : option nat) (w : world) : world :=
  {| loops := loops w; running := r; agens := agens w |}.
Definition set_agens (a : list agen_obj) (w : world) : world :=
  {| loops := loops w; running := running w; agens := a |}.

(** State of the running loop. *)
Definition store_local (key : string) (v : value) (w : world) : world :=
  match running w with
  | Some l =>
      match loops w !! l with
      | Some lr =>
          set_loops (<[l := {| closed := closed lr;
                               locals := <[key := v]> (locals lr) |}]>
                       (loops w)) w
      | None => w
      end
  | None => w
  end.

Definition load_local (key : string) (w : world) : option value :=
  l ← running w; lr ← loops w !! l; locals lr !! key.

(** Driving a coroutine on the running loop until it is done. *)
Fixpoint drive (c : coro) : M world value :=
  match c with
  | CReturn v => ret v
  | CRaise e => raise e
  | CSleep k => drive k
  | CStore key v k => modify (store_local key v);;; drive k
  | CLoad key k => fun w => drive (k (load_local key w)) w
  | CLoopId k =>
      fun w => match running w with
               | Some l => drive (k l) w
               | None => (Raise (RuntimeError "no running event loop"), w)
               end
  end.

(** Driving an async generator body up to its next [yield]: the value
    and the suspended generator, or the way it ended. *)
Fixpoint drive_to_yield (b : agen_body) : M world (value * agen_obj) :=
  match b with
  | GYield v k => ret (v, AgenSuspended k)
  | GTryYield v cleanup k => ret (v, AgenGuarded cleanup k)
  | GReturn => raise StopAsyncIteration
  | GRaise e => raise e
  | GSleep k => drive_to_yield k
  | GStore key v k => modify (store_local key v);;; drive_to_yield k
  | GLoad key k => fun w => drive_to_yield (k (load_local key w)) w
  | GLoopId k =>
      fun w => match running w with
               | Some l => drive_to_yield (k l) w
               | None => (Raise (RuntimeError "no running event loop"), w)
               end
  end.

(** Calling an async generator function: a new generator object, none
    of its body has run. *)
Definition new_agen (b : agen_body) : M world nat :=
  fun w => (Return (length (agens w)),
            set_agens (agens w ++ [AgenSuspended b]) w).

(** Awaiting [agen.__anext__()]: resume the generator object; it stays
    suspended after a [yield] and is finished after it returned or
    raised. A finished or closed generator raises
    [StopAsyncIteration]. *)
Definition anext (agen : nat) : M world value :=
  fun w =>
    match agens w !! agen ≫= pending with
    | Some b =>
        match drive_to_yield b w with
        | (Return (v, suspended), w') =>
            (Return v, set_agens (<[agen := suspended]> (agens w')) w')
        | (Raise e, w') =>
            (Raise e, set_agens (<[agen := AgenFinished]> (agens w')) w')
        end
    | None => (Raise StopAsyncIteration, w)
    end.

(** The cleanup of a generator that is closed at a [yield]
    ([GeneratorExit] is thrown into it): the code runs synchronously,
    outside [asyncio.run]. An [await] in it makes the close fail, and
    the running loop is there only if the thread has one. *)
Fixpoint run_cleanup (c : coro) : M world value :=
  match c with
  | CReturn v => ret v
  | CRaise e => raise e
  | CSleep _ => raise (RuntimeError "async generator ignored GeneratorExit")
  | CStore key v k =>
      fun w => match running w with
               | Some _ => run_cleanup k (store_local key v w)
               | None => (Raise (RuntimeError "no running event loop"), w)
               end
  | CLoad key k =>
      fun w => match running w with
               | Some _ => run_cleanup (k (load_local key w)) w
               | None => (Raise (RuntimeError "no running event loop"), w)
               end
  | CLoopId k =>
      fun w => match running w with
               | Some l => run_cleanup (k l) w
               | None => (Raise (RuntimeError "no running event loop"), w)
               end
  end.

(** The last reference to a generator object goes away: the interpreter
    closes the generator. One that is suspended gets [GeneratorExit] at
    its [yield]: the cleanup around that [yield] runs, what it raises is
    reported and dropped, and the rest of the body never runs. The
    harness calls [agen.__anext__()] before it enters [asyncio.run], so
    no loop is the finalizer of its generators. *)
Definition gen_finalize (agen : nat) (w : world) : world :=
  match agens w !! agen with
  | Some (AgenSuspended rest) =>
      set_agens (<[agen := AgenClosed rest None]> (agens w)) w
  | Some (AgenGuarded cleanup rest) =>
      match run_cleanup cleanup w with
      | (r, w') =>
          set_agens (<[agen := AgenClosed rest (Some r)]> (agens w')) w'
      end
  | _ => w
  end.

Definition close_loop (l : nat) (w : world) : world :=
  set_running None
    (set_loops (alter (fun lr => {| closed := true; locals := locals lr |})
                  l (loops w)) w).

(** [asyncio.run(main)]: refuses to start under a running loop;
    otherwise creates a loop, runs [main] on it to the end, and closes
    the loop whether [main] returned or raised. *)
Definition asyncio_run {A} (main : M world A) : M world A :=
  fun w =>
    match running w with
    | Some _ =>
        (Raise (RuntimeError
                  "asyncio.run() cannot be called from a running event loop"),
         w)
    | None =>
        let l := length (loops w) in
        let w1 := set_running (Some l) (set_loops (loops w ++ [new_loop]) w) in
        match main w1 with
        | (r, w2) => (r, close_loop l w2)
        end
    end.

(** The world [main] starts in under [asyncio_run]. *)
Definition enter_loop (w : world) : world :=
  set_running (Some (length (loops w))) (set_loops (loops w ++ [new_loop]) w).

(** Callables by kind, as [inspect] tells them apart. *)
Record call_args : Type := {
  pos : list value;
  kw : gmap string value
}.

Inductive callable : Type :=
| SyncFn (f : call_args -> M world value)
| CoroFn (f : call_args -> coro)
| AsyncGenFn (f : call_args -> agen_body).

Definition iscoroutinefunction (c : callable) : bool :=
  match c with CoroFn _ => true | _ => false end.
Definition isasyncgenfunction (c : callable) : bool :=
  match c with AsyncGenFn _ => true | _ => false end.

(** What a coroutine does whatever it reads from the loop. *)
Inductive returns (v : value) : coro -> Prop :=
| returns_return : returns v (CReturn v)
| returns_sleep k : returns v k -> returns v (CSleep k)
| returns_store key x k : returns v k -> returns v (CStore key x k)
| returns_load key k : (forall r, returns v (k r)) -> returns v (CLoad key k)
| returns_loop k : (forall l, returns v (k l)) -> returns v (CLoopId k).

Inductive raises (e : exn) : coro -> Prop :=
| raises_raise : raises e (CRaise e)
| raises_sleep k : raises e k -> raises e (CSleep k)
| raises_store key x k : raises e k -> raises e (CStore key x k)
| raises_load key k : (forall r, raises e (k r)) -> raises e (CLoad key k)
| raises_loop k : (forall l, raises e (k l)) -> raises e (CLoopId k).

(** An async generator body that yields [v] first and goes on as [k]. *)
Inductive yields_first (v : value) (k : agen_body) : agen_body -> Prop :=
| yf_yield : yields_first v k (GYield v k)
| yf_sleep b : yields_first v k b -> yields_first v k (GSleep b)
| yf_store key x b : yields_first v k b -> yields_first v k (GStore key x b)
| yf_load key f : (forall r, yields_first v k (f r)) ->
                  yields_first v k (GLoad key f)
| yf_loop f : (forall l, yields_first v k (f l)) -> yields_first v k (GLoopId f).

(** An async generator body that yields [v] first and is then suspended
    as [s]: at a plain [yield], or at one under a cleanup. *)
Inductive yields_into (v : value) (s : agen_obj) : agen_body -> Prop :=
| yi_yield k : s = AgenSuspended k -> yields_into v s (GYield v k)
| yi_try c k : s = AgenGuarded c k -> yields_into v s (GTryYield v c k)
| yi_sleep b : yields_into v s b -> yields_into v s (GSleep b)
| yi_store key x b : yields_into v s b -> yields_into v s (GStore key x b)
| yi_load key f : (forall r, yields_into v s (f r)) ->
                  yields_into v s (GLoad key f)
| yi_loop f : (forall l, yields_into v s (f l)) -> yields_into v s (GLoopId f).

(** An async generator body that ends without another [yield]. *)
Inductive terminates : agen_body -> Prop :=
| tm_return : terminates GReturn
| tm_sleep b : terminates b -> terminates (GSleep b)
| tm_store key x b : terminates b -> terminates (GStore key x b)
| tm_load key f : (forall r, terminates (f r)) -> terminates (GLoad key f)
| tm_loop f : (forall l, terminates (f l)) -> terminates (GLoopId f).

(** An async generator body that ends by raising [e]. *)
Inductive fails_with (e : exn) : agen_body -> Prop :=
| fw_raise : fails_with e (GRaise e)
| fw_sleep b : fails_with e b -> fails_with e (GSleep b)
| fw_store key x b : fails_with e b -> fails_with e (GStore key x b)
| fw_load key f : (forall r, fails_with e (f r)) -> fails_with e (GLoad key f)
| fw_loop f : (forall l, fails_with e (f l)) -> fails_with e (GLoopId f).

(** The awaitables the harness hands to [asyncio.run]: a coroutine
    object, or [agen.__anext__()]. *)
Inductive bridged : Type :=
| BridgeCoro (c : coro)
| BridgeAnext (agen : nat).

Definition bridged_main (b : bridged) : M world value :=
  match b with
  | BridgeCoro c => drive c
  | BridgeAnext agen => anext agen
  end.

Definition run_bridged (b : bridged) : M world value :=
  asyncio_run (bridged_main b).

End Asyncio.
Export Asyncio.

(** ** [docling_core_stub.py] *)

Module DoclingCoreStub.

(** [_register(path)]: create a module object and store it under [path],
    whatever was there before. *)
Definition _register (path : string) : M interp value :=
  mod_ <- ModuleType path;;
  sys_modules_setitem path mod_;;;
  ret mod_.

(** [mod.__dict__.update({...})] with named objects. *)
Fixpoint dict_update (obj : value) (kvs : list (string * value))
  : M interp unit :=
  match kvs with
  | [] => ret tt
  | (k, v) :: rest => setattr obj k v;;; dict_update obj rest
  end.

Definition _legacy_base_objects : list (string * value) :=
  map (fun k => (k, VObj "_LegacyPlaceholder"))
    ["BaseText"; "Figure"; "GlmTableCell"; "PageDimensions";
     "PageReference"; "Prov"; "Ref"; "Table"; "TableCell"].

Definition _legacy_document_objects : list (string * value) :=
  map (fun k => (k, VObj "_LegacyPlaceholder"))
    ["CCSDocumentDescription"; "CCSFileInfoObject"; "ExportedCCSDocument"].

Definition _public_objects : list (string * value) :=
  [("BoundingBox", VObj "BoundingBox"); ("DocItemLabel", VObj "DocItemLabel");
   ("Size", VObj "Size"); ("DocItem", VObj "DocItem");
   ("NodeItem", VObj "NodeItem"); ("TextItem", VObj "TextItem");
   ("PictureItem", VObj "PictureItem"); ("TableItem", VObj "TableItem");
   ("TableCell", VObj "TableCell"); ("TableData", VObj "TableData");
   ("DoclingDocument", VObj "DoclingDocument");
   ("SegmentedPdfPage", VObj "SegmentedPdfPage");
   ("TextCell", VObj "TextCell"); ("ListItem", VObj "_Placeholder");
   ("BoundingRectangle", VObj "BoundingRectangle");
   ("ImageRefMode", VObj "ImageRefMode");
   ("DocumentOrigin", VObj "_Placeholder"); ("CoordOrigin", VObj "CoordOrigin");
   ("PictureDataType", VObj "_Placeholder");
   ("SectionHeaderItem", VObj "_Placeholder")].

(** The module-level statements of the file that touch modules, in
    source order. *)
Definition main : M interp unit :=
  pkg_root <- _register "docling_core";;
  pkg_utils <- _register "docling_core.utils";;
  setattr pkg_utils "resolve_source_to_stream" (VObj "resolve_source_to_stream");;;
  setattr pkg_utils "docling_document_to_legacy" (VObj "docling_document_to_legacy");;;
  pkg_utils_file <- _register "docling_core.utils.file";;
  setattr pkg_utils_file "resolve_source_to_stream" (VObj "resolve_source_to_stream");;;
  pkg_utils_legacy <- _register "docling_core.utils.legacy";;
  setattr pkg_utils_legacy "docling_document_to_legacy" (VObj "docling_document_to_legacy");;;
  setattr pkg_utils "file" pkg_utils_file;;;
  setattr pkg_utils "legacy" pkg_utils_legacy;;;
  pkg_legacy_root <- _register "docling_core.types.legacy_doc";;
  pkg_legacy_base <- _register "docling_core.types.legacy_doc.base";;
  dict_update pkg_legacy_base _legacy_base_objects;;;
  pkg_legacy_document <- _register "docling_core.types.legacy_doc.document";;
  dict_update pkg_legacy_document _legacy_document_objects;;;
  setattr pkg_legacy_root "base" pkg_legacy_base;;;
  setattr pkg_legacy_root "document" pkg_legacy_document;;;
  pkg_types <- _register "docling_core.types";;
  setattr pkg_types "DoclingDocument" (VObj "<lambda>");;;
  mod_doc <- _register "docling_core.types.doc";;
  dict_update mod_doc _public_objects;;;
  pkg_types_doc_page <- _register "docling_core.types.doc.page";;
  setattr pkg_types_doc_page "PdfPageBoundaryType" (VObj "PdfPageBoundaryType");;;
  setattr pkg_types_doc_page "PdfPageGeometry" (VObj "PdfPageGeometry");;;
  setattr pkg_types_doc_page "SegmentedPdfPage" (VObj "SegmentedPdfPage");;;
  setattr pkg_types_doc_page "BoundingRectangle" (VObj "BoundingRectangle");;;
  setattr mod_doc "page" pkg_types_doc_page;;;
  mod_doc_document <- _register "docling_core.types.doc.document";;
  setattr mod_doc_document "PictureDescriptionData" (VObj "PictureDescriptionData");;;
  setattr mod_doc_document "DoclingDocument" (VObj "DoclingDocument");;;
  setattr mod_doc_document "ListItem" (VObj "_Placeholder");;;
  setattr mod_doc "PictureDescriptionData" (VObj "PictureDescriptionData");;;
  setattr mod_doc "ListItem" (VObj "_Placeholder");;;
  setattr pkg_root "DocumentStream" (VObj "_Placeholder");;;
  got <- sys_modules_get "docling_core.types.doc.page";;
  mod_doc_page <- match got with
                  | Some m => if decide (m = VNone)
                              then _register "docling_core.types.doc.page"
                              else ret m
                  | None => _register "docling_core.types.doc.page"
                  end;;
  setattr mod_doc_page "TextCell" (VObj "TextCell");;;
  setattr mod_doc_page "SegmentedPdfPage" (VObj "SegmentedPdfPage");;;
  has <- hasattr mod_doc_page "BoundingRectangle";;
  (if negb has
   then setattr mod_doc_page "BoundingRectangle" (VObj "BoundingRectangle")
   else ret tt);;;
  mod_doc_labels <- _register "docling_core.types.doc.labels";;
  setattr mod_doc_labels "DocItemLabel" (VObj "DocItemLabel");;;
  setattr pkg_types "doc" mod_doc;;;
  mod_io <- _register "docling_core.types.io";;
  setattr mod_io "DocumentStream" (VObj "DocumentStream");;;
  setattr pkg_types "io" mod_io.

End DoclingCoreStub.

(** ** [conftest.py]: module stubs *)

Module Conftest.

(** The [websockets] block. The three module objects are built under the
    guard; the [sys.modules.update] call that follows is at module level
    and reads the three names whether or not the guard ran. *)
Definition websockets_block : M interp unit :=
  present <- sys_modules_contains "websockets";;
  (if negb present then
     store_name "_connect" (VObj "_connect");;;
     _ws_client_mod <- ModuleType "websockets.sync.client";;
     store_name "_ws_client_mod" _ws_client_mod;;;
     setattr _ws_client_mod "connect" (VObj "_connect");;;
     _ws_sync_mod <- ModuleType "websockets.sync";;
     store_name "_ws_sync_mod" _ws_sync_mod;;;
     setattr _ws_sync_mod "client" _ws_client_mod;;;
     _ws_mod <- ModuleType "websockets";;
     store_name "_ws_mod" _ws_mod;;;
     setattr _ws_mod "sync" _ws_sync_mod
   else ret tt);;;
  _ws_mod <- load_name "_ws_mod";;
  _ws_sync_mod <- load_name "_ws_sync_mod";;
  _ws_client_mod <- load_name "_ws_client_mod";;
  sys_modules_update
    [("websockets", _ws_mod);
     ("websockets.sync", _ws_sync_mod);
     ("websockets.sync.client", _ws_client_mod)].

(** The [pypdfium2] block. *)
Definition pypdfium2_block : M interp unit :=
  present <- sys_modules_contains "pypdfium2";;
  if negb present then
    _pp_mod <- ModuleType "pypdfium2";;
    store_name "_pp_mod" _pp_mod;;;
    store_name "PdfiumError" (VObj "PdfiumError");;;
    store_name "_Dummy" (VObj "_Dummy");;;
    setattr _pp_mod "PdfDocument" (VObj "_Dummy");;;
    setattr _pp_mod "PdfPage" (VObj "_Dummy");;;
    setattr _pp_mod "PdfTextPage" (VObj "_Dummy");;;
    setattr _pp_mod "PdfiumError" (VObj "PdfiumError");;;
    _pp_raw <- ModuleType "pypdfium2.raw";;
    store_name "_pp_raw" _pp_raw;;;
    sys_modules_setitem "pypdfium2.raw" _pp_raw;;;
    _pp_helpers <- ModuleType "pypdfium2._helpers";;
    store_name "_pp_helpers" _pp_helpers;;;
    _pp_helpers_misc <- ModuleType "pypdfium2._helpers.misc";;
    store_name "_pp_helpers_misc" _pp_helpers_misc;;;
    setattr _pp_helpers_misc "PdfiumError" (VObj "PdfiumError");;;
    sys_modules_setitem "pypdfium2._helpers" _pp_helpers;;;
    sys_modules_setitem "pypdfium2._helpers.misc" _pp_helpers_misc;;;
    sys_modules_setitem "pypdfium2" _pp_mod
  else ret tt.

(** *** The [pytest_asyncio] substitute: fixtures *)

(** [_sync_wrapper], the closure made for a coroutine function [func]. *)
Definition _sync_wrapper (func : call_args -> coro) (args : call_args)
  : M world value :=
  asyncio_run (drive (func args)).

(** [_sync_gen_wrapper] is a generator function. Its frame is either
    not started, suspended at its only [yield] (inside the [try]), or
    done. *)
Inductive gen_frame : Type :=
| FrameStart (func : call_args -> agen_body) (args : call_args)
| FrameAtYield (agen : nat)
| FrameDone.

Definition _sync_gen_wrapper (func : call_args -> agen_body) (args : call_args)
  : gen_frame :=
  FrameStart func args.

(** The [finally] block: resume the generator once more; only
    [StopAsyncIteration] is caught. What [asyncio.run] returns is not
    bound to anything. *)
Definition finally_block (agen : nat) : M world unit :=
  try_except
    (asyncio_run (anext agen);;; ret tt)
    (fun e => bool_decide (e = StopAsyncIteration))
    (ret tt).

(** [next(gen)] on a frame of [_sync_gen_wrapper]: the value yielded,
    or the exception raised ([StopIteration] when the body ran to its
    end), with the frame it leaves. When the body runs to its end the
    frame is cleared and its local [agen], the only reference to the
    generator object, is released. When the frame ends by an exception,
    the traceback keeps the frame, and with it the generator, for as
    long as the caller keeps the exception. *)
Definition gen_next (g : gen_frame) (w : world)
  : outcome value * gen_frame * world :=
  match g with
  | FrameStart func args =>
      match new_agen (func args) w with
      | (Return agen, w0) =>
          match asyncio_run (anext agen) w0 with
          | (Return value, w1) => (Return value, FrameAtYield agen, w1)
          | (Raise e, w1) =>
              match finally_block agen w1 with
              | (Return _, w2) => (Raise e, FrameDone, w2)
              | (Raise e', w2) => (Raise e', FrameDone, w2)
              end
          end
      | (Raise e, w0) => (Raise e, FrameDone, w0)
      end
  | FrameAtYield agen =>
      match finally_block agen w with
      | (Return _, w') => (Raise StopIteration, FrameDone, gen_finalize agen w')
      | (Raise e, w') => (Raise e, FrameDone, w')
      end
  | FrameDone => (Raise StopIteration, FrameDone, w)
  end.

(** What [decorator(func)] hands to [pytest.fixture]. *)
Inductive fixture_function : Type :=
| FixtureFunction (f : call_args -> M world value)
| FixtureGenerator (f : call_args -> gen_frame).

Definition decorator (func : callable) : fixture_function :=
  match func with
  | CoroFn f => FixtureFunction (_sync_wrapper f)
  | AsyncGenFn f => FixtureGenerator (_sync_gen_wrapper f)
  | SyncFn f => FixtureFunction f
  end.

(** *** The call hook *)

(** A test item: its function, the fixture values already computed and
    the argument names of its fixture info. *)
Record pyfuncitem : Type := {
  obj : callable;
  funcargs : gmap string value;
  argnames : list string
}.

(** [{name: funcargs[name] for name in argnames}]. *)
Fixpoint dict_comprehension (fa : gmap string value) (names : list string)
  : outcome (gmap string value) :=
  match names with
  | [] => Return ∅
  | name :: rest =>
      match fa !! name with
      | None => Raise (KeyError name)
      | Some v =>
          match dict_comprehension fa rest with
          | Return d => Return (<[name := v]> d)
          | Raise e => Raise e
          end
      end
  end.

(** [pytest_pyfunc_call(pyfuncitem)]: [Some true] is [True], [None] is
    [None]. *)
Definition pytest_pyfunc_call (item : pyfuncitem) : M world (option bool) :=
  match obj item with
  | CoroFn test_obj =>
      kwargs <- lift (dict_comprehension (funcargs item) (argnames item));;
      asyncio_run (drive (test_obj {| pos := []; kw := kwargs |}));;;
      ret (Some true)
  | _ => ret None
  end.

End Conftest.

(** ** Model of the import system

    The import system is the standard library's. Its part that the
    late-binding hook of [sitecustomize.py] meets is modelled for
    top-level module names: the lookup in [sys.modules], the walk over
    [sys.meta_path], and the loading of a found spec. What lies outside
    the process (which modules can be found, what their code does, how
    pytest's plugin manager answers) is a [host]. *)

Module Importlib.

Inductive found : Type :=
| NotFound
| FoundNamespace      (* a spec without a loader *)
| FoundWithLoader.

Record host : Type := {
  standalone_exists : bool;             (* pytest_asyncio.py lies next to
                                           sitecustomize.py *)
  path_find : string -> found;          (* what PathFinder.find_spec finds *)
  module_code : string -> outcome unit; (* running a found module's code *)
  config_pluginmanager : bool;          (* pytest.config.pluginmanager can
                                           be read *)
  attr_pluginmanager : bool;            (* pytest.pluginmanager is there and
                                           is not None *)
  register_plugin : outcome unit        (* what pm.register does *)
}.

(** A loader object. [exec_module_attr] is an attribute assigned on the
    object itself: a plain function, called without the loader. *)
Record loader : Type := {
  loader_name : string;
  exec_module_attr : option (list value -> M interp unit)
}.

Record spec : Type := {
  spec_name : string;
  spec_loader : option loader
}.

(** [importlib.machinery.PathFinder.find_spec(fullname, path)]. *)
Definition PathFinder_find_spec (h : host) (fullname : string) : option spec :=
  match path_find h fullname with
  | NotFound => None
  | FoundNamespace => Some {| spec_name := fullname; spec_loader := None |}
  | FoundWithLoader =>
      Some {| spec_name := fullname;
              spec_loader := Some {| loader_name := fullname;
                                     exec_module_attr := None |} |}
  end.

(** The [exec_module] method of the loader's class: runs the module's
    own code. *)
Definition class_exec_module (h : host) (name : string) (module : value)
  : M interp unit :=
  log EvOrigExec;;;
  lift (module_code h name).

(** The call [loader.exec_module(module)]: an attribute of the object
    wins over the method of the class and receives [module] alone; the
    method of the class is bound to the loader. *)
Definition call_exec_module (h : host) (ld : loader) (module : value)
  : M interp unit :=
  match exec_module_attr ld with
  | Some f => f [module]
  | None => class_exec_module h (loader_name ld) module
  end.

Section Machinery.
Variable h : host.
(** [find_spec] of the hook object on the meta path. *)
Variable hook_find_spec : string -> M interp (option spec).

Definition finder_find_spec (f : finder) (name : string)
  : M interp (option spec) :=
  match f with
  | PytestImportHook => hook_find_spec name
  | PathFinder => ret (PathFinder_find_spec h name)
  end.

(** The first spec a finder of the meta path returns. *)
Fixpoint find_spec_meta (finders : list finder) (name : string)
  : M interp (option spec) :=
  match finders with
  | [] => ret None
  | f :: rest =>
      found_spec <- finder_find_spec f name;;
      match found_spec with
      | Some sp => ret (Some sp)
      | None => find_spec_meta rest name
      end
  end.

(** Loading: the module is in [sys.modules] while its code runs, and
    is taken out again when that raises. *)
Definition load_unlocked (sp : spec) : M interp value :=
  module <- ModuleType (spec_name sp);;
  sys_modules_setitem (spec_name sp) module;;;
  on_exception
    (match spec_loader sp with
     | Some ld => call_exec_module h ld module
     | None => ret tt
     end)
    (fun st => set_sys_modules (delete (spec_name sp) (sys_modules st)) st);;;
  got <- sys_modules_get (spec_name sp);;
  match got with
  | Some m => ret m
  | None => raise (KeyError (spec_name sp))
  end.

Definition find_and_load (name : string) : M interp value :=
  got <- sys_modules_get name;;
  match got with
  | Some m => ret m
  | None =>
      st <- get;;
      found_spec <- find_spec_meta (meta_path st) name;;
      match found_spec with
      | Some sp => load_unlocked sp
      | None => raise (ModuleNotFoundError name)
      end
  end.
End Machinery.

End Importlib.
Export Importlib.

(** ** [sitecustomize.py]: module stubs *)

Module Sitecustomize.

Section Hook.
Variable h : host.
(** The statement [import name], as the interpreter runs it here. *)
Variable import_ : string -> M interp value.

(** [_upgrade_pytest_asyncio_stub(original_mod)]. The mark generator
    and the plugin manager of pytest are the fields [mark_asyncio]
    and [plugins] of the state. *)
Definition _upgrade_pytest_asyncio_stub (original_mod : value)
  : M interp unit :=
  log EvUpgradeCalled;;;
  pytest <- import_ "pytest";;
  setattr original_mod "fixture" (VObj "fixture");;;
  setattr original_mod "pytest_pyfunc_call" (VObj "pytest_pyfunc_call");;;
  st <- get;;
  (if negb (mark_asyncio st) then modify (set_mark_asyncio true)
   else ret tt);;;
  (* try: pm = pytest.config.pluginmanager
     except Exception: pm = getattr(pytest, "pluginmanager", None) *)
  let pm := if config_pluginmanager h then true else attr_pluginmanager h in
  st <- get;;
  if pm && negb (bool_decide ("pytest_asyncio" ∈ plugins st)) then
    lift (register_plugin h);;;
    modify (fun st => set_plugins ("pytest_asyncio" :: plugins st) st)
  else ret tt.

(** [exec_module_override(loader_self, module)], the closure made in
    [find_spec]; [args] are the positional arguments of a call. *)
Definition exec_module_override (orig_exec : value -> M interp unit)
  (args : list value) : M interp unit :=
  match args with
  | [loader_self; module] =>
      orig_exec module;;;
      stub <- load_name "_pytest_asyncio_mod";;
      _upgrade_pytest_asyncio_stub stub
  | [] =>
      raise (TypeError "exec_module_override() missing 2 required positional arguments: 'loader_self' and 'module'")
  | [_] =>
      raise (TypeError "exec_module_override() missing 1 required positional argument: 'module'")
  | _ =>
      raise (TypeError "exec_module_override() takes 2 positional arguments")
  end.

(** [_PytestImportHook.find_spec(fullname, path, target)]. *)
Definition find_spec (fullname : string) : M interp (option spec) :=
  if negb (String.eqb fullname "pytest") then ret None
  else
    let spec := PathFinder_find_spec h fullname in
    match spec with
    | Some sp =>
        match spec_loader sp with
        | Some ld =>
            (* orig_exec is the bound method read before the assignment *)
            let orig_exec := call_exec_module h ld in
            log EvHookFired;;;
            ret (Some {| spec_name := spec_name sp;
                         spec_loader :=
                           Some {| loader_name := loader_name ld;
                                   exec_module_attr :=
                                     Some (exec_module_override orig_exec) |} |})
        | None => ret spec
        end
    | None => ret spec
    end.
End Hook.

(** The import statement with the hook's own imports resolved through
    the same machinery; [fuel] bounds the nesting of imports. *)
Fixpoint import_module (h : host) (fuel : nat) (name : string)
  : M interp value :=
  match fuel with
  | 0 => raise (RuntimeError "maximum recursion depth exceeded")
  | S n => find_and_load h (find_spec h (import_module h n)) name
  end.

(** A sequence of import statements, each one free to fail. *)
Definition resolve_all (h : host) (fuel : nat) (names : list string)
  (st : interp) : interp :=
  foldl (fun st name => exec (import_module h fuel name) st) st names.

(** [_install_pytest_asyncio_stub()]. *)
Definition _install_pytest_asyncio_stub (h : host) (fuel : nat)
  : M interp unit :=
  got <- sys_modules_get "pytest_asyncio";;
  has <- match got with
         | Some m => hasattr m "fixture"
         | None => ret false
         end;;
  if has then ret tt
  else
    fun st =>
      match import_module h fuel "pytest" st with
      | (Raise (ModuleNotFoundError _), st') => (Return tt, st')
      | (Raise e, st') => (Raise e, st')
      | (Return pytest, st') =>
          (mod_ <- ModuleType "pytest_asyncio";;
           setattr mod_ "fixture" (VObj "_fixture");;;
           setattr mod_ "pytest_pyfunc_call" (VObj "pytest_pyfunc_call");;;
           st <- get;;
           (if negb (mark_asyncio st) then modify (set_mark_asyncio true)
            else ret tt);;;
           sys_modules_setitem "pytest_asyncio" mod_) st'
      end.

(** [_install_pytest_check_stub()]. *)
Definition _install_pytest_check_stub : M interp unit :=
  present <- sys_modules_contains "pytest_check";;
  if present then ret tt
  else
    _mod <- ModuleType "pytest_check";;
    setattr _mod "check" (VObj "_CheckProxy()");;;
    sys_modules_setitem "pytest_check" _mod.

(** [_install_asgi_lifespan_stub()]. *)
Definition _install_asgi_lifespan_stub : M interp unit :=
  present <- sys_modules_contains "asgi_lifespan";;
  if present then ret tt
  else
    _mod <- ModuleType "asgi_lifespan";;
    setattr _mod "LifespanManager" (VObj "LifespanManager");;;
    sys_modules_setitem "asgi_lifespan" _mod.

(** [_install_websockets_stub()]: the same three modules as in
    [conftest.py], with the registry update inside the guarded body. *)
Definition _install_websockets_stub : M interp unit :=
  present <- sys_modules_contains "websockets";;
  if present then ret tt
  else
    _client_mod <- ModuleType "websockets.sync.client";;
    setattr _client_mod "connect" (VObj "_connect");;;
    _sync_mod <- ModuleType "websockets.sync";;
    setattr _sync_mod "client" _client_mod;;;
    _ws_mod <- ModuleType "websockets";;
    setattr _ws_mod "sync" _sync_mod;;;
    sys_modules_update
      [("websockets", _ws_mod);
       ("websockets.sync", _sync_mod);
       ("websockets.sync.client", _client_mod)].

(** [pytest_pyfunc_call(pyfuncitem)], as defined in
    [_install_pytest_asyncio_stub] and in the upgrade function. *)
Definition pytest_pyfunc_call (item : Conftest.pyfuncitem)
  : M world (option bool) :=
  match Conftest.obj item with
  | CoroFn test_obj =>
      kwargs <- lift (Conftest.dict_comprehension
                        (Conftest.funcargs item) (Conftest.argnames item));;
      asyncio_run (drive (test_obj {| pos := []; kw := kwargs |}));;;
      ret (Some true)
  | _ => ret None
  end.

(** The module-level statements of the file, run in a namespace of its
    own, up to the installation of the stubs. The [sys.path] entries
    added first and the aliasing of the real [docling] packages done
    last touch nothing of the state kept here. *)
Definition main (h : host) (fuel : nat) : M interp unit :=
  modify (set_globals ∅);;;
  (if negb (standalone_exists h) then
     _pytest_asyncio_mod <- ModuleType "pytest_asyncio";;
     store_name "_pytest_asyncio_mod" _pytest_asyncio_mod
   else ret tt);;;
  store_name "_noop_fixture" (VObj "_noop_fixture");;;
  (_pytest_asyncio_mod <- load_name "_pytest_asyncio_mod";;
   _noop_fixture <- load_name "_noop_fixture";;
   setattr _pytest_asyncio_mod "fixture" _noop_fixture);;;
  (_pytest_asyncio_mod <- load_name "_pytest_asyncio_mod";;
   setattr _pytest_asyncio_mod "asyncio" (VBool true));;;
  (_pytest_asyncio_mod <- load_name "_pytest_asyncio_mod";;
   sys_modules_setitem "pytest_asyncio" _pytest_asyncio_mod);;;
  modify (fun st => set_meta_path (PytestImportHook :: meta_path st) st);;;
  _install_pytest_asyncio_stub h fuel;;;
  _install_pytest_check_stub;;;
  _install_asgi_lifespan_stub;;;
  _install_websockets_stub.

End Sitecustomize.

(** ** [fastapi.py]: the repository's own [fastapi] module *)

Module FastapiStub.

(** [_install_submodule(name, obj_name, obj)]. *)
Definition _install_submodule (name obj_name : string) (obj : value)
  : M interp value :=
  mod_ <- ModuleType name;;
  setattr mod_ obj_name obj;;;
  sys_modules_setitem name mod_;;;
  ret mod_.

(** [sys.modules[key]]. *)
Definition sys_modules_getitem (key : string) : M interp value :=
  fun st => match sys_modules st !! key with
            | Some v => (Return v, st)
            | None => (Raise (KeyError key), st)
            end.

(** [sys.modules.setdefault(key, default)]. *)
Definition sys_modules_setdefault (key : string) (default : value)
  : M interp value :=
  fun st => match sys_modules st !! key with
            | Some v => (Return v, st)
            | None => (Return default,
                       set_sys_modules (<[key := default]> (sys_modules st)) st)
            end.

(** The module-level statements of the file that touch modules, in
    source order; [__name__] is the name the file is imported under. *)
Definition main (__name__ : string) : M interp unit :=
  cors <- ModuleType "cors";;
  _install_submodule "fastapi.middleware" "cors" cors;;;
  _install_submodule "fastapi.middleware.cors" "CORSMiddleware"
    (VObj "CORSMiddleware");;;
  _install_submodule "fastapi.responses" "RedirectResponse"
    (VObj "RedirectResponse");;;
  _install_submodule "fastapi.staticfiles" "StaticFiles" (VObj "StaticFiles");;;
  docs_mod <- ModuleType "fastapi.openapi.docs";;
  setattr docs_mod "get_redoc_html" (VObj "_identity");;;
  setattr docs_mod "get_swagger_ui_html" (VObj "_identity");;;
  setattr docs_mod "get_swagger_ui_oauth2_redirect_html" (VObj "_identity");;;
  sys_modules_setitem "fastapi.openapi.docs" docs_mod;;;
  openapi_mod <- ModuleType "fastapi.openapi";;
  setattr openapi_mod "docs" docs_mod;;;
  sys_modules_setitem "fastapi.openapi" openapi_mod;;;
  this <- sys_modules_getitem __name__;;
  sys_modules_setdefault __name__ this;;;
  ret tt.

End FastapiStub.

(** ** The fixture decorators and their call styles

    [@pytest_asyncio.fixture] is used bare, with the function to
    decorate as the only argument of the call, or as a factory,
    [@pytest_asyncio.fixture(scope=...)], whose result is then called
    with the function. What such a call evaluates to is a [decorated]
    value; the call [pytest.fixture( *args, **kwargs)(inner)] is kept as
    the constructor [Fixture], pytest being outside the program. *)

Module Decorators.
Import Conftest.

(** A positional argument: a function, or a value that is not
    callable. *)
Inductive pyarg : Type :=
| ArgFn (f : callable)
| ArgVal (v : value).

Inductive decorated : Type :=
| Function (func : callable)
| Fixture (args : list pyarg) (kwargs : gmap string value)
          (inner : fixture_function)
| Decorator (k : callable -> decorated).

(** [_fixture] of [conftest.py]: always the inner [decorator], which
    hands the wrapper made by [Conftest.decorator] to [pytest.fixture]
    with the arguments of the outer call. *)
Module ConftestStub.
Definition decorator (f_args : list pyarg) (f_kwargs : gmap string value)
  (func : callable) : decorated :=
  Fixture f_args f_kwargs (Conftest.decorator func).

Definition _fixture (f_args : list pyarg) (f_kwargs : gmap string value)
  : decorated :=
  Decorator (decorator f_args f_kwargs).
End ConftestStub.

Module SitecustomizeStub.

(** [_noop_fixture], the placeholder's [fixture]. *)
Definition _noop_fixture (args : list pyarg) (kwargs : gmap string value)
  : decorated :=
  Decorator (fun func => Function func).

(** [_fixture] of [_install_pytest_asyncio_stub]; both branches of its
    conditional [return] give the inner [decorator]. *)
Definition _fixture (fixture_args : list pyarg)
  (fixture_kwargs : gmap string value) : decorated :=
  let decorator := fun func =>
    match func with
    | CoroFn f =>
        Fixture fixture_args fixture_kwargs (FixtureFunction (_sync_wrapper f))
    | AsyncGenFn f =>
        Fixture fixture_args fixture_kwargs
                (FixtureGenerator (_sync_gen_wrapper f))
    | SyncFn f => Fixture fixture_args fixture_kwargs (FixtureFunction f)
    end in
  if negb (bool_decide (fixture_args = []))
     || negb (bool_decide (fixture_kwargs = ∅))
  then Decorator decorator else Decorator decorator.

(** [fixture] of [_upgrade_pytest_asyncio_stub], with its inner
    [_create_fixture] and the [remaining_args] that one reads. *)
Definition _create_fixture (remaining_args : list pyarg)
  (f_kwargs : gmap string value) (func : callable) : decorated :=
  match func with
  | CoroFn f =>
      Fixture remaining_args f_kwargs (FixtureFunction (_sync_wrapper f))
  | AsyncGenFn f =>
      Fixture remaining_args f_kwargs (FixtureGenerator (_sync_gen_wrapper f))
  | SyncFn f => Fixture remaining_args f_kwargs (FixtureFunction f)
  end.

Definition fixture (f_args : list pyarg) (f_kwargs : gmap string value)
  : decorated :=
  match f_args with
  | ArgFn func :: remaining_args =>
      _create_fixture remaining_args f_kwargs func
  | _ =>
      let remaining_args := f_args in
      Decorator (fun func => _create_fixture remaining_args f_kwargs func)
  end.
End SitecustomizeStub.

End Decorators.

(** ** [conftest.py]: the collection hook *)

Module Collection.

(** A collected test item: its file path and its own markers. *)
Record item : Type := {
  fspath : string;
  own_markers : list value
}.

(** [needle in haystack] for strings. *)
Fixpoint str_in (needle haystack : string) : bool :=
  if String.prefix needle haystack then true
  else match haystack with
       | EmptyString => false
       | String _ rest => str_in needle rest
       end.

(** [pytest.mark.skip(reason=...)], one object for the whole call. *)
Definition skip_e2e : value :=
  VObj "pytest.mark.skip(reason='Skipped E2E HTTP test in stubbed sandbox')".

(** [item.add_marker(marker)]. *)
Definition add_marker (marker : value) (it : item) : item :=
  {| fspath := fspath it; own_markers := own_markers it ++ [marker] |}.

(** The [for item in items] loop; the items are changed in place, the
    list is returned here. *)
Fixpoint mark_loop (items : list item) : list item :=
  match items with
  | [] => []
  | it :: rest =>
      let path_str := fspath it in
      (if str_in "src/docling-serve/tests/test_1-" path_str
          || str_in "src/docling-serve/tests/test_2-" path_str
       then add_marker skip_e2e it else it) :: mark_loop rest
  end.

(** [pytest_collection_modifyitems(config, items)]. *)
Definition pytest_collection_modifyitems (items : list item)
  : M interp (list item) :=
  let items := mark_loop items in
  present <- sys_modules_contains "rtree";;
  (if negb present then
     _rtree_mod <- ModuleType "rtree";;
     _rtree_index_mod <- ModuleType "rtree.index";;
     setattr _rtree_index_mod "Index" (VObj "_DummyIndex");;;
     sys_modules_setitem "rtree" _rtree_mod;;;
     sys_modules_setitem "rtree.index" _rtree_index_mod
   else ret tt);;;
  ret items.

End Collection.

(** ** [conftest.py]: the [FastAPI] class of the shim

    The class wraps a Starlette application. Starlette is outside the
    program: its constructor and its [add_route] are parameters, free to
    raise. An instance is its [_app], the attributes set from the
    stripped keywords, and its [routes] attribute once it exists. *)

Module ConftestFastAPI.

Definition _fastapi_only : list string :=
  ["title"; "version"; "description"; "openapi_url"; "docs_url"; "redoc_url";
   "swagger_ui_oauth2_redirect_url"; "dependencies"; "default_response_class";
   "servers"].

(** An entry of [self.routes]: path, endpoint, methods. *)
Definition route : Type := string * value * list string.

Section App.
Variable starlette : Type.
Variable Starlette : list value -> gmap string value -> outcome starlette.
Variable add_route
  : string -> value -> list string -> starlette -> outcome unit * starlette.

Record app : Type := {
  _app : starlette;
  attrs : gmap string value;
  routes : option (list route)
}.

(** [for key in list(kwargs): if key in _fastapi_only:
    extra_attrs[key] = kwargs.pop(key)]. *)
Fixpoint strip_loop (keys : list string) (kwargs extra_attrs : gmap string value)
  : outcome (gmap string value * gmap string value) :=
  match keys with
  | [] => Return (kwargs, extra_attrs)
  | key :: rest =>
      if bool_decide (key ∈ _fastapi_only) then
        match kwargs !! key with
        | Some v => strip_loop rest (delete key kwargs) (<[key := v]> extra_attrs)
        | None => Raise (KeyError key)
        end
      else strip_loop rest kwargs extra_attrs
  end.

(** [FastAPI( *args, **kwargs)]. *)
Definition __init__ (args : list value) (kwargs : gmap string value)
  : outcome app :=
  match strip_loop (map_to_list kwargs).*1 kwargs ∅ with
  | Raise e => Raise e
  | Return (kwargs, extra_attrs) =>
      match Starlette args kwargs with
      | Raise e => Raise e
      | Return a =>
          (* for key, value in extra_attrs.items(): setattr(self, key, value) *)
          let d := extra_attrs in
          let d := <["openapi_url" :=
                       default (VStr "/openapi.json")
                               (extra_attrs !! "openapi_url")]> d in
          let d := <["swagger_ui_oauth2_redirect_url" :=
                       default (VStr "/docs/oauth2-redirect")
                               (extra_attrs !! "swagger_ui_oauth2_redirect_url")]> d in
          Return {| _app := a; attrs := d; routes := None |}
      end
  end.

(** [add_api_route(self, path, endpoint, methods=None, **options)];
    what [self._app.add_route] raises is swallowed. *)
Definition add_api_route (path : string) (endpoint : value)
  (methods : option (list string)) : M app unit :=
  fun self =>
    let routes0 := match routes self with
                   | Some r => r
                   | None => []
                   end in
    let methods := match methods with
                   | Some (m :: ms) => m :: ms
                   | _ => ["GET"]
                   end in
    let routes1 := (routes0 ++ [(path, endpoint, methods)])%list in
    (Return tt,
     {| _app := snd (add_route path endpoint methods (_app self));
        attrs := attrs self;
        routes := Some routes1 |}).

(** [_make_decorator(http_method)(self, path)(func)]. *)
Definition _make_decorator (http_method : string) (path : string)
  (func : value) : M app value :=
  add_api_route path func (Some [http_method]);;;
  ret func.

Definition get := _make_decorator "GET".
Definition post := _make_decorator "POST".
Definition put := _make_decorator "PUT".
Definition delete_ := _make_decorator "DELETE".
Definition patch := _make_decorator "PATCH".

(** [router = property(lambda self: _Router(self))]. The lambda is a
    function defined in the class body, and a function does not see the
    names bound in the class body around it: [_Router] in the lambda is
    a name of the module namespace of [conftest.py], looked up each time
    [app.router] is read. [call] is the call of the object found there,
    with [self] as its argument. *)
Definition router {A : Type} (call : value -> app -> outcome A) (self : app)
  : M interp A :=
  _Router <- load_name "_Router";;
  lift (call _Router self).

End App.

End ConftestFastAPI.

(** ** [conftest.py]: the guarded blocks for [pytest_check] and
    [asgi_lifespan] *)

Module ConftestBlocks.

Definition pytest_check_block : M interp unit :=
  present <- sys_modules_contains "pytest_check";;
  if negb present then
    store_name "_CheckProxy" (VObj "_CheckProxy");;;
    _pc_mod <- ModuleType "pytest_check";;
    store_name "_pc_mod" _pc_mod;;;
    setattr _pc_mod "check" (VObj "_CheckProxy()");;;
    sys_modules_setitem "pytest_check" _pc_mod
  else ret tt.

(** The registry assignment is written twice in the source. *)
Definition asgi_lifespan_block : M interp unit :=
  present <- sys_modules_contains "asgi_lifespan";;
  if negb present then
    store_name "LifespanManager" (VObj "LifespanManager");;;
    _al_mod <- ModuleType "asgi_lifespan";;
    store_name "_al_mod" _al_mod;;;
    setattr _al_mod "LifespanManager" (VObj "LifespanManager");;;
    sys_modules_setitem "asgi_lifespan" _al_mod;;;
    sys_modules_setitem "asgi_lifespan" _al_mod
  else ret tt.

End ConftestBlocks.

(** * Vocabulary of the properties *)

(** Predicates and measures the statements are written with. *)

Module Predicates.
Import Conftest.

(** [wp m Q st]: run from [st], [m] returns, and [Q] holds of its value
    and of the state it ends in. *)
Definition wp {A} (m : M interp A) (Q : A -> interp -> Prop) (st : interp)
  : Prop :=
  match m st with
  | (Return a, st') => Q a st'
  | (Raise _, _) => False
  end.

(** What a step leaves alone. *)
Definition heap_only (n : nat) (st st' : interp) : Prop :=
  sys_modules st' = sys_modules st /\ globals st' = globals st /\
  meta_path st' = meta_path st /\ length (heap st') = n + length (heap st).

(** Registering a batch of names, as a fold of single assignments. *)
Definition inserts (kvs : list (string * value)) (m : gmap string value)
  : gmap string value :=
  foldl (fun m kv => <[kv.1 := kv.2]> m) m kvs.

(** The names of a batch have their parents in the batch. *)
Definition closed_batch (keys : list string) : bool :=
  forallb (fun k => match rsplit_dot k with
                    | Some (p, _) => bool_decide (p ∈ keys)
                    | None => true
                    end) keys.

(** How often the upgrade function was entered and how often the hook
    wrapped a loader, read off the ghost trace. *)
Definition upgrade_calls (st : interp) : nat :=
  length (filter (fun e => e = EvUpgradeCalled) (trace st)).

Definition hook_firings (st : interp) : nat :=
  length (filter (fun e => e = EvHookFired) (trace st)).

(** A computation that leaves [sys.meta_path] as it found it. *)
Definition keeps_meta_path {A} (m : M interp A) : Prop :=
  forall st, meta_path (snd (m st)) = meta_path st.

(** Loaders whose own [exec_module] leaves the meta path alone. *)
Definition spec_keeps (sp : spec) : Prop :=
  forall ld f args, spec_loader sp = Some ld ->
                    exec_module_attr ld = Some f ->
                    keeps_meta_path (f args).

(** Driving on the running loop changes the state stored on that loop and
    nothing else about the loops. *)
Definition loops_frame (w w' : world) : Prop :=
  length (loops w') = length (loops w) /\
  running w' = running w /\
  forall i, running w <> Some i -> loops w' !! i = loops w !! i.

(** A world reached from [w] by one [asyncio.run]: one more loop, closed;
    no loop running; the loops of [w] as they were. *)
Definition ran_once (w w' : world) : Prop :=
  running w' = None /\
  length (loops w') = S (length (loops w)) /\
  (exists lr, loops w' !! length (loops w) = Some lr /\ closed lr = true) /\
  forall i, i < length (loops w) -> loops w' !! i = loops w !! i.

(** The fixture values named by [argnames], as a restriction of
    [funcargs]. *)
Definition named_funcargs (item : pyfuncitem) : gmap string value :=
  filter (fun kv => kv.1 ∈ argnames item) (funcargs item).






End Predicates.
Export Predicates.

(** Concrete hosts, states and test items. *)

Module Scenarios.
Import Conftest.

(** A host on which pytest can be found and nothing else goes wrong. *)
Definition plain_host : host :=
  {| standalone_exists := false;
     path_find := fun n => if String.eqb n "pytest" then FoundWithLoader
                           else NotFound;
     module_code := fun _ => Return tt;
     config_pluginmanager := false;
     attr_pluginmanager := false;
     register_plugin := Return tt |}.

(** The state [conftest.py] starts in when [sitecustomize.py] ran at
    interpreter start: the registry holds its stubs, the namespace of
    [conftest.py] is new. *)
Definition after_sitecustomize : interp :=
  set_globals ∅ (exec (Sitecustomize.main plain_host 2) empty_interp).

(** A host with the standalone file. *)
Definition standalone_host : host :=
  {| standalone_exists := true;
     path_find := fun n => if String.eqb n "pytest" then FoundWithLoader
                           else NotFound;
     module_code := fun _ => Return tt;
     config_pluginmanager := false;
     attr_pluginmanager := false;
     register_plugin := Return tt |}.

(** The state after [sitecustomize.py] ran on an empty interpreter. *)
Definition armed : interp :=
  exec (Sitecustomize.main plain_host 2) empty_interp.



(** A generator with two [yield]s and code after the second. *)
Definition two_yields : call_args -> agen_body :=
  fun _ => GYield (VStr "v1") (GYield (VStr "v2") (GRaise ZeroDivisionError)).


(** A coroutine test without arguments that divides by zero. *)
Definition failing_test : pyfuncitem :=
  {| obj := CoroFn (fun _ => CRaise ZeroDivisionError);
     funcargs := ∅;
     argnames := [] |}.

End Scenarios.
Export Scenarios.

(** Stepping through installer code with the new modules kept apart from
    the heap the code started on. *)

Module Exact.

Definition fresh_module (name : string) : module_obj :=
  {| mod_name := name; mod_dict := ∅ |}.

Definition with_attr (attr : string) (v : value) (m : module_obj)
  : module_obj :=
  {| mod_name := mod_name m; mod_dict := <[attr := v]> (mod_dict m) |}.

Fixpoint get_nth (i : nat) (l : list module_obj) : option module_obj :=
  match l, i with
  | [], _ => None
  | x :: _, 0 => Some x
  | _ :: r, S j => get_nth j r
  end.

Fixpoint set_nth (i : nat) (f : module_obj -> module_obj)
  (l : list module_obj) : list module_obj :=
  match l, i with
  | [], _ => []
  | x :: r, 0 => f x :: r
  | x :: r, S j => x :: set_nth j f r
  end.

(** A state whose heap is [h] followed by the modules [news] made since. *)
Definition mk (h news : list module_obj) (sm g : gmap string value)
  (mp : list finder) (ma : bool) (pl : list string) (tr : list event)
  : interp :=
  {| heap := h ++ news; sys_modules := sm; globals := g; meta_path := mp;
     mark_asyncio := ma; plugins := pl; trace := tr |}.

(** The attribute of the [i]-th new module. *)
Definition new_attr (news : list module_obj) (i : nat) (attr : string)
  : option value :=
  m ← get_nth i news; mod_dict m !! attr.

(** An installer that returns from [st], keeps every registry entry of
    [st], leaves [name] registered (bound to a new module with [attr]
    when it was not registered), and does nothing when run again. *)
Definition installer_keeps_entries (install : M interp unit)
  (name attr : string) (st : interp) : Prop :=
  let st' := exec install st in
  install st = (Return tt, st') /\
  (forall other v, direct_lookup st other = Some v ->
                   direct_lookup st' other = Some v) /\
  (direct_lookup st name = None ->
   direct_lookup st' name = Some (VModule (length (heap st))) /\
   is_Some (lookup_attr st' (VModule (length (heap st))) attr)) /\
  install st' = (Return tt, st').

(** The parent of [name] is registered but has no attribute for it:
    [name] can be imported, and reading it off its parent fails. *)
Definition unlinked (st : interp) (name : string) : Prop :=
  exists p c hp hc, rsplit_dot name = Some (p, c) /\
                    direct_lookup st p = Some hp /\
                    direct_lookup st name = Some hc /\
                    lookup_attr st hp c = None.

(** What a guarded installer leaves alone: entries of the registry
    outside [changed] keep their module, registered names stay
    registered, the module objects that existed keep their attributes,
    and nothing else of the state changes. *)
Definition grows (changed : list string) (st s : interp) : Prop :=
  (forall name v, name ∉ changed -> direct_lookup st name = Some v ->
                  direct_lookup s name = Some v) /\
  (forall name, is_Some (direct_lookup st name) ->
                is_Some (direct_lookup s name)) /\
  (forall l a, l < length (heap st) ->
               lookup_attr s (VModule l) a = lookup_attr st (VModule l) a) /\
  length (heap st) <= length (heap s) /\
  globals s = globals st /\ meta_path s = meta_path st /\
  mark_asyncio s = mark_asyncio st /\ plugins s = plugins st /\
  trace s = trace st.




(** The guard of [_install_pytest_asyncio_stub]: [pytest_asyncio] is
    registered and has the attribute [fixture]. *)
Definition has_fixture_stub (st : interp) : bool :=
  match sys_modules st !! "pytest_asyncio" with
  | Some m => bool_decide (is_Some (lookup_attr st m "fixture"))
  | None => false
  end.


(** What [asyncio.run] raises when a loop is running in the thread. *)
Definition nested_run_error : exn :=
  RuntimeError "asyncio.run() cannot be called from a running event loop".


(** A path with one of the two end-to-end test prefixes somewhere in it. *)
Definition e2e_path (path : string) : Prop :=
  exists pre post,
    path = pre +:+ "src/docling-serve/tests/test_1-" +:+ post \/
    path = pre +:+ "src/docling-serve/tests/test_2-" +:+ post.


(** A module body that decorates functions one after the other:
    [@app.<method>(path)] over [def func], for each entry. *)
Fixpoint decorate_all {starlette : Type}
  (add_route : string -> value -> list string -> starlette
               -> outcome unit * starlette)
  (ds : list (string * string * value))
  : M (ConftestFastAPI.app starlette) (list value) :=
  match ds with
  | [] => ret []
  | (http_method, path, func) :: rest =>
      f <- ConftestFastAPI._make_decorator starlette add_route
             http_method path func;;
      fs <- decorate_all add_route rest;;
      ret (f :: fs)
  end.


(** Two states with the same module objects and the same registry, and
    equal in all but the module-level names of the file that ran. *)
Definition same_modules (s1 s2 : interp) : Prop :=
  heap s1 = heap s2 /\ sys_modules s1 = sys_modules s2 /\
  meta_path s1 = meta_path s2 /\ mark_asyncio s1 = mark_asyncio s2 /\
  plugins s1 = plugins s2 /\ trace s1 = trace s2.

(** A block of [conftest.py] and an installer of [sitecustomize.py] that
    both return from [st] and leave the same modules. *)
Definition siblings_agree (block installer : M interp unit) (st : interp)
  : Prop :=
  block st = (Return tt, exec block st) /\
  installer st = (Return tt, exec installer st) /\
  same_modules (exec block st) (exec installer st).


End Exact.
Export Exact.

(** * Properties *)

(** ** A weakest-precondition calculus for installer code

    [wp m Q st]: run from [st], [m] returns, and [Q] holds of its value
    and final state. The rules keep of a state what the registry
    properties need: the registry, the globals and the size of the heap. *)

Module Wp.

Lemma wp_exec {A} (m : M interp A) Q st :
  wp m Q st -> exists a, m st = (Return a, exec m st) /\ Q a (exec m st).
Proof.
  unfold wp, exec. destruct (m st) as [[a|e] st']; [|done]. eauto.
Qed.

Lemma wp_ret {A} (a : A) (Q : A -> interp -> Prop) st : Q a st -> wp (ret a) Q st.
Proof. done. Qed.

Lemma wp_bind {A B} (m : M interp A) (k : A -> M interp B) Q st :
  wp m (fun a => wp (k a) Q) st -> wp (bind m k) Q st.
Proof.
  unfold wp, bind. destruct (m st) as [[a|e] st']; [|done]. done.
Qed.

Lemma wp_mono {A} (m : M interp A) (Q Q' : A -> interp -> Prop) st :
  wp m Q st -> (forall a st', Q a st' -> Q' a st') -> wp m Q' st.
Proof.
  unfold wp. destruct (m st) as [[a|e] st']; [|done]. auto.
Qed.

Lemma wp_ModuleType name (Q : value -> interp -> Prop) st :
  (forall st', heap_only 1 st st' -> Q (VModule (length (heap st))) st') ->
  wp (ModuleType name) Q st.
Proof.
  intros H. apply H. repeat split. cbn. rewrite length_app. cbn. lia.
Qed.

Lemma wp_setattr l attr v (Q : unit -> interp -> Prop) st :
  l < length (heap st) ->
  (forall st', heap_only 0 st st' -> Q tt st') ->
  wp (setattr (VModule l) attr v) Q st.
Proof.
  intros Hl H. unfold wp, setattr.
  destruct (heap st !! l) as [m|] eqn:E.
  - apply H. repeat split. cbn. by rewrite length_insert.
  - apply lookup_ge_None_1 in E. lia.
Qed.

Lemma wp_hasattr o attr (Q : bool -> interp -> Prop) st :
  (forall b, Q b st) -> wp (hasattr o attr) Q st.
Proof. intros H. apply H. Qed.

Lemma wp_store_name x v (Q : unit -> interp -> Prop) st :
  (forall st', sys_modules st' = sys_modules st ->
               globals st' = <[x := v]> (globals st) ->
               meta_path st' = meta_path st ->
               length (heap st') = length (heap st) -> Q tt st') ->
  wp (store_name x v) Q st.
Proof. intros H. by apply H. Qed.

Lemma wp_sys_modules_setitem name v (Q : unit -> interp -> Prop) st :
  (forall st', sys_modules st' = <[name := v]> (sys_modules st) ->
               globals st' = globals st ->
               meta_path st' = meta_path st ->
               length (heap st') = length (heap st) -> Q tt st') ->
  wp (sys_modules_setitem name v) Q st.
Proof. intros H. by apply H. Qed.

Lemma wp_sys_modules_update kvs (Q : unit -> interp -> Prop) st :
  (forall st', sys_modules st'
                 = foldl (fun m kv => <[kv.1 := kv.2]> m) (sys_modules st) kvs ->
               globals st' = globals st ->
               meta_path st' = meta_path st ->
               length (heap st') = length (heap st) -> Q tt st') ->
  wp (sys_modules_update kvs) Q st.
Proof. intros H. by apply H. Qed.

Lemma wp_sys_modules_get name (Q : option value -> interp -> Prop) st :
  Q (sys_modules st !! name) st -> wp (sys_modules_get name) Q st.
Proof. done. Qed.

Lemma wp_sys_modules_contains name (Q : bool -> interp -> Prop) st :
  Q (bool_decide (is_Some (sys_modules st !! name))) st ->
  wp (sys_modules_contains name) Q st.
Proof. done. Qed.

Lemma wp_dict_update l kvs (Q : unit -> interp -> Prop) st :
  l < length (heap st) ->
  (forall st', heap_only 0 st st' -> Q tt st') ->
  wp (DoclingCoreStub.dict_update (VModule l) kvs) Q st.
Proof.
  revert st. induction kvs as [|[k v] kvs IH]; intros st Hl H.
  - apply H. by repeat split.
  - cbn [DoclingCoreStub.dict_update]. apply wp_bind, wp_setattr; [done|].
    intros st1 (Hs & Hg & Hm & Hh). apply IH; [lia|].
    intros st2 (Hs2 & Hg2 & Hm2 & Hh2). apply H.
    repeat split; [congruence..|lia].
Qed.

Lemma wp__register path (Q : value -> interp -> Prop) st :
  (forall st', sys_modules st'
                 = <[path := VModule (length (heap st))]> (sys_modules st) ->
               globals st' = globals st ->
               meta_path st' = meta_path st ->
               length (heap st') = S (length (heap st)) ->
               Q (VModule (length (heap st))) st') ->
  wp (DoclingCoreStub._register path) Q st.
Proof. intros H. apply H; try done. cbn. rewrite length_app. cbn. lia. Qed.

End Wp.
Import Wp.

(** One step of a straight-line installer. *)
Ltac wp_step :=
  lazymatch goal with
  | |- wp (bind _ _) _ _ => apply wp_bind
  | |- wp (ret _) _ _ => apply wp_ret
  | |- wp (ModuleType _) _ _ =>
      apply wp_ModuleType; intros ? (? & ? & ? & ?)
  | |- wp (setattr (VModule _) _ _) _ _ =>
      apply wp_setattr; [lia | intros ? (? & ? & ? & ?)]
  | |- wp (DoclingCoreStub.dict_update (VModule _) _) _ _ =>
      apply wp_dict_update; [lia | intros ? (? & ? & ? & ?)]
  | |- wp (DoclingCoreStub._register _) _ _ =>
      apply wp__register; intros ? ? ? ? ?
  | |- wp (store_name _ _) _ _ => apply wp_store_name; intros ? ? ? ? ?
  | |- wp (sys_modules_setitem _ _) _ _ =>
      apply wp_sys_modules_setitem; intros ? ? ? ? ?
  | |- wp (sys_modules_update _) _ _ =>
      apply wp_sys_modules_update; intros ? ? ? ? ?
  | |- wp (sys_modules_get _) _ _ => apply wp_sys_modules_get
  | |- wp (sys_modules_contains _) _ _ => apply wp_sys_modules_contains
  end.

(** Unfolding the recorded registry equations, newest first. *)
Ltac registry_chain :=
  repeat match goal with
         | H : sys_modules ?s = _ |- context [sys_modules ?s] => rewrite H
         end.

(** ** The guarded installers of [sitecustomize.py] *)

Module InstallerFacts.
Import Sitecustomize.

(** With [websockets] registered, [_install_websockets_stub] returns at
    once: nothing is built and the state is the one it was given. *)
Lemma install_websockets_present st :
  is_Some (sys_modules st !! "websockets") ->
  _install_websockets_stub st = (Return tt, st).
Proof.
  intros H. unfold _install_websockets_stub, bind, sys_modules_contains.
  by rewrite bool_decide_eq_true_2.
Qed.

(** After a run, [websockets] is registered. *)
Lemma install_websockets_registers st :
  is_Some (sys_modules (exec _install_websockets_stub st) !! "websockets").
Proof.
  destruct (decide (is_Some (sys_modules st !! "websockets"))) as [H|H].
  - unfold exec. by rewrite (install_websockets_present st H).
  - assert (W : wp _install_websockets_stub
                  (fun _ st' => is_Some (sys_modules st' !! "websockets")) st).
    { unfold _install_websockets_stub. wp_step. wp_step.
      rewrite bool_decide_eq_false_2 by done.
      repeat wp_step. registry_chain. cbn.
      rewrite lookup_insert_ne by done. rewrite lookup_insert_ne by done.
      rewrite lookup_insert_eq. by eexists. }
    apply wp_exec in W as (a & _ & W). exact W.
Qed.

(** Idempotence of the sibling: a second run changes nothing. *)
Lemma install_websockets_idempotent st :
  let st1 := exec _install_websockets_stub st in
  _install_websockets_stub st1 = (Return tt, st1).
Proof.
  intros st1. apply install_websockets_present, install_websockets_registers.
Qed.

End InstallerFacts.

(** ** The [websockets] block of [conftest.py] *)

Module WebsocketsBlock.
Import Conftest.

(** With [websockets] registered and [_ws_mod] unbound, the block skips
    the construction and stops at the [sys.modules.update] call with a
    [NameError]; the state is untouched. *)
Lemma websockets_block_present st :
  is_Some (sys_modules st !! "websockets") ->
  globals st !! "_ws_mod" = None ->
  websockets_block st = (Raise (NameError "_ws_mod"), st).
Proof.
  intros Hp Hg. unfold websockets_block, bind, sys_modules_contains, load_name.
  rewrite bool_decide_eq_true_2 by done. cbn. by rewrite Hg.
Qed.

(** C1 (evaluation at the failing input): after [sitecustomize.py] has
    registered its [websockets] stub, the [websockets] block of
    [conftest.py] does not end as a no-op: it raises [NameError] on
    [_ws_mod]. The registry entry itself is left as it was. *)
Theorem conftest_websockets_after_sitecustomize :
  is_Some (sys_modules after_sitecustomize !! "websockets") /\
  websockets_block after_sitecustomize
    = (Raise (NameError "_ws_mod"), after_sitecustomize) /\
  Sitecustomize._install_websockets_stub after_sitecustomize
    = (Return tt, after_sitecustomize).
Proof.
  assert (H : is_Some (sys_modules after_sitecustomize !! "websockets")).
  { vm_compute. by eexists. }
  split; [exact H|]. split.
  - apply websockets_block_present; [exact H | reflexivity].
  - by apply InstallerFacts.install_websockets_present.
Qed.

End WebsocketsBlock.

(** ** Parents of registered names *)

Module ParentFacts.
Import Conftest.

Lemma inserts_is_Some kvs m k :
  is_Some (inserts kvs m !! k) <-> k ∈ kvs.*1 \/ is_Some (m !! k).
Proof.
  revert m. induction kvs as [|[k' v] kvs IH]; intros m; cbn.
  - split; [auto|]. intros [H|H]; [|done]. by apply elem_of_nil in H.
  - fold (inserts kvs (<[k':=v]> m)). rewrite IH, elem_of_cons.
    destruct (decide (k = k')) as [->|Hne].
    + rewrite lookup_insert_eq. split; [|intros _; right; by eexists]. auto.
    + rewrite lookup_insert_ne by done. tauto.
Qed.

Lemma parents_registered_inserts kvs m :
  parents_registered m ->
  closed_batch kvs.*1 = true ->
  parents_registered (inserts kvs m).
Proof.
  intros Hm Hc name p c Hin Hsplit.
  apply inserts_is_Some. apply inserts_is_Some in Hin as [Hin|Hin].
  - left. unfold closed_batch in Hc. rewrite forallb_forall in Hc.
    apply list_elem_of_In in Hin. specialize (Hc _ Hin).
    rewrite Hsplit in Hc. by apply bool_decide_eq_true_1 in Hc.
  - right. by apply (Hm name p c).
Qed.

(** What the [pypdfium2] block leaves in the registry. *)
Lemma pypdfium2_block_registry st :
  ~ is_Some (sys_modules st !! "pypdfium2") ->
  exists kvs,
    kvs.*1 = ["pypdfium2.raw"; "pypdfium2._helpers";
              "pypdfium2._helpers.misc"; "pypdfium2"] /\
    pypdfium2_block st = (Return tt, exec pypdfium2_block st) /\
    sys_modules (exec pypdfium2_block st) = inserts kvs (sys_modules st).
Proof.
  intros Habs.
  assert (W : wp pypdfium2_block
                (fun _ st' => exists kvs,
                   kvs.*1 = ["pypdfium2.raw"; "pypdfium2._helpers";
                             "pypdfium2._helpers.misc"; "pypdfium2"] /\
                   sys_modules st' = inserts kvs (sys_modules st)) st).
  { unfold pypdfium2_block. wp_step. wp_step.
    rewrite bool_decide_eq_false_2 by done. cbn [negb].
    repeat wp_step.
    eexists [(_, _); (_, _); (_, _); (_, _)]. split; [reflexivity|].
    registry_chain. reflexivity. }
  apply wp_exec in W as ([] & Hrun & kvs & Hk & Hs). eauto.
Qed.

Lemma pypdfium2_block_skipped st :
  is_Some (sys_modules st !! "pypdfium2") ->
  pypdfium2_block st = (Return tt, st).
Proof.
  intros H. unfold pypdfium2_block, bind, sys_modules_contains.
  by rewrite bool_decide_eq_true_2.
Qed.

(** What the module body of the [docling_core] stub leaves in the
    registry: it returns, and thirteen names are assigned. *)
Lemma docling_core_stub_registry st :
  exists kvs,
    kvs.*1 = ["docling_core"; "docling_core.utils"; "docling_core.utils.file";
              "docling_core.utils.legacy"; "docling_core.types.legacy_doc";
              "docling_core.types.legacy_doc.base";
              "docling_core.types.legacy_doc.document"; "docling_core.types";
              "docling_core.types.doc"; "docling_core.types.doc.page";
              "docling_core.types.doc.document";
              "docling_core.types.doc.labels"; "docling_core.types.io"] /\
    DoclingCoreStub.main st = (Return tt, exec DoclingCoreStub.main st) /\
    sys_modules (exec DoclingCoreStub.main st) = inserts kvs (sys_modules st).
Proof.
  assert (W : wp DoclingCoreStub.main
                (fun _ st' => exists kvs,
                   kvs.*1 = ["docling_core"; "docling_core.utils";
                             "docling_core.utils.file";
                             "docling_core.utils.legacy";
                             "docling_core.types.legacy_doc";
                             "docling_core.types.legacy_doc.base";
                             "docling_core.types.legacy_doc.document";
                             "docling_core.types"; "docling_core.types.doc";
                             "docling_core.types.doc.page";
                             "docling_core.types.doc.document";
                             "docling_core.types.doc.labels";
                             "docling_core.types.io"] /\
                   sys_modules st' = inserts kvs (sys_modules st)) st).
  { unfold DoclingCoreStub.main. repeat wp_step.
    match goal with
    | |- wp _ _ ?s =>
        assert (Hpage : exists n, n < length (heap s) /\
                  sys_modules s !! "docling_core.types.doc.page"
                  = Some (VModule n))
    end.
    { eexists. split; [|registry_chain; rewrite lookup_insert_ne by done;
                        apply lookup_insert_eq]. lia. }
    destruct Hpage as (n & Hn & ->).
    destruct (decide (VModule n = VNone)) as [|_]; [done|].
    wp_step. do 4 wp_step. wp_step. apply wp_hasattr. intros b.
    destruct b; cbn [negb]; repeat wp_step;
      (eexists [(_, _); (_, _); (_, _); (_, _); (_, _); (_, _); (_, _);
                (_, _); (_, _); (_, _); (_, _); (_, _); (_, _)];
       split; [reflexivity|]; registry_chain; reflexivity). }
  apply wp_exec in W as ([] & Hrun & kvs & Hk & Hs). eauto.
Qed.

(** C2 (amended): the stub installers keep the registry closed under
    parents. If every registered dotted name has its parent name
    registered before the [pypdfium2] block of [conftest.py] or the
    module body of [docling_core_stub.py] runs, then the same holds when
    it has run, and both run to their end. (Whether a parent has the
    child as an attribute is decided by each assignment in the code;
    see the counterexample.) *)
Theorem stub_parents_registered st :
  parents_registered (sys_modules st) ->
  (pypdfium2_block st = (Return tt, exec pypdfium2_block st) /\
   parents_registered (sys_modules (exec pypdfium2_block st))) /\
  (DoclingCoreStub.main st = (Return tt, exec DoclingCoreStub.main st) /\
   parents_registered (sys_modules (exec DoclingCoreStub.main st))).
Proof.
  intros Hst. split.
  - destruct (decide (is_Some (sys_modules st !! "pypdfium2"))) as [H|H].
    + unfold exec. by rewrite (pypdfium2_block_skipped st H).
    + destruct (pypdfium2_block_registry st H) as (kvs & Hk & Hrun & ->).
      split; [done|]. apply parents_registered_inserts; [done|].
      by rewrite Hk.
  - destruct (docling_core_stub_registry st) as (kvs & Hk & Hrun & ->).
    split; [done|]. apply parents_registered_inserts; [done|].
    by rewrite Hk.
Qed.

Lemma parents_registered_empty : parents_registered (sys_modules empty_interp).
Proof. intros name p c [v Hv] _. cbn in Hv. by rewrite lookup_empty in Hv. Qed.

Lemma stub_parents_registered_witness :
  parents_registered (sys_modules empty_interp) /\
  parents_registered (sys_modules (exec pypdfium2_block empty_interp)) /\
  parents_registered (sys_modules (exec DoclingCoreStub.main empty_interp)).
Proof.
  split; [exact parents_registered_empty|].
  destruct (stub_parents_registered empty_interp parents_registered_empty)
    as [[_ H1] [_ H2]].
  split; [exact H1 | exact H2].
Defined.

(** C2 (counterexample): after the [pypdfium2] block has run on an empty
    registry, [pypdfium2.raw] is registered and so is its parent
    [pypdfium2], but the parent module has no attribute [raw]: the
    registry is not parent-child consistent. *)
Lemma pypdfium2_children_not_attributes :
  let st := exec pypdfium2_block empty_interp in
  direct_lookup st "pypdfium2.raw" = Some (VModule 1) /\
  direct_lookup st "pypdfium2" = Some (VModule 0) /\
  lookup_attr st (VModule 0) "raw" = None /\
  ~ parent_child_consistent st.
Proof.
  intros st. repeat split; try (vm_compute; reflexivity).
  intros H.
  destruct (H "pypdfium2.raw") with (p := "pypdfium2") (c := "raw")
    as (hp & Hp & Ha); [by eexists | reflexivity |].
  vm_compute in Hp. injection Hp as <-. vm_compute in Ha. discriminate.
Qed.

(** Where the code assigns the attribute, lookup by name and attribute
    access agree; where it does not, there is no attribute. *)
Example docling_core_utils_file_linked :
  linked_to_parent (exec DoclingCoreStub.main empty_interp)
    "docling_core.utils.file".
Proof.
  intros p c H. vm_compute in H. injection H as <- <-.
  exists (VModule 1). split; vm_compute; reflexivity.
Qed.

Example docling_core_utils_not_attribute :
  let st := exec DoclingCoreStub.main empty_interp in
  direct_lookup st "docling_core.utils" = Some (VModule 1) /\
  direct_lookup st "docling_core" = Some (VModule 0) /\
  lookup_attr st (VModule 0) "utils" = None.
Proof. repeat split; vm_compute; reflexivity. Qed.

Example websockets_linked :
  let st := exec Sitecustomize._install_websockets_stub empty_interp in
  linked_to_parent st "websockets.sync" /\
  linked_to_parent st "websockets.sync.client".
Proof.
  split; intros p c H; vm_compute in H; injection H as <- <-.
  - exists (VModule 2). split; vm_compute; reflexivity.
  - exists (VModule 1). split; vm_compute; reflexivity.
Qed.

End ParentFacts.

(** ** Module-level execution of [sitecustomize.py] *)

Module SitecustomizeMain.
Import Sitecustomize.

(** With the standalone file present the guarded binding is skipped and
    the first use of [_pytest_asyncio_mod] raises; by then only
    [_noop_fixture] has been bound, and nothing was registered. *)
Lemma main_standalone h fuel st :
  standalone_exists h = true ->
  main h fuel st
  = (Raise (NameError "_pytest_asyncio_mod"),
     set_globals {["_noop_fixture" := VObj "_noop_fixture"]} st).
Proof.
  intros H. unfold main. unfold bind at 1. cbn [modify].
  unfold bind at 1. rewrite H. cbn [negb ret].
  unfold bind at 1. cbn [store_name modify].
  unfold bind at 1. unfold bind at 1. unfold load_name at 1.
  cbn [globals set_globals].
  rewrite lookup_insert_ne by done. rewrite lookup_empty.
  reflexivity.
Qed.

(** C9: module-level execution of [sitecustomize.py] ends without error
    only when [pytest_asyncio.py] is absent next to it. When the file
    exists, the binding of [_pytest_asyncio_mod] is skipped and the
    statement [_pytest_asyncio_mod.fixture = _noop_fixture] raises
    [NameError]: the stub is not installed, and the import does not end
    normally. *)
Theorem sitecustomize_completes_only_without_standalone h fuel st :
  (standalone_exists h = true ->
   result (main h fuel) st = Raise (NameError "_pytest_asyncio_mod") /\
   sys_modules (exec (main h fuel) st) = sys_modules st /\
   meta_path (exec (main h fuel) st) = meta_path st) /\
  (result (main h fuel) st = Return tt -> standalone_exists h = false).
Proof.
  split.
  - intros H. unfold result, exec. rewrite (main_standalone h fuel st H).
    by repeat split.
  - intros Hr. destruct (standalone_exists h) eqn:E; [|done].
    unfold result in Hr. by rewrite (main_standalone h fuel st E) in Hr.
Qed.

Lemma sitecustomize_completes_only_without_standalone_witness :
  standalone_exists standalone_host = true /\
  result (main standalone_host 2) empty_interp
    = Raise (NameError "_pytest_asyncio_mod").
Proof.
  split; [reflexivity|].
  apply (proj1 (sitecustomize_completes_only_without_standalone
                  standalone_host 2 empty_interp)).
  reflexivity.
Defined.

(** Without the standalone file the modelled statements run to the end
    on an empty interpreter. *)
Example main_without_standalone :
  result (main plain_host 2) empty_interp = Return tt.
Proof. vm_compute. reflexivity. Qed.

End SitecustomizeMain.

(** ** The late-binding import hook *)

Module HookFacts.
Import Sitecustomize.

(** *** Nothing modelled takes the hook off the meta path *)

Lemma keeps_ret {A} (a : A) : keeps_meta_path (ret a).
Proof. done. Qed.
Lemma keeps_raise {A} e : keeps_meta_path (@raise interp A e).
Proof. done. Qed.
Lemma keeps_lift {A} (o : outcome A) : keeps_meta_path (lift o).
Proof. done. Qed.
Lemma keeps_get : keeps_meta_path (@get interp).
Proof. done. Qed.
Lemma keeps_log e : keeps_meta_path (log e).
Proof. done. Qed.
Lemma keeps_ModuleType n : keeps_meta_path (ModuleType n).
Proof. done. Qed.
Lemma keeps_load_name x : keeps_meta_path (load_name x).
Proof. intros st. unfold load_name. by destruct (globals st !! x). Qed.
Lemma keeps_sys_modules_get n : keeps_meta_path (sys_modules_get n).
Proof. done. Qed.
Lemma keeps_sys_modules_setitem n v : keeps_meta_path (sys_modules_setitem n v).
Proof. done. Qed.
Lemma keeps_setattr o a v : keeps_meta_path (setattr o a v).
Proof.
  intros st. unfold setattr. destruct o; try done.
  by destruct (heap st !! l).
Qed.
Lemma keeps_modify f :
  (forall st, meta_path (f st) = meta_path st) -> keeps_meta_path (modify f).
Proof. intros H st. apply H. Qed.

Lemma keeps_bind {A B} (m : M interp A) (k : A -> M interp B) :
  keeps_meta_path m -> (forall a, keeps_meta_path (k a)) ->
  keeps_meta_path (bind m k).
Proof.
  intros Hm Hk st. unfold bind. specialize (Hm st).
  destruct (m st) as [[a|e] st']; cbn in *; [|done].
  by rewrite Hk.
Qed.

Lemma keeps_on_exception {A} (m : M interp A) f :
  keeps_meta_path m -> (forall st, meta_path (f st) = meta_path st) ->
  keeps_meta_path (on_exception m f).
Proof.
  intros Hm Hf st. unfold on_exception. specialize (Hm st).
  destruct (m st) as [[a|e] st']; cbn in *; [done|]. by rewrite Hf.
Qed.

Create HintDb keeps.
#[local] Hint Resolve keeps_ret keeps_raise keeps_lift keeps_get keeps_log
  keeps_ModuleType keeps_load_name keeps_sys_modules_get
  keeps_sys_modules_setitem keeps_setattr : keeps.

Ltac keeps_step :=
  lazymatch goal with
  | |- keeps_meta_path (bind _ _) => apply keeps_bind; [|intros ?]
  | |- keeps_meta_path (on_exception _ _) => apply keeps_on_exception; [|done]
  | |- keeps_meta_path (modify _) => apply keeps_modify; done
  | |- keeps_meta_path (if ?b then _ else _) => destruct b
  | |- keeps_meta_path (match ?a with _ => _ end) => destruct a
  | |- _ => solve [auto with keeps]
  end.
Ltac keeps := repeat keeps_step.

Section Keeps.
Variable h : host.
Variable import_ : string -> M interp value.
Hypothesis keeps_import : forall n, keeps_meta_path (import_ n).

Lemma keeps_upgrade stub :
  keeps_meta_path (_upgrade_pytest_asyncio_stub h import_ stub).
Proof.
  unfold _upgrade_pytest_asyncio_stub. keeps.
Qed.

Lemma keeps_class_exec name module :
  keeps_meta_path (class_exec_module h name module).
Proof. unfold class_exec_module. keeps. Qed.

Lemma keeps_override orig_exec args :
  (forall m, keeps_meta_path (orig_exec m)) ->
  keeps_meta_path (exec_module_override h import_ orig_exec args).
Proof.
  intros Ho. unfold exec_module_override.
  destruct args as [|a [|b [|c args]]]; try apply keeps_raise.
  apply keeps_bind; [apply Ho|intros _].
  apply keeps_bind; [apply keeps_load_name|intros stub].
  apply keeps_upgrade.
Qed.

Lemma PathFinder_spec_keeps name sp :
  PathFinder_find_spec h name = Some sp -> spec_keeps sp.
Proof.
  unfold PathFinder_find_spec. intros H ld f args Hl Hf.
  destruct (path_find h name); simplify_eq; cbn in *; simplify_eq.
Qed.

Lemma keeps_call_exec ld module :
  (forall f args, exec_module_attr ld = Some f -> keeps_meta_path (f args)) ->
  keeps_meta_path (call_exec_module h ld module).
Proof.
  intros H. unfold call_exec_module.
  destruct (exec_module_attr ld) as [f|] eqn:E; [by apply H|].
  apply keeps_class_exec.
Qed.

Lemma find_spec_keeps name st :
  meta_path (snd (find_spec h import_ name st)) = meta_path st /\
  forall sp, fst (find_spec h import_ name st) = Return (Some sp) ->
             spec_keeps sp.
Proof.
  unfold find_spec. destruct (negb (String.eqb name "pytest")); [done|].
  destruct (PathFinder_find_spec h name) as [sp|] eqn:E; [|done].
  destruct (spec_loader sp) as [ld|] eqn:El.
  - split; [done|]. cbn. intros sp' [= <-] ld' f args Hl Hf.
    cbn in Hl. simplify_eq. cbn in Hf. simplify_eq.
    apply keeps_override. intros m. apply keeps_call_exec.
    intros f args' Hf. by apply (PathFinder_spec_keeps _ _ E ld f args').
  - split; [done|]. cbn. intros sp' [= <-].
    by apply (PathFinder_spec_keeps name).
Qed.

Lemma find_spec_meta_keeps finders name st :
  meta_path (snd (find_spec_meta h (find_spec h import_) finders name st))
    = meta_path st /\
  forall sp, fst (find_spec_meta h (find_spec h import_) finders name st)
               = Return (Some sp) -> spec_keeps sp.
Proof.
  revert st. induction finders as [|f finders IH]; intros st; [done|].
  cbn [find_spec_meta]. unfold bind.
  assert (Hf : meta_path (snd (finder_find_spec h (find_spec h import_) f name st))
               = meta_path st /\
               forall sp, fst (finder_find_spec h (find_spec h import_) f name st)
                            = Return (Some sp) -> spec_keeps sp).
  { destruct f; cbn [finder_find_spec].
    - apply find_spec_keeps.
    - split; [done|]. cbn. intros sp [= H].
      by apply (PathFinder_spec_keeps name). }
  destruct (finder_find_spec h (find_spec h import_) f name st)
    as [[[sp|]|e] st1]; cbn in Hf; destruct Hf as [Hm Hs].
  - split; [done|]. cbn. intros sp' [= <-]. by apply Hs.
  - destruct (IH st1) as [IHm IHs]. split; [congruence|done].
  - done.
Qed.

Lemma keeps_load_unlocked sp :
  spec_keeps sp -> keeps_meta_path (load_unlocked h sp).
Proof.
  intros Hs. unfold load_unlocked.
  apply keeps_bind; [apply keeps_ModuleType|intros module].
  apply keeps_bind; [apply keeps_sys_modules_setitem|intros _].
  apply keeps_bind.
  - apply keeps_on_exception; [|done].
    destruct (spec_loader sp) as [ld|] eqn:E; [|apply keeps_ret].
    apply keeps_call_exec. intros f args Hf. by apply (Hs ld).
  - intros _. apply keeps_bind; [apply keeps_sys_modules_get|].
    intros [m|]; [apply keeps_ret|apply keeps_raise].
Qed.

Lemma keeps_find_and_load name :
  keeps_meta_path (find_and_load h (find_spec h import_) name).
Proof.
  intros st. unfold find_and_load, bind at 1. cbn [sys_modules_get].
  destruct (sys_modules st !! name); [done|].
  unfold bind at 1. cbn [get]. unfold bind.
  destruct (find_spec_meta_keeps (meta_path st) name st) as [Hm Hs].
  destruct (find_spec_meta h (find_spec h import_) (meta_path st) name st)
    as [[[sp|]|e] st1]; cbn [fst snd] in *; try done.
  rewrite <- Hm. apply keeps_load_unlocked. by apply Hs.
Qed.
End Keeps.

Lemma keeps_import_module h fuel name :
  keeps_meta_path (import_module h fuel name).
Proof.
  revert name. induction fuel as [|n IH]; intros name; [done|].
  cbn [import_module]. by apply keeps_find_and_load.
Qed.

Lemma resolve_all_meta_path h fuel names st :
  meta_path (resolve_all h fuel names st) = meta_path st.
Proof.
  revert st. induction names as [|n names IH]; intros st; [done|].
  cbn. fold (resolve_all h fuel names (exec (import_module h fuel n) st)).
  rewrite IH. apply keeps_import_module.
Qed.

(** *** The hook fires on every resolution that reaches it *)

(** Resolving [pytest] through the hook, from any state where it is not
    in [sys.modules]: the hook wraps the loader, the import machinery
    calls the wrapper with the module alone, and the call raises before
    the module's code or the upgrade function is reached. *)
Lemma import_pytest_through_hook h n st rest :
  sys_modules st !! "pytest" = None ->
  meta_path st = PytestImportHook :: rest ->
  path_find h "pytest" = FoundWithLoader ->
  import_module h (S n) "pytest" st
  = (Raise (TypeError "exec_module_override() missing 1 required positional argument: 'module'"),
     {| heap := heap st ++ [{| mod_name := "pytest"; mod_dict := ∅ |}];
        sys_modules := delete "pytest"
                         (<["pytest" := VModule (length (heap st))]>
                            (sys_modules st));
        globals := globals st;
        meta_path := meta_path st;
        mark_asyncio := mark_asyncio st;
        plugins := plugins st;
        trace := trace st ++ [EvHookFired] |}).
Proof.
  intros Hnone Hmeta Hfind.
  cbn [import_module]. unfold find_and_load.
  unfold bind at 1. cbn [sys_modules_get]. rewrite Hnone.
  unfold bind at 1. cbn [get]. rewrite Hmeta.
  cbn [find_spec_meta finder_find_spec]. unfold find_spec at 1.
  cbn [String.eqb Ascii.eqb Bool.eqb negb].
  unfold PathFinder_find_spec. rewrite Hfind.
  cbn [spec_loader spec_name loader_name].
  unfold bind, log, modify, ret, load_unlocked, ModuleType, sys_modules_setitem,
    on_exception, call_exec_module, raise, bind, modify, set_trace, set_heap,
    set_sys_modules.
  cbn. by rewrite Hmeta.
Qed.

Lemma hook_firings_after_import h n st rest :
  sys_modules st !! "pytest" = None ->
  meta_path st = PytestImportHook :: rest ->
  path_find h "pytest" = FoundWithLoader ->
  hook_firings (exec (import_module h (S n) "pytest") st) = S (hook_firings st) /\
  upgrade_calls (exec (import_module h (S n) "pytest") st) = upgrade_calls st.
Proof.
  intros H1 H2 H3. unfold exec.
  rewrite (import_pytest_through_hook h n st rest H1 H2 H3).
  unfold hook_firings, upgrade_calls. cbn [snd trace].
  rewrite !filter_app, !length_app.
  change (length (filter (fun e => e = EvHookFired) [EvHookFired])) with 1.
  change (length (filter (fun e => e = EvUpgradeCalled) [EvHookFired])) with 0.
  split; lia.
Qed.

(** The state an import of [pytest] through the hook leaves behind: the
    registry entry made for the load is removed again, so the registry
    is the one before the import. *)
Lemma import_pytest_leaves_registry h n st rest :
  sys_modules st !! "pytest" = None ->
  meta_path st = PytestImportHook :: rest ->
  path_find h "pytest" = FoundWithLoader ->
  let st' := exec (import_module h (S n) "pytest") st in
  sys_modules st' = sys_modules st /\
  meta_path st' = PytestImportHook :: rest /\
  heap st' = (heap st ++ [{| mod_name := "pytest"; mod_dict := ∅ |}])%list /\
  trace st' = (trace st ++ [EvHookFired])%list /\
  mark_asyncio st' = mark_asyncio st /\
  plugins st' = plugins st /\
  globals st' = globals st.
Proof.
  intros H1 H2 H3. unfold exec.
  rewrite (import_pytest_through_hook h n st rest H1 H2 H3). cbn.
  repeat split; [|done]. by rewrite delete_insert_id.
Qed.

(** C6 (code defect): the upgrade function is never reached through the
    hook. [find_spec] stores the two-parameter function
    [exec_module_override] on the loader object, the import machinery
    calls it with the module alone, and the call raises [TypeError]
    before [orig_exec] or the upgrade function runs. From every state in
    which the hook is the first finder, [pytest] is not yet in
    [sys.modules] and the path finder supplies a loader, any number [k]
    of [import pytest] statements leaves the upgrade function run as
    often as before (not once more), the hook has fired at each of the
    [k] statements, [pytest] is still not imported, the hook is still the
    first finder, and the next [import pytest] fails in the same way. *)
Theorem upgrade_never_reached h n k st rest :
  sys_modules st !! "pytest" = None ->
  meta_path st = PytestImportHook :: rest ->
  path_find h "pytest" = FoundWithLoader ->
  let st' := resolve_all h (S n) (replicate k "pytest") st in
  upgrade_calls st' = upgrade_calls st /\
  hook_firings st' = k + hook_firings st /\
  sys_modules st' = sys_modules st /\
  meta_path st' = PytestImportHook :: rest /\
  result (import_module h (S n) "pytest") st'
  = Raise (TypeError "exec_module_override() missing 1 required positional argument: 'module'").
Proof.
  intros H1 H2 H3. revert st H1 H2.
  induction k as [|k IH]; intros st H1 H2; cbn zeta.
  - cbn [replicate resolve_all foldl]. repeat split; try done.
    unfold result. by rewrite (import_pytest_through_hook h n st rest H1 H2 H3).
  - cbn [replicate]. unfold resolve_all. cbn [foldl].
    fold (resolve_all h (S n) (replicate k "pytest")
            (exec (import_module h (S n) "pytest") st)).
    destruct (import_pytest_leaves_registry h n st rest H1 H2 H3)
      as (Hs & Hm & _).
    destruct (hook_firings_after_import h n st rest H1 H2 H3) as [Hf Hu].
    cbn zeta in Hs, Hm.
    destruct (IH (exec (import_module h (S n) "pytest") st)) as (I1 & I2 & I3 & I4 & I5);
      [by rewrite Hs|done|].
    cbn zeta in I1, I2, I3, I4, I5.
    repeat split; [congruence|lia|congruence|done|done].
Qed.

Lemma upgrade_never_reached_witness :
  let st' := resolve_all plain_host 2 ["pytest"; "pytest"] armed in
  upgrade_calls st' = upgrade_calls armed /\
  hook_firings st' = 2 + hook_firings armed /\
  sys_modules st' = sys_modules armed /\
  meta_path st' = [PytestImportHook; PathFinder] /\
  result (import_module plain_host 2 "pytest") st'
  = Raise (TypeError "exec_module_override() missing 1 required positional argument: 'module'").
Proof.
  apply (upgrade_never_reached plain_host 1 2 armed [PathFinder]);
    vm_compute; reflexivity.
Defined.

(** *** A failing import through the hook *)

Section UpgradeFailure.
Variable h : host.

(** The upgrade function up to the use of the plugin manager: when
    [pm.register] raises, the placeholder has its new [fixture] and
    [pytest_pyfunc_call] already. *)
Lemma upgrade_register_failure n l mo pytest st e :
  heap st !! l = Some mo ->
  sys_modules st !! "pytest" = Some pytest ->
  (if config_pluginmanager h then true else attr_pluginmanager h) = true ->
  "pytest_asyncio" ∉ plugins st ->
  register_plugin h = Raise e ->
  exists st2,
    _upgrade_pytest_asyncio_stub h (import_module h (S n)) (VModule l) st
      = (Raise e, st2) /\
    lookup_attr st2 (VModule l) "fixture" = Some (VObj "fixture") /\
    lookup_attr st2 (VModule l) "pytest_pyfunc_call"
      = Some (VObj "pytest_pyfunc_call") /\
    sys_modules st2 = sys_modules st.
Proof.
  intros Hl Hp Hpm Hplug Hreg.
  assert (Hlt : l < length (heap st)) by (by apply lookup_lt_Some in Hl).
  unfold _upgrade_pytest_asyncio_stub.
  unfold bind at 1. cbn [log modify].
  unfold bind at 1. cbn [import_module]. unfold find_and_load.
  unfold bind at 1. cbn [sys_modules_get sys_modules set_trace]. rewrite Hp.
  cbn [ret].
  unfold bind at 1. unfold setattr at 1. cbn [heap set_trace]. rewrite Hl.
  unfold bind at 1. unfold setattr at 1. cbn [heap set_heap].
  rewrite list_lookup_insert_eq by done.
  unfold bind at 1. cbn [get].
  rewrite Hpm. cbn [andb].
  set (hp := <[l:=_]> (<[l:=_]> (heap st))).
  assert (Hattrs : forall st2, heap st2 = hp ->
            lookup_attr st2 (VModule l) "fixture" = Some (VObj "fixture") /\
            lookup_attr st2 (VModule l) "pytest_pyfunc_call"
              = Some (VObj "pytest_pyfunc_call")).
  { intros st2 H. unfold lookup_attr. rewrite H. unfold hp.
    rewrite list_lookup_insert_eq by (by rewrite length_insert).
    cbn. rewrite lookup_insert_eq. rewrite lookup_insert_ne by done.
    by rewrite lookup_insert_eq. }
  destruct (mark_asyncio st) eqn:Em; cbn [mark_asyncio set_heap set_trace];
    rewrite Em; cbn [negb];
    unfold bind, modify, ret, get, lift; cbn;
    rewrite bool_decide_eq_false_2 by done; cbn; rewrite Hreg;
    (eexists; split; [reflexivity|]);
    (split; [apply Hattrs; reflexivity|]);
    (split; [apply Hattrs; reflexivity|reflexivity]).
Qed.


End UpgradeFailure.


End HookFacts.

(** ** The asyncio model: what driving leaves alone *)

Module AsyncioFacts.

Lemma loops_frame_refl w : loops_frame w w.
Proof. by repeat split. Qed.

Lemma loops_frame_trans w1 w2 w3 :
  loops_frame w1 w2 -> loops_frame w2 w3 -> loops_frame w1 w3.
Proof.
  intros (Hl & Hr & Ho) (Hl' & Hr' & Ho'). repeat split; [congruence..|].
  intros i Hi. rewrite Ho' by congruence. by apply Ho.
Qed.

Lemma store_local_frame key v w :
  loops_frame w (store_local key v w) /\ agens (store_local key v w) = agens w.
Proof.
  unfold store_local. destruct (running w) as [l|] eqn:Er.
  - destruct (loops w !! l) as [lr|] eqn:El.
    + split; [|done]. repeat split; cbn.
      * by rewrite length_insert.
      * intros i Hi. rewrite list_lookup_insert_ne; [done|]. congruence.
    + split; [apply loops_frame_refl|done].
  - split; [apply loops_frame_refl|done].
Qed.

Lemma drive_frame c w :
  loops_frame w (snd (drive c w)) /\ agens (snd (drive c w)) = agens w.
Proof.
  revert w. induction c as [v|e|k IH|key v k IH|key k IH|k IH]; intros w;
    cbn [drive]; try (split; [apply loops_frame_refl|done]).
  - apply IH.
  - unfold bind, modify. destruct (store_local_frame key v w) as [Hf Ha].
    destruct (IH (store_local key v w)) as [Hf' Ha'].
    split; [by eapply loops_frame_trans|congruence].
  - apply IH.
  - destruct (running w) as [l|]; [apply IH|].
    split; [apply loops_frame_refl|done].
Qed.

Lemma drive_to_yield_frame b w :
  loops_frame w (snd (drive_to_yield b w)) /\
  agens (snd (drive_to_yield b w)) = agens w.
Proof.
  revert w.
  induction b as [v k IH| |e|k IH|key v k IH|key k IH|k IH|v c k IH]; intros w;
    cbn [drive_to_yield]; try (split; [apply loops_frame_refl|done]).
  - apply IH.
  - unfold bind, modify. destruct (store_local_frame key v w) as [Hf Ha].
    destruct (IH (store_local key v w)) as [Hf' Ha'].
    split; [by eapply loops_frame_trans|congruence].
  - apply IH.
  - destruct (running w) as [l|]; [apply IH|].
    split; [apply loops_frame_refl|done].
Qed.

Lemma anext_frame agen w : loops_frame w (snd (anext agen w)).
Proof.
  unfold anext.
  destruct (agens w !! agen ≫= pending) as [b|]; [|apply loops_frame_refl].
  destruct (drive_to_yield_frame b w) as [Hf _].
  by destruct (drive_to_yield b w) as [[[v k]|e] w'].
Qed.

(** *** What a coroutine does, whatever the loop *)

Lemma store_local_running key v w : running (store_local key v w) = running w.
Proof. by destruct (store_local_frame key v w) as [(_ & H & _) _]. Qed.

Lemma drive_returns v c w :
  returns v c -> is_Some (running w) -> fst (drive c w) = Return v.
Proof.
  intros H. revert w. induction H as [|k _ IH|key x k _ IH|key k _ IH|k _ IH];
    intros w Hr; cbn [drive]; try done.
  - by apply IH.
  - unfold bind, modify. apply IH. by rewrite store_local_running.
  - by apply IH.
  - destruct Hr as [l Hl]. rewrite Hl. apply IH. by eexists.
Qed.

Lemma drive_raises e c w :
  raises e c -> is_Some (running w) -> fst (drive c w) = Raise e.
Proof.
  intros H. revert w. induction H as [|k _ IH|key x k _ IH|key k _ IH|k _ IH];
    intros w Hr; cbn [drive]; try done.
  - by apply IH.
  - unfold bind, modify. apply IH. by rewrite store_local_running.
  - by apply IH.
  - destruct Hr as [l Hl]. rewrite Hl. apply IH. by eexists.
Qed.

Lemma yields_first_into v k b :
  yields_first v k b -> yields_into v (AgenSuspended k) b.
Proof.
  induction 1 as [|b _ IH|key x b _ IH|key f _ IH|f _ IH].
  - by apply yi_yield.
  - by apply yi_sleep.
  - by apply yi_store.
  - by apply yi_load.
  - by apply yi_loop.
Qed.

Lemma drive_to_yield_into v s b w :
  yields_into v s b -> is_Some (running w) ->
  fst (drive_to_yield b w) = Return (v, s).
Proof.
  intros H. revert w.
  induction H as [k ->|c k ->|b _ IH|key x b _ IH|key f _ IH|f _ IH];
    intros w Hr; cbn [drive_to_yield]; try done.
  - by apply IH.
  - unfold bind, modify. apply IH. by rewrite store_local_running.
  - by apply IH.
  - destruct Hr as [l Hl]. rewrite Hl. apply IH. by eexists.
Qed.

Lemma drive_to_yield_yields v k b w :
  yields_first v k b -> is_Some (running w) ->
  fst (drive_to_yield b w) = Return (v, AgenSuspended k).
Proof. intros H. by apply drive_to_yield_into, yields_first_into. Qed.

Lemma drive_to_yield_terminates b w :
  terminates b -> is_Some (running w) ->
  fst (drive_to_yield b w) = Raise StopAsyncIteration.
Proof.
  intros H. revert w. induction H as [|b _ IH|key x b _ IH|key f _ IH|f _ IH];
    intros w Hr; cbn [drive_to_yield]; try done.
  - by apply IH.
  - unfold bind, modify. apply IH. by rewrite store_local_running.
  - by apply IH.
  - destruct Hr as [l Hl]. rewrite Hl. apply IH. by eexists.
Qed.

Lemma drive_to_yield_fails e b w :
  fails_with e b -> is_Some (running w) ->
  fst (drive_to_yield b w) = Raise e.
Proof.
  intros H. revert w. induction H as [|b _ IH|key x b _ IH|key f _ IH|f _ IH];
    intros w Hr; cbn [drive_to_yield]; try done.
  - by apply IH.
  - unfold bind, modify. apply IH. by rewrite store_local_running.
  - by apply IH.
  - destruct Hr as [l Hl]. rewrite Hl. apply IH. by eexists.
Qed.

(** *** [asyncio.run] *)

Lemma asyncio_run_idle {A} (main : M world A) w :
  running w = None ->
  asyncio_run main w
  = (fst (main (enter_loop w)),
     close_loop (length (loops w)) (snd (main (enter_loop w)))).
Proof.
  intros H. unfold asyncio_run, enter_loop. rewrite H.
  by destruct (main _).
Qed.


Lemma enter_loop_fresh w : loops w !! length (loops w) = None.
Proof. by apply lookup_ge_None_2. Qed.


Lemma close_after_frame w w2 :
  loops_frame (enter_loop w) w2 ->
  ran_once w (close_loop (length (loops w)) w2).
Proof.
  intros (Hl & Hr & Ho). unfold enter_loop in *. cbn in *.
  rewrite length_app in Hl. cbn in Hl.
  unfold ran_once, close_loop. cbn. repeat split.
  - rewrite length_alter. lia.
  - destruct (lookup_lt_is_Some_2 (loops w2) (length (loops w))) as [lr Hlr];
      [lia|].
    eexists. split; [rewrite list_lookup_alter_eq, Hlr; reflexivity|done].
  - intros i Hi. rewrite list_lookup_alter_ne by lia.
    rewrite Ho by (intros [= ?]; lia). by rewrite lookup_app_l.
Qed.

Lemma run_bridged_ran_once b w :
  running w = None -> ran_once w (exec (run_bridged b) w).
Proof.
  intros H. unfold exec, run_bridged. rewrite asyncio_run_idle by done.
  cbn [snd]. apply close_after_frame.
  destruct b as [c|agen]; cbn [bridged_main].
  - apply drive_frame.
  - apply anext_frame.
Qed.

(** Resuming a suspended generator under [asyncio.run]. *)
Lemma run_anext_pending agen o b w :
  running w = None ->
  agens w !! agen = Some o ->
  pending o = Some b ->
  let out := asyncio_run (anext agen) w in
  ran_once w (snd out) /\
  (forall v s, yields_into v s b ->
     fst out = Return v /\
     agens (snd out) = <[agen := s]> (agens w)) /\
  (terminates b ->
     fst out = Raise StopAsyncIteration /\
     agens (snd out) = <[agen := AgenFinished]> (agens w)) /\
  (forall e, fails_with e b ->
     fst out = Raise e /\
     agens (snd out) = <[agen := AgenFinished]> (agens w)).
Proof.
  intros Hr Ha Hp out. split.
  { apply (run_bridged_ran_once (BridgeAnext agen) w Hr). }
  unfold out. rewrite asyncio_run_idle by done. cbn [fst snd].
  unfold anext. change (agens (enter_loop w)) with (agens w). rewrite Ha.
  cbn [mbind option_bind]. rewrite Hp.
  assert (Hrun : is_Some (running (enter_loop w))) by (by eexists).
  destruct (drive_to_yield_frame b (enter_loop w)) as [_ Hag].
  change (agens (enter_loop w)) with (agens w) in Hag.
  repeat split.
  - pose proof (drive_to_yield_into v s b (enter_loop w) H Hrun) as Hy.
    destruct (drive_to_yield b (enter_loop w)) as [[[v' k']|e] w2];
      cbn in Hy; by simplify_eq.
  - pose proof (drive_to_yield_into v s b (enter_loop w) H Hrun) as Hy.
    destruct (drive_to_yield b (enter_loop w)) as [[[v' k']|e] w2];
      cbn in *; simplify_eq. by rewrite Hag.
  - pose proof (drive_to_yield_terminates b (enter_loop w) H Hrun) as Hy.
    destruct (drive_to_yield b (enter_loop w)) as [[[v' k']|e] w2];
      cbn in Hy; by simplify_eq.
  - pose proof (drive_to_yield_terminates b (enter_loop w) H Hrun) as Hy.
    destruct (drive_to_yield b (enter_loop w)) as [[[v' k']|e] w2];
      cbn in *; simplify_eq. by rewrite Hag.
  - pose proof (drive_to_yield_fails e b (enter_loop w) H Hrun) as Hy.
    destruct (drive_to_yield b (enter_loop w)) as [[[v' k']|e'] w2];
      cbn in Hy; by simplify_eq.
  - pose proof (drive_to_yield_fails e b (enter_loop w) H Hrun) as Hy.
    destruct (drive_to_yield b (enter_loop w)) as [[[v' k']|e'] w2];
      cbn in *; simplify_eq. by rewrite Hag.
Qed.

Lemma run_anext_suspended agen b w :
  running w = None ->
  agens w !! agen = Some (AgenSuspended b) ->
  let out := asyncio_run (anext agen) w in
  ran_once w (snd out) /\
  (forall v k, yields_first v k b ->
     fst out = Return v /\
     agens (snd out) = <[agen := AgenSuspended k]> (agens w)) /\
  (terminates b ->
     fst out = Raise StopAsyncIteration /\
     agens (snd out) = <[agen := AgenFinished]> (agens w)) /\
  (forall e, fails_with e b ->
     fst out = Raise e /\
     agens (snd out) = <[agen := AgenFinished]> (agens w)).
Proof.
  intros Hr Ha out.
  destruct (run_anext_pending agen _ b w Hr Ha eq_refl) as (H1 & H2 & H3 & H4).
  split; [exact H1|]. split; [|by split].
  intros v k Hy. by apply H2, yields_first_into.
Qed.





End AsyncioFacts.

(** ** The bridge *)

Module BridgeFacts.
Import Conftest AsyncioFacts.

(** C3: the synchronous wrapper of a coroutine fixture, called while no
    loop runs, creates a loop that did not exist, drives the coroutine on
    it to its end and closes it; it returns what the coroutine returns
    and raises what the coroutine raises, and the loop is closed in both
    cases when the caller gets the result. *)
Theorem sync_wrapper_bridge (func : call_args -> coro) (args : call_args)
  (w : world) :
  running w = None ->
  let l := length (loops w) in
  let out := _sync_wrapper func args w in
  loops w !! l = None /\
  running (enter_loop w) = Some l /\
  fst out = fst (drive (func args) (enter_loop w)) /\
  (forall v, returns v (func args) -> fst out = Return v) /\
  (forall e, raises e (func args) -> fst out = Raise e) /\
  ran_once w (snd out).
Proof.
  intros Hr l out. unfold out, _sync_wrapper.
  rewrite asyncio_run_idle by done. cbn [fst snd].
  assert (Hrun : is_Some (running (enter_loop w))) by (by eexists).
  split; [apply enter_loop_fresh|]. split; [done|]. split; [done|].
  split; [intros v Hv; by apply drive_returns|].
  split; [intros e He; by apply drive_raises|].
  apply (close_after_frame w), drive_frame.
Qed.

Lemma sync_wrapper_bridge_witness :
  let boom := fun _ : call_args => CSleep (CRaise ZeroDivisionError) in
  let args := {| pos := []; kw := ∅ |} in
  running empty_world = None /\
  fst (_sync_wrapper boom args empty_world) = Raise ZeroDivisionError /\
  ran_once empty_world (snd (_sync_wrapper boom args empty_world)).
Proof.
  intros boom args. split; [reflexivity|].
  destruct (sync_wrapper_bridge boom args empty_world eq_refl)
    as (_ & _ & _ & _ & He & Hc).
  split; [|exact Hc].
  apply He. apply raises_sleep, raises_raise.
Defined.








End BridgeFacts.

(** ** The call hook *)

Module CallHookFacts.
Import Conftest AsyncioFacts.

(** The dictionary comprehension gathers exactly the named values, when
    every name is resolved. *)
Lemma dict_comprehension_filter (fa : gmap string value) (names : list string) :
  (forall name, name ∈ names -> is_Some (fa !! name)) ->
  dict_comprehension fa names = Return (filter (fun kv => kv.1 ∈ names) fa).
Proof.
  induction names as [|name rest IH]; intros Hres; cbn [dict_comprehension].
  - f_equal. apply map_eq. intros i. rewrite lookup_empty. symmetry.
    apply map_lookup_filter_None. right. intros x _ Hin. cbn in Hin.
    by apply elem_of_nil in Hin.
  - destruct (Hres name) as [v Hv]; [by left|]. rewrite Hv.
    rewrite IH by (intros n Hn; apply Hres; by right).
    f_equal. apply map_eq. intros i. apply option_eq. intros x.
    rewrite lookup_insert_Some, !map_lookup_filter_Some. cbn.
    rewrite elem_of_cons. split.
    + intros [[<- <-]|[Hne [Hx Hin]]]; [split; [done|by left]|].
      split; [done|by right].
    + intros [Hx [->|Hin]].
      * left. split; [done|congruence].
      * destruct (decide (name = i)) as [<-|Hne]; [left; split; congruence|].
        right. done.
Qed.

(** A missing fixture value stops the hook before anything runs. *)
Lemma dict_comprehension_missing (fa : gmap string value) (names : list string) :
  (exists name, name ∈ names /\ fa !! name = None) ->
  exists name, dict_comprehension fa names = Raise (KeyError name).
Proof.
  induction names as [|n rest IH]; intros (name & Hin & Hnone).
  - by apply elem_of_nil in Hin.
  - cbn [dict_comprehension]. destruct (fa !! n) as [v|] eqn:E; [|by eexists].
    apply elem_of_cons in Hin as [->|Hin]; [congruence|].
    destruct IH as [name' ->]; [by exists name|]. by eexists.
Qed.

(** C5 (amended): the hook handles coroutine functions and nothing
    else. For a function that is not a coroutine function it returns
    [None] and runs nothing. For a coroutine function whose argument
    names are all resolved it calls the function with exactly the named
    fixture values, runs the coroutine under [asyncio.run], and then
    returns [True] if the coroutine returned, and raises the coroutine's
    exception if it raised. It never returns [True] for another kind of
    callable. The hooks of [conftest.py] and [sitecustomize.py] are the
    same function. *)
Theorem pyfunc_call_routing (item : pyfuncitem) (w : world) :
  (iscoroutinefunction (obj item) = false ->
   pytest_pyfunc_call item w = (Return None, w)) /\
  (forall test_obj,
     obj item = CoroFn test_obj ->
     (forall name, name ∈ argnames item -> is_Some (funcargs item !! name)) ->
     pytest_pyfunc_call item w
     = match _sync_wrapper test_obj {| pos := []; kw := named_funcargs item |} w with
       | (Return _, w') => (Return (Some true), w')
       | (Raise e, w') => (Raise e, w')
       end) /\
  (forall w', pytest_pyfunc_call item w = (Return (Some true), w') ->
              iscoroutinefunction (obj item) = true) /\
  Sitecustomize.pytest_pyfunc_call item w = pytest_pyfunc_call item w.
Proof.
  split; [|split; [|split]].
  - unfold pytest_pyfunc_call. by destruct (obj item).
  - intros test_obj Ho Hres. unfold pytest_pyfunc_call. rewrite Ho.
    rewrite (dict_comprehension_filter _ _ Hres).
    unfold bind at 1. cbn [lift]. unfold bind, _sync_wrapper, named_funcargs.
    by destruct (asyncio_run _ w) as [[v|e] w'].
  - intros w'. unfold pytest_pyfunc_call. by destruct (obj item).
  - reflexivity.
Qed.

Lemma pyfunc_call_routing_witness :
  iscoroutinefunction (obj failing_test) = true /\
  pytest_pyfunc_call failing_test empty_world
  = match _sync_wrapper (fun _ => CRaise ZeroDivisionError)
            {| pos := []; kw := named_funcargs failing_test |} empty_world with
    | (Return _, w') => (Return (Some true), w')
    | (Raise e, w') => (Raise e, w')
    end.
Proof.
  split; [reflexivity|].
  apply (proj1 (proj2 (pyfunc_call_routing failing_test empty_world))
           (fun _ => CRaise ZeroDivisionError) eq_refl).
  intros name H. by apply elem_of_nil in H.
Defined.

(** C5 (counterexample): the target of [failing_test] is a coroutine
    function, and the hook does not return [True] for it: it raises
    [ZeroDivisionError], after the loop was closed. *)
Lemma pyfunc_call_raising_test :
  iscoroutinefunction (obj failing_test) = true /\
  fst (pytest_pyfunc_call failing_test empty_world) = Raise ZeroDivisionError /\
  fst (pytest_pyfunc_call failing_test empty_world) <> Return (Some true) /\
  map closed (loops (snd (pytest_pyfunc_call failing_test empty_world))) = [true].
Proof. vm_compute. repeat split; discriminate. Qed.

End CallHookFacts.

(** ** Isolation of bridged calls *)

Module IsolationFacts.
Import Conftest AsyncioFacts.







(** The same two calls, run: the fixture stores the token on its loop,
    the test reads nothing and returns [None]; the token is still in the
    closed loop of the fixture. *)
Example second_call_reads_nothing :
  let fixture := fun _ : call_args =>
                   CStore "token" (VStr "secret") (CReturn VNone) in
  let test := fun _ : call_args =>
                CLoad "token" (fun got => match got with
                                          | Some v => CReturn v
                                          | None => CReturn (VStr "nothing")
                                          end) in
  let args := {| pos := []; kw := ∅ |} in
  let w1 := exec (_sync_wrapper fixture args) empty_world in
  (exists lr, loops w1 !! 0 = Some lr /\
              locals lr !! "token" = Some (VStr "secret") /\
              closed lr = true) /\
  result (_sync_wrapper test args) w1 = Return (VStr "nothing").
Proof.
  cbn zeta. split.
  - eexists. split; [vm_compute; reflexivity|]. split; vm_compute; reflexivity.
  - vm_compute; reflexivity.
Qed.

End IsolationFacts.

(** ** Exact stepping *)

Module ExactFacts.
Import Wp.

Lemma get_nth_lookup (news : list module_obj) i : get_nth i news = news !! i.
Proof. revert i. induction news as [|x r IH]; intros [|j]; cbn; auto. Qed.

Lemma set_nth_insert (news : list module_obj) i f m :
  get_nth i news = Some m -> set_nth i f news = <[i := f m]> news.
Proof.
  revert i. induction news as [|x r IH]; intros [|j] H; cbn in *; try done.
  - by simplify_eq.
  - f_equal. by apply IH.
Qed.

Lemma lookup_new (h news : list module_obj) i :
  ((h ++ news)%list) !! (length h + i) = get_nth i news.
Proof. by rewrite lookup_app_r, Nat.add_comm, Nat.add_sub, get_nth_lookup by lia. Qed.

Lemma lookup_old (h news : list module_obj) l :
  l < length h -> ((h ++ news)%list) !! l = h !! l.
Proof. intros. by apply lookup_app_l. Qed.

Lemma lookup_attr_new h news sm g mp ma pl tr i attr :
  lookup_attr (mk h news sm g mp ma pl tr) (VModule (length h + i)) attr
  = new_attr news i attr.
Proof. unfold lookup_attr, mk, new_attr. cbn [heap]. by rewrite lookup_new. Qed.

Lemma lookup_attr_old h news sm g mp ma pl tr st l attr :
  heap st = h -> l < length h ->
  lookup_attr (mk h news sm g mp ma pl tr) (VModule l) attr
  = lookup_attr st (VModule l) attr.
Proof.
  intros <- Hl. unfold lookup_attr, mk. cbn [heap]. by rewrite lookup_old.
Qed.

Lemma wpx_enter {A} (m : M interp A) Q st :
  wp m Q (mk (heap st) [] (sys_modules st) (globals st) (meta_path st)
            (mark_asyncio st) (plugins st) (trace st)) ->
  wp m Q st.
Proof. unfold mk. rewrite app_nil_r. by destruct st. Qed.

Lemma wpx_ModuleType name (Q : value -> interp -> Prop) h news sm g mp ma pl tr :
  Q (VModule (length h + length news))
    (mk h ((news ++ [fresh_module name])%list) sm g mp ma pl tr) ->
  wp (ModuleType name) Q (mk h news sm g mp ma pl tr).
Proof.
  unfold wp, ModuleType, mk, set_heap. cbn.
  by rewrite length_app, <- app_assoc.
Qed.

Lemma wpx_setattr i attr v m (Q : unit -> interp -> Prop)
  h news sm g mp ma pl tr :
  get_nth i news = Some m ->
  Q tt (mk h (set_nth i (with_attr attr v) news) sm g mp ma pl tr) ->
  wp (setattr (VModule (length h + i)) attr v) Q (mk h news sm g mp ma pl tr).
Proof.
  intros Hm HQ. unfold wp, setattr, mk. cbn [heap].
  rewrite lookup_new, Hm. unfold set_heap. cbn.
  rewrite insert_app_r. rewrite (set_nth_insert _ _ _ _ Hm) in HQ. exact HQ.
Qed.

Lemma wpx_sys_modules_setitem name v (Q : unit -> interp -> Prop)
  h news sm g mp ma pl tr :
  Q tt (mk h news (<[name := v]> sm) g mp ma pl tr) ->
  wp (sys_modules_setitem name v) Q (mk h news sm g mp ma pl tr).
Proof. done. Qed.

Lemma wpx_sys_modules_update kvs (Q : unit -> interp -> Prop)
  h news sm g mp ma pl tr :
  Q tt (mk h news (foldl (fun m kv => <[kv.1 := kv.2]> m) sm kvs) g mp ma pl tr) ->
  wp (sys_modules_update kvs) Q (mk h news sm g mp ma pl tr).
Proof. done. Qed.

Lemma wpx_store_name x v (Q : unit -> interp -> Prop) h news sm g mp ma pl tr :
  Q tt (mk h news sm (<[x := v]> g) mp ma pl tr) ->
  wp (store_name x v) Q (mk h news sm g mp ma pl tr).
Proof. done. Qed.

Lemma wpx_sys_modules_get name (Q : option value -> interp -> Prop)
  h news sm g mp ma pl tr :
  Q (sm !! name) (mk h news sm g mp ma pl tr) ->
  wp (sys_modules_get name) Q (mk h news sm g mp ma pl tr).
Proof. done. Qed.

Lemma wpx_sys_modules_contains name (Q : bool -> interp -> Prop)
  h news sm g mp ma pl tr :
  Q (bool_decide (is_Some (sm !! name))) (mk h news sm g mp ma pl tr) ->
  wp (sys_modules_contains name) Q (mk h news sm g mp ma pl tr).
Proof. done. Qed.

Lemma wpx_hasattr i attr (Q : bool -> interp -> Prop) h news sm g mp ma pl tr :
  Q (bool_decide (is_Some (new_attr news i attr))) (mk h news sm g mp ma pl tr) ->
  wp (hasattr (VModule (length h + i)) attr) Q (mk h news sm g mp ma pl tr).
Proof.
  intros HQ. unfold wp, hasattr. by rewrite lookup_attr_new.
Qed.

Lemma set_nth_id i (news : list module_obj) : set_nth i (fun m => m) news = news.
Proof.
  revert i. induction news as [|x r IH]; intros [|j]; cbn; try done.
  by rewrite IH.
Qed.

Lemma set_nth_compose i f g (news : list module_obj) :
  set_nth i g (set_nth i f news) = set_nth i (fun m => g (f m)) news.
Proof.
  revert i. induction news as [|x r IH]; intros [|j]; cbn; try done.
  by rewrite IH.
Qed.

Lemma get_nth_set_nth i f (news : list module_obj) m :
  get_nth i news = Some m -> get_nth i (set_nth i f news) = Some (f m).
Proof.
  revert i. induction news as [|x r IH]; intros [|j] H; cbn in *; try done.
  - by simplify_eq.
  - by apply IH.
Qed.

Lemma wpx_dict_update i kvs (Q : unit -> interp -> Prop)
  h news sm g mp ma pl tr m :
  get_nth i news = Some m ->
  Q tt (mk h (set_nth i (fun m => foldl (fun m kv => with_attr kv.1 kv.2 m) m kvs)
                news) sm g mp ma pl tr) ->
  wp (DoclingCoreStub.dict_update (VModule (length h + i)) kvs) Q
     (mk h news sm g mp ma pl tr).
Proof.
  revert news m Q. induction kvs as [|[k v] kvs IH]; intros news m Q Hm HQ.
  - cbn [foldl] in HQ. rewrite set_nth_id in HQ. exact HQ.
  - cbn [DoclingCoreStub.dict_update]. apply wp_bind.
    eapply wpx_setattr; [exact Hm|].
    eapply (IH _ (with_attr k v m)).
    + by apply get_nth_set_nth.
    + rewrite set_nth_compose. exact HQ.
Qed.

Lemma with_attr_eq k v m : mod_dict (with_attr k v m) !! k = Some v.
Proof. apply lookup_insert_eq. Qed.

Lemma with_attr_ne k v m a :
  k <> a -> mod_dict (with_attr k v m) !! a = mod_dict m !! a.
Proof. intros H. unfold with_attr. cbn [mod_dict]. by rewrite lookup_insert_ne. Qed.

Lemma fresh_module_lookup name a : mod_dict (fresh_module name) !! a = None.
Proof. apply lookup_empty. Qed.

Lemma foldl_with_attr_lookup (kvs : list (string * value)) m a :
  a ∉ kvs.*1 ->
  mod_dict (foldl (fun m kv => with_attr kv.1 kv.2 m) m kvs) !! a
  = mod_dict m !! a.
Proof.
  revert m. induction kvs as [|[k v] kvs IH]; intros m Hn; [done|].
  cbn in Hn. apply not_elem_of_cons in Hn as [Hne Hn].
  cbn [foldl]. rewrite IH by done. cbn [fst snd]. by apply with_attr_ne.
Qed.

End ExactFacts.
Import ExactFacts.

(** One exact step of a straight-line installer. *)
Ltac wpx_step :=
  lazymatch goal with
  | |- wp (bind _ _) _ _ => apply wp_bind
  | |- wp (ret _) _ _ => apply wp_ret
  | |- wp (ModuleType _) _ _ => apply wpx_ModuleType; cbn [app length]
  | |- wp (setattr (VModule _) _ _) _ _ =>
      eapply wpx_setattr; [reflexivity | cbn [set_nth]]
  | |- wp (DoclingCoreStub.dict_update (VModule _) _) _ _ =>
      eapply wpx_dict_update; [reflexivity | cbn [set_nth]]
  | |- wp (store_name _ _) _ _ => apply wpx_store_name
  | |- wp (sys_modules_setitem _ _) _ _ => apply wpx_sys_modules_setitem
  | |- wp (sys_modules_update _) _ _ =>
      apply wpx_sys_modules_update; cbn [foldl fst snd]
  | |- wp (sys_modules_get _) _ _ => apply wpx_sys_modules_get
  | |- wp (sys_modules_contains _) _ _ => apply wpx_sys_modules_contains
  | |- wp (hasattr (VModule _) _) _ _ => apply wpx_hasattr
  end.

(** Reading the registry and the attributes of the new modules. *)
Ltac map_lookup :=
  repeat first [ rewrite lookup_insert_eq
               | rewrite lookup_insert_ne by done
               | rewrite lookup_empty ].

Ltac reg_lookup :=
  unfold direct_lookup, mk; cbn [sys_modules]; map_lookup.

Ltac dict_lookup :=
  repeat first
    [ rewrite with_attr_eq
    | rewrite with_attr_ne by done
    | rewrite fresh_module_lookup
    | rewrite foldl_with_attr_lookup
        by (apply bool_decide_eq_true_1; vm_compute; reflexivity) ].

Ltac attr_lookup :=
  rewrite lookup_attr_new; unfold new_attr; cbn [get_nth mbind option_bind];
  dict_lookup.

Ltac linked :=
  let p := fresh "p" in
  let c := fresh "c" in
  let H := fresh "H" in
  intros p c H; vm_compute in H; injection H as <- <-;
  eexists; split; [reg_lookup; reflexivity | attr_lookup; reg_lookup; reflexivity].

(** A registered child that is not an attribute of its parent. *)
Ltac unlinked_at p c :=
  exists p, c; do 2 eexists; split; [vm_compute; reflexivity|];
  split; [reg_lookup; reflexivity|];
  split; [reg_lookup; reflexivity|];
  attr_lookup; reflexivity.

(** ** Extra: the installers of [sitecustomize.py] *)

Module InstallerExtras.
Import Sitecustomize Wp.

(** X1: [_install_websockets_stub] guards on the top-level name only.
    Whenever [websockets] is not registered, the installer returns, and
    the three names [websockets], [websockets.sync] and
    [websockets.sync.client] are bound to three new module objects,
    whatever was registered under the two dotted names before; each
    child is the attribute of its parent, the client module has
    [connect], every other registry entry and every older module object
    is left as it was. *)
Theorem websockets_stub_hierarchy st :
  ~ is_Some (sys_modules st !! "websockets") ->
  let st' := exec _install_websockets_stub st in
  let n := length (heap st) in
  _install_websockets_stub st = (Return tt, st') /\
  direct_lookup st' "websockets.sync.client" = Some (VModule (n + 0)) /\
  direct_lookup st' "websockets.sync" = Some (VModule (n + 1)) /\
  direct_lookup st' "websockets" = Some (VModule (n + 2)) /\
  linked_to_parent st' "websockets.sync" /\
  linked_to_parent st' "websockets.sync.client" /\
  lookup_attr st' (VModule (n + 0)) "connect" = Some (VObj "_connect") /\
  (forall name, name ∉ ["websockets"; "websockets.sync"; "websockets.sync.client"] ->
                direct_lookup st' name = direct_lookup st name) /\
  (forall l attr, l < n ->
                  lookup_attr st' (VModule l) attr = lookup_attr st (VModule l) attr).
Proof.
  intros Habs st' n.
  assert (W : wp _install_websockets_stub
            (fun _ s =>
               direct_lookup s "websockets.sync.client" = Some (VModule (n + 0)) /\
               direct_lookup s "websockets.sync" = Some (VModule (n + 1)) /\
               direct_lookup s "websockets" = Some (VModule (n + 2)) /\
               linked_to_parent s "websockets.sync" /\
               linked_to_parent s "websockets.sync.client" /\
               lookup_attr s (VModule (n + 0)) "connect" = Some (VObj "_connect") /\
               (forall name,
                  name ∉ ["websockets"; "websockets.sync"; "websockets.sync.client"] ->
                  direct_lookup s name = direct_lookup st name) /\
               (forall l attr, l < n ->
                  lookup_attr s (VModule l) attr = lookup_attr st (VModule l) attr))
            st).
  { apply wpx_enter. unfold _install_websockets_stub.
    wpx_step. wpx_step. rewrite bool_decide_eq_false_2 by done.
    repeat wpx_step. subst n.
    split; [by reg_lookup|]. split; [by reg_lookup|]. split; [by reg_lookup|].
    split; [linked|]. split; [linked|].
    split; [by attr_lookup|].
    split.
    - intros name Hn. rewrite !not_elem_of_cons in Hn.
      destruct Hn as (H1 & H2 & H3 & _). unfold direct_lookup, mk.
      cbn [sys_modules]. by rewrite !lookup_insert_ne.
    - intros l attr Hl. by apply lookup_attr_old. }
  apply wp_exec in W as ([] & Hrun & W). split; [exact Hrun|exact W].
Qed.

Lemma websockets_stub_hierarchy_witness :
  let st := exec (sys_modules_setitem "websockets.sync" (VObj "real"))
              empty_interp in
  ~ is_Some (sys_modules st !! "websockets") /\
  direct_lookup st "websockets.sync" = Some (VObj "real") /\
  direct_lookup (exec _install_websockets_stub st) "websockets.sync"
  = Some (VModule (length (heap st) + 1)).
Proof.
  intros st.
  assert (H : ~ is_Some (sys_modules st !! "websockets")).
  { vm_compute. intros [x Hx]. discriminate. }
  split; [exact H|]. split; [vm_compute; reflexivity|].
  apply (websockets_stub_hierarchy st H).
Defined.

(** The two installers that register one name. *)
Lemma install_single_present (name attr : string) (v : value) st :
  is_Some (sys_modules st !! name) ->
  (present <- sys_modules_contains name;;
   if present then ret tt
   else _mod <- ModuleType name;;
        setattr _mod attr v;;;
        sys_modules_setitem name _mod) st = (Return tt, st).
Proof.
  intros H. unfold bind, sys_modules_contains. by rewrite bool_decide_eq_true_2.
Qed.

Lemma install_single_absent (name attr : string) (v : value) st :
  sys_modules st !! name = None ->
  wp (present <- sys_modules_contains name;;
      if present then ret tt
      else _mod <- ModuleType name;;
           setattr _mod attr v;;;
           sys_modules_setitem name _mod)
     (fun _ s =>
        direct_lookup s name = Some (VModule (length (heap st) + 0)) /\
        lookup_attr s (VModule (length (heap st) + 0)) attr = Some v /\
        (forall other, other <> name ->
                       direct_lookup s other = direct_lookup st other) /\
        (forall l a, l < length (heap st) ->
                     lookup_attr s (VModule l) a = lookup_attr st (VModule l) a))
     st.
Proof.
  intros H. apply wpx_enter. wpx_step. wpx_step.
  rewrite bool_decide_eq_false_2 by (rewrite H; by intros [? ?]).
  repeat wpx_step.
  split; [by reg_lookup|]. split; [by attr_lookup|]. split.
  - intros other Hne. unfold direct_lookup, mk. cbn [sys_modules].
    by rewrite lookup_insert_ne.
  - intros l a Hl. by apply lookup_attr_old.
Qed.

(** X2: [_install_pytest_check_stub] and [_install_asgi_lifespan_stub]
    never replace a registry entry. Each returns from every state; every
    name registered before keeps its module; afterwards its own name is
    registered, and when it was not before it is bound to a new module
    carrying the stub attribute ([check], [LifespanManager]); a second
    call changes nothing. *)
Theorem single_name_installers_keep_entries st :
  installer_keeps_entries _install_pytest_check_stub "pytest_check" "check" st /\
  installer_keeps_entries _install_asgi_lifespan_stub "asgi_lifespan"
    "LifespanManager" st.
Proof.
  unfold installer_keeps_entries. split.
  - destruct (sys_modules st !! "pytest_check") as [v0|] eqn:E.
    + assert (Hp : is_Some (sys_modules st !! "pytest_check")) by (by eexists).
      pose proof (install_single_present "pytest_check" "check"
                    (VObj "_CheckProxy()") st Hp) as Hrun.
      change (_install_pytest_check_stub st = (Return tt, st)) in Hrun.
      unfold exec. rewrite Hrun. cbn [snd].
      split; [done|]. split; [done|]. split; [|done].
      unfold direct_lookup. by rewrite E.
    + pose proof (install_single_absent "pytest_check" "check"
                    (VObj "_CheckProxy()") st E) as W.
      apply wp_exec in W as ([] & Hrun & Hreg & Hattr & Hother & _).
      change (_install_pytest_check_stub st
              = (Return tt, exec _install_pytest_check_stub st)) in Hrun.
      change (exec _ st) with (exec _install_pytest_check_stub st)
        in Hreg, Hattr, Hother.
      rewrite Nat.add_0_r in Hreg, Hattr.
      split; [done|]. split; [|split].
      * intros other v Hv. rewrite Hother; [done|]. intros ->.
        unfold direct_lookup in Hv. congruence.
      * intros _. split; [done|]. by rewrite Hattr.
      * apply (install_single_present "pytest_check" "check").
        unfold direct_lookup in Hreg. by rewrite Hreg.
  - destruct (sys_modules st !! "asgi_lifespan") as [v0|] eqn:E.
    + assert (Hp : is_Some (sys_modules st !! "asgi_lifespan")) by (by eexists).
      pose proof (install_single_present "asgi_lifespan" "LifespanManager"
                    (VObj "LifespanManager") st Hp) as Hrun.
      change (_install_asgi_lifespan_stub st = (Return tt, st)) in Hrun.
      unfold exec. rewrite Hrun. cbn [snd].
      split; [done|]. split; [done|]. split; [|done].
      unfold direct_lookup. by rewrite E.
    + pose proof (install_single_absent "asgi_lifespan" "LifespanManager"
                    (VObj "LifespanManager") st E) as W.
      apply wp_exec in W as ([] & Hrun & Hreg & Hattr & Hother & _).
      change (_install_asgi_lifespan_stub st
              = (Return tt, exec _install_asgi_lifespan_stub st)) in Hrun.
      change (exec _ st) with (exec _install_asgi_lifespan_stub st)
        in Hreg, Hattr, Hother.
      rewrite Nat.add_0_r in Hreg, Hattr.
      split; [done|]. split; [|split].
      * intros other v Hv. rewrite Hother; [done|]. intros ->.
        unfold direct_lookup in Hv. congruence.
      * intros _. split; [done|]. by rewrite Hattr.
      * apply (install_single_present "asgi_lifespan" "LifespanManager").
        unfold direct_lookup in Hreg. by rewrite Hreg.
Qed.

End InstallerExtras.

(** ** Extra: [_register] of [docling_core_stub.py] *)

Module RegisterExtras.
Import DoclingCoreStub Wp.

(** X3: [_register(path)] always creates and always replaces. From every
    state it returns a module object that did not exist before, without
    attributes, and binds [path] to it; the other registry entries and
    the older module objects are untouched. It is not idempotent:
    registering the same path again binds it to another new module, and
    an attribute set on the first module is no longer found through the
    registry, though the first module still has it. *)
Theorem register_replaces path st :
  let n := length (heap st) in
  let st' := exec (_register path) st in
  _register path st = (Return (VModule n), st') /\
  heap st !! n = None /\
  direct_lookup st' path = Some (VModule n) /\
  (forall attr, lookup_attr st' (VModule n) attr = None) /\
  (forall name, name <> path -> direct_lookup st' name = direct_lookup st name) /\
  (forall l attr, l < n ->
                  lookup_attr st' (VModule l) attr = lookup_attr st (VModule l) attr) /\
  (forall attr v,
     let st2 := exec (m <- _register path;; setattr m attr v;;; _register path) st in
     direct_lookup st2 path = Some (VModule (n + 1)) /\
     lookup_attr st2 (VModule (n + 1)) attr = None /\
     lookup_attr st2 (VModule n) attr = Some v).
Proof.
  intros n st'.
  assert (W : wp (_register path)
            (fun r s =>
               r = VModule (n + 0) /\
               direct_lookup s path = Some (VModule (n + 0)) /\
               (forall attr, lookup_attr s (VModule (n + 0)) attr = None) /\
               (forall name, name <> path ->
                             direct_lookup s name = direct_lookup st name) /\
               (forall l attr, l < n ->
                  lookup_attr s (VModule l) attr = lookup_attr st (VModule l) attr))
            st).
  { apply wpx_enter. unfold _register. repeat wpx_step. subst n.
    split; [done|]. split; [by reg_lookup|]. split; [intros attr; by attr_lookup|].
    split.
    - intros name Hne. unfold direct_lookup, mk. cbn [sys_modules].
      by rewrite lookup_insert_ne.
    - intros l attr Hl. by apply lookup_attr_old. }
  apply wp_exec in W as (r & Hrun & -> & Hreg & Hattr & Hother & Hold).
  fold st' in Hrun, Hreg, Hattr, Hother, Hold.
  rewrite Nat.add_0_r in *.
  split; [exact Hrun|]. split; [by apply lookup_ge_None_2|].
  split; [exact Hreg|]. split; [exact Hattr|]. split; [exact Hother|].
  split; [exact Hold|].
  intros attr v st2.
  assert (W2 : wp (m <- _register path;; setattr m attr v;;; _register path)
             (fun _ s =>
                direct_lookup s path = Some (VModule (n + 1)) /\
                lookup_attr s (VModule (n + 1)) attr = None /\
                lookup_attr s (VModule (n + 0)) attr = Some v) st).
  { apply wpx_enter. unfold _register. repeat wpx_step. subst n.
    split; [by reg_lookup|]. split; by attr_lookup. }
  apply wp_exec in W2 as (r & _ & H1 & H2 & H3). fold st2 in H1, H2, H3.
  rewrite Nat.add_0_r in H3. done.
Qed.

End RegisterExtras.

(** ** Extra: the module tree of [docling_core_stub.py] *)

Module DoclingCoreExtras.
Import DoclingCoreStub Wp.

(** X4: the module tree the body of [docling_core_stub.py] leaves, from
    every state. The body returns and binds each of its thirteen names
    to a module object of its own, created by the body in the order of
    the [_register] calls, replacing whatever was registered. Seven of
    the modules are the attribute of their registered parent; five are
    registered, and so is their parent, but the parent has no attribute
    of their name ([docling_core.utils], [docling_core.types],
    [docling_core.types.legacy_doc], [docling_core.types.doc.document],
    [docling_core.types.doc.labels]). The [page] module is registered
    once and reused, so it carries the attributes of both places that
    fill it. *)
Theorem docling_core_module_tree st :
  let st' := exec main st in
  let n := length (heap st) in
  main st = (Return tt, st') /\
  (direct_lookup st' "docling_core" = Some (VModule (n + 0)) /\
   direct_lookup st' "docling_core.utils" = Some (VModule (n + 1)) /\
   direct_lookup st' "docling_core.utils.file" = Some (VModule (n + 2)) /\
   direct_lookup st' "docling_core.utils.legacy" = Some (VModule (n + 3)) /\
   direct_lookup st' "docling_core.types.legacy_doc" = Some (VModule (n + 4)) /\
   direct_lookup st' "docling_core.types.legacy_doc.base" = Some (VModule (n + 5)) /\
   direct_lookup st' "docling_core.types.legacy_doc.document" = Some (VModule (n + 6)) /\
   direct_lookup st' "docling_core.types" = Some (VModule (n + 7)) /\
   direct_lookup st' "docling_core.types.doc" = Some (VModule (n + 8)) /\
   direct_lookup st' "docling_core.types.doc.page" = Some (VModule (n + 9)) /\
   direct_lookup st' "docling_core.types.doc.document" = Some (VModule (n + 10)) /\
   direct_lookup st' "docling_core.types.doc.labels" = Some (VModule (n + 11)) /\
   direct_lookup st' "docling_core.types.io" = Some (VModule (n + 12))) /\
  (linked_to_parent st' "docling_core.utils.file" /\
   linked_to_parent st' "docling_core.utils.legacy" /\
   linked_to_parent st' "docling_core.types.legacy_doc.base" /\
   linked_to_parent st' "docling_core.types.legacy_doc.document" /\
   linked_to_parent st' "docling_core.types.doc" /\
   linked_to_parent st' "docling_core.types.doc.page" /\
   linked_to_parent st' "docling_core.types.io") /\
  (unlinked st' "docling_core.utils" /\
   unlinked st' "docling_core.types" /\
   unlinked st' "docling_core.types.legacy_doc" /\
   unlinked st' "docling_core.types.doc.document" /\
   unlinked st' "docling_core.types.doc.labels") /\
  (lookup_attr st' (VModule (n + 9)) "PdfPageBoundaryType"
     = Some (VObj "PdfPageBoundaryType") /\
   lookup_attr st' (VModule (n + 9)) "PdfPageGeometry"
     = Some (VObj "PdfPageGeometry") /\
   lookup_attr st' (VModule (n + 9)) "SegmentedPdfPage"
     = Some (VObj "SegmentedPdfPage") /\
   lookup_attr st' (VModule (n + 9)) "BoundingRectangle"
     = Some (VObj "BoundingRectangle") /\
   lookup_attr st' (VModule (n + 9)) "TextCell" = Some (VObj "TextCell")) /\
  length (heap st') = n + 13.
Proof.
  intros st' n.
  assert (W : wp main (fun _ s =>
    (direct_lookup s "docling_core" = Some (VModule (n + 0)) /\
     direct_lookup s "docling_core.utils" = Some (VModule (n + 1)) /\
     direct_lookup s "docling_core.utils.file" = Some (VModule (n + 2)) /\
     direct_lookup s "docling_core.utils.legacy" = Some (VModule (n + 3)) /\
     direct_lookup s "docling_core.types.legacy_doc" = Some (VModule (n + 4)) /\
     direct_lookup s "docling_core.types.legacy_doc.base" = Some (VModule (n + 5)) /\
     direct_lookup s "docling_core.types.legacy_doc.document" = Some (VModule (n + 6)) /\
     direct_lookup s "docling_core.types" = Some (VModule (n + 7)) /\
     direct_lookup s "docling_core.types.doc" = Some (VModule (n + 8)) /\
     direct_lookup s "docling_core.types.doc.page" = Some (VModule (n + 9)) /\
     direct_lookup s "docling_core.types.doc.document" = Some (VModule (n + 10)) /\
     direct_lookup s "docling_core.types.doc.labels" = Some (VModule (n + 11)) /\
     direct_lookup s "docling_core.types.io" = Some (VModule (n + 12))) /\
    (linked_to_parent s "docling_core.utils.file" /\
     linked_to_parent s "docling_core.utils.legacy" /\
     linked_to_parent s "docling_core.types.legacy_doc.base" /\
     linked_to_parent s "docling_core.types.legacy_doc.document" /\
     linked_to_parent s "docling_core.types.doc" /\
     linked_to_parent s "docling_core.types.doc.page" /\
     linked_to_parent s "docling_core.types.io") /\
    (unlinked s "docling_core.utils" /\
     unlinked s "docling_core.types" /\
     unlinked s "docling_core.types.legacy_doc" /\
     unlinked s "docling_core.types.doc.document" /\
     unlinked s "docling_core.types.doc.labels") /\
    (lookup_attr s (VModule (n + 9)) "PdfPageBoundaryType"
       = Some (VObj "PdfPageBoundaryType") /\
     lookup_attr s (VModule (n + 9)) "PdfPageGeometry"
       = Some (VObj "PdfPageGeometry") /\
     lookup_attr s (VModule (n + 9)) "SegmentedPdfPage"
       = Some (VObj "SegmentedPdfPage") /\
     lookup_attr s (VModule (n + 9)) "BoundingRectangle"
       = Some (VObj "BoundingRectangle") /\
     lookup_attr s (VModule (n + 9)) "TextCell" = Some (VObj "TextCell")) /\
    length (heap s) = n + 13) st).
  { apply wpx_enter. unfold main, _register. repeat wpx_step.
    map_lookup. destruct (decide (VModule (length (heap st) + 9) = VNone)) as [|_];
      [done|].
    repeat wpx_step.
    unfold new_attr at 1. cbn [get_nth mbind option_bind]. dict_lookup.
    rewrite bool_decide_eq_true_2 by (by eexists). cbn [negb].
    repeat wpx_step. subst n.
    split; [repeat split; by reg_lookup|].
    split; [repeat split; linked|].
    split.
    { split; [unlinked_at "docling_core" "utils"|].
      split; [unlinked_at "docling_core" "types"|].
      split; [unlinked_at "docling_core.types" "legacy_doc"|].
      split; [unlinked_at "docling_core.types.doc" "document"|].
      unlinked_at "docling_core.types.doc" "labels". }
    split; [repeat split; by attr_lookup|].
    unfold mk. cbn [heap]. rewrite length_app. reflexivity. }
  apply wp_exec in W as ([] & Hrun & W). split; [exact Hrun|exact W].
Qed.

End DoclingCoreExtras.

(** ** Extra: the submodules of [fastapi.py] *)

Module FastapiExtras.
Import FastapiStub Wp.

Lemma wpx_sys_modules_getitem key v (Q : value -> interp -> Prop)
  h news sm g mp ma pl tr :
  sm !! key = Some v ->
  Q v (mk h news sm g mp ma pl tr) ->
  wp (sys_modules_getitem key) Q (mk h news sm g mp ma pl tr).
Proof.
  intros Hk HQ. unfold wp, sys_modules_getitem, mk. cbn [sys_modules].
  by rewrite Hk.
Qed.

Lemma wpx_sys_modules_setdefault_present key v d (Q : value -> interp -> Prop)
  h news sm g mp ma pl tr :
  sm !! key = Some v ->
  Q v (mk h news sm g mp ma pl tr) ->
  wp (sys_modules_setdefault key d) Q (mk h news sm g mp ma pl tr).
Proof.
  intros Hk HQ. unfold wp, sys_modules_setdefault, mk. cbn [sys_modules].
  by rewrite Hk.
Qed.

(** X5: the body of [fastapi.py], run under a name that is registered
    and is not one of its submodule names, returns and leaves the entry
    of that name alone. It registers [fastapi.middleware] with an
    attribute [cors] that is not the module registered as
    [fastapi.middleware.cors]: the attribute is another module, named
    [cors] and without [CORSMiddleware], while the registered one has
    it. [fastapi.openapi.docs] is the [docs] attribute of its parent. *)
Theorem fastapi_body_submodules __name__ this st :
  direct_lookup st __name__ = Some this ->
  __name__ ∉ ["fastapi.middleware"; "fastapi.middleware.cors";
              "fastapi.responses"; "fastapi.staticfiles";
              "fastapi.openapi.docs"; "fastapi.openapi"] ->
  let st' := exec (main __name__) st in
  let n := length (heap st) in
  main __name__ st = (Return tt, st') /\
  direct_lookup st' __name__ = Some this /\
  direct_lookup st' "fastapi.middleware" = Some (VModule (n + 1)) /\
  lookup_attr st' (VModule (n + 1)) "cors" = Some (VModule (n + 0)) /\
  direct_lookup st' "fastapi.middleware.cors" = Some (VModule (n + 2)) /\
  lookup_attr st' (VModule (n + 0)) "CORSMiddleware" = None /\
  lookup_attr st' (VModule (n + 2)) "CORSMiddleware"
    = Some (VObj "CORSMiddleware") /\
  ~ linked_to_parent st' "fastapi.middleware.cors" /\
  linked_to_parent st' "fastapi.openapi.docs".
Proof.
  intros Hthis Hname st' n.
  rewrite !not_elem_of_cons in Hname.
  destruct Hname as (N1 & N2 & N3 & N4 & N5 & N6 & _).
  assert (Hreg : forall X : gmap string value,
            X = sys_modules st ->
            (<["fastapi.openapi" := VModule (n + 6)]>
               (<["fastapi.openapi.docs" := VModule (n + 5)]>
                  (<["fastapi.staticfiles" := VModule (n + 4)]>
                     (<["fastapi.responses" := VModule (n + 3)]>
                        (<["fastapi.middleware.cors" := VModule (n + 2)]>
                           (<["fastapi.middleware" := VModule (n + 1)]> X))))))
            !! __name__ = Some this).
  { intros X ->. by rewrite !lookup_insert_ne by done. }
  assert (W : wp (main __name__) (fun _ s =>
    direct_lookup s __name__ = Some this /\
    direct_lookup s "fastapi.middleware" = Some (VModule (n + 1)) /\
    lookup_attr s (VModule (n + 1)) "cors" = Some (VModule (n + 0)) /\
    direct_lookup s "fastapi.middleware.cors" = Some (VModule (n + 2)) /\
    lookup_attr s (VModule (n + 0)) "CORSMiddleware" = None /\
    lookup_attr s (VModule (n + 2)) "CORSMiddleware"
      = Some (VObj "CORSMiddleware") /\
    ~ linked_to_parent s "fastapi.middleware.cors" /\
    linked_to_parent s "fastapi.openapi.docs") st).
  { apply wpx_enter. unfold main, _install_submodule. repeat wpx_step.
    eapply wpx_sys_modules_getitem; [by apply Hreg|].
    wpx_step. eapply wpx_sys_modules_setdefault_present; [by apply Hreg|].
    wpx_step. subst n.
    split; [unfold direct_lookup, mk; cbn [sys_modules]; by apply Hreg|].
    split; [by reg_lookup|]. split; [by attr_lookup|].
    split; [by reg_lookup|]. split; [by attr_lookup|].
    split; [by attr_lookup|].
    split.
    { intros Hl.
      destruct (Hl "fastapi.middleware" "cors") as (hp & Hp & Ha);
        [vm_compute; reflexivity|].
      assert (hp = VModule (length (heap st) + 1)) as ->.
      { revert Hp. reg_lookup. by intros [= <-]. }
      revert Ha. attr_lookup. reg_lookup. intros [= E]. lia. }
    linked. }
  apply wp_exec in W as ([] & Hrun & W). split; [exact Hrun|exact W].
Qed.

Lemma fastapi_body_submodules_witness :
  let st := exec (sys_modules_setitem "fastapi" (VObj "fastapi.py")) empty_interp in
  direct_lookup st "fastapi" = Some (VObj "fastapi.py") /\
  main "fastapi" st = (Return tt, exec (main "fastapi") st).
Proof.
  intros st.
  assert (H : direct_lookup st "fastapi" = Some (VObj "fastapi.py"))
    by (vm_compute; reflexivity).
  split; [exact H|].
  apply (fastapi_body_submodules "fastapi" (VObj "fastapi.py") st H).
  rewrite !not_elem_of_cons. repeat split; try done. apply not_elem_of_nil.
Defined.

End FastapiExtras.

(** ** Extra: the call hook and unresolved fixtures *)

Module CallHookExtras.
Import Conftest.

Lemma dict_comprehension_first_missing (fa : gmap string value)
  (pre post : list string) (name : string) :
  (forall x, x ∈ pre -> is_Some (fa !! x)) ->
  fa !! name = None ->
  dict_comprehension fa (pre ++ name :: post) = Raise (KeyError name).
Proof.
  induction pre as [|x pre IH]; intros Hpre Hname; cbn [app dict_comprehension].
  - by rewrite Hname.
  - destruct (Hpre x) as [v ->]; [by left|].
    rewrite IH; [done| |done]. intros y Hy. apply Hpre. by right.
Qed.

(** X6: a coroutine test one of whose argument names has no value in
    [funcargs] is not run at all. The hook raises [KeyError] for the
    first such name in [argnames]; no event loop is created and nothing
    of the world changes. Both copies of the hook behave so. *)
Theorem pyfunc_call_missing_fixture (item : pyfuncitem) test_obj
  (pre post : list string) (name : string) (w : world) :
  obj item = CoroFn test_obj ->
  argnames item = (pre ++ name :: post)%list ->
  (forall x, x ∈ pre -> is_Some (funcargs item !! x)) ->
  funcargs item !! name = None ->
  pytest_pyfunc_call item w = (Raise (KeyError name), w) /\
  Sitecustomize.pytest_pyfunc_call item w = (Raise (KeyError name), w).
Proof.
  intros Ho Ha Hpre Hname.
  assert (H : pytest_pyfunc_call item w = (Raise (KeyError name), w)).
  { unfold pytest_pyfunc_call. rewrite Ho, Ha.
    rewrite (dict_comprehension_first_missing _ _ _ _ Hpre Hname).
    reflexivity. }
  split; [exact H|exact H].
Qed.

Lemma pyfunc_call_missing_fixture_witness :
  let item := {| obj := CoroFn (fun _ => CReturn VNone);
                 funcargs := {["client" := VObj "client"]};
                 argnames := ["client"; "tmp_path"; "other"] |} in
  pytest_pyfunc_call item empty_world = (Raise (KeyError "tmp_path"), empty_world).
Proof.
  intros item.
  apply (pyfunc_call_missing_fixture item (fun _ => CReturn VNone)
           ["client"] ["other"] "tmp_path" empty_world eq_refl eq_refl).
  - intros x Hx. apply list_elem_of_singleton in Hx as ->.
    vm_compute. by eexists.
  - vm_compute. reflexivity.
Defined.

End CallHookExtras.

(** ** Extra: the upgrade function on success *)

Module UpgradeExtras.
Import Sitecustomize.

Section Upgrade.
Variable h : host.




End Upgrade.


End UpgradeExtras.

(** ** Extra: what [sitecustomize.py] leaves behind at start-up *)

Module StartupExtras.
Import Sitecustomize Wp.


Lemma wpx_set_mark b (Q : unit -> interp -> Prop) h news sm g mp ma pl tr :
  Q tt (mk h news sm g mp b pl tr) ->
  wp (modify (set_mark_asyncio b)) Q (mk h news sm g mp ma pl tr).
Proof. done. Qed.

Lemma wpx_set_globals g' (Q : unit -> interp -> Prop) h news sm g mp ma pl tr :
  Q tt (mk h news sm g' mp ma pl tr) ->
  wp (modify (set_globals g')) Q (mk h news sm g mp ma pl tr).
Proof. done. Qed.

Lemma wpx_push_finder f (Q : unit -> interp -> Prop) h news sm g mp ma pl tr :
  Q tt (mk h news sm g (f :: mp) ma pl tr) ->
  wp (modify (fun st => set_meta_path (f :: meta_path st) st)) Q
     (mk h news sm g mp ma pl tr).
Proof. done. Qed.

Lemma wpx_load_name x v (Q : value -> interp -> Prop) h news sm g mp ma pl tr :
  g !! x = Some v ->
  Q v (mk h news sm g mp ma pl tr) ->
  wp (load_name x) Q (mk h news sm g mp ma pl tr).
Proof. intros Hg HQ. unfold wp, load_name, mk. cbn [globals]. by rewrite Hg. Qed.

Lemma grows_refl st : grows [] st st.
Proof. unfold grows. by repeat split. Qed.

Lemma grows_trans c1 c2 a b c :
  grows c1 a b -> grows c2 b c -> grows ((c1 ++ c2)%list) a c.
Proof.
  intros (A1 & A2 & A3 & A4 & A5 & A6 & A7 & A8 & A9)
         (B1 & B2 & B3 & B4 & B5 & B6 & B7 & B8 & B9).
  unfold grows.
  split.
  { intros name v Hn Hv. rewrite elem_of_app in Hn.
    apply B1; [tauto|]. apply A1; [tauto|done]. }
  split; [intros name Hs; by apply B2, A2|].
  split; [intros l a' Hl; rewrite B3 by lia; by apply A3|].
  split; [lia|].
  split; [congruence|]. split; [congruence|]. split; [congruence|].
  split; congruence.
Qed.

Lemma grows_mk changed st news sm' :
  (forall name v, name ∉ changed -> sys_modules st !! name = Some v ->
                  sm' !! name = Some v) ->
  (forall name, is_Some (sys_modules st !! name) -> is_Some (sm' !! name)) ->
  grows changed st
    (mk (heap st) news sm' (globals st) (meta_path st) (mark_asyncio st)
        (plugins st) (trace st)).
Proof.
  intros H1 H2. unfold grows.
  split; [exact H1|]. split; [exact H2|].
  split; [intros l a Hl; by apply lookup_attr_old|].
  split; [unfold mk; cbn [heap]; rewrite length_app; lia|].
  by repeat split.
Qed.

(** The installers of one name, of [websockets], and what they leave. *)
Lemma install_single_grows (name attr : string) (v : value) st :
  wp (present <- sys_modules_contains name;;
      if present then ret tt
      else _mod <- ModuleType name;;
           setattr _mod attr v;;;
           sys_modules_setitem name _mod)
     (fun _ s => grows [] st s /\ is_Some (direct_lookup s name)) st.
Proof.
  destruct (sys_modules st !! name) as [v0|] eqn:E.
  - unfold wp. rewrite InstallerExtras.install_single_present by (by eexists).
    split; [apply grows_refl|]. unfold direct_lookup. by rewrite E.
  - apply wpx_enter. wpx_step. wpx_step.
    rewrite bool_decide_eq_false_2 by (rewrite E; by intros [? ?]).
    repeat wpx_step. split.
    + apply grows_mk.
      * intros other w _ Hw. rewrite lookup_insert_ne; [done|]. congruence.
      * intros other Hs. destruct (decide (name = other)) as [->|Hne].
        -- rewrite lookup_insert_eq. by eexists.
        -- by rewrite lookup_insert_ne.
    + reg_lookup. by eexists.
Qed.

Lemma install_websockets_grows st :
  wp _install_websockets_stub
     (fun _ s => grows ["websockets.sync"; "websockets.sync.client"] st s /\
                 is_Some (direct_lookup s "websockets")) st.
Proof.
  destruct (sys_modules st !! "websockets") as [v0|] eqn:E.
  - unfold wp. rewrite InstallerFacts.install_websockets_present by (by eexists).
    split; [|unfold direct_lookup; by rewrite E].
    destruct (grows_refl st) as (A1 & A2 & A3 & A4 & A5 & A6 & A7 & A8 & A9).
    unfold grows. split; [|done]. intros name v _ Hv. done.
  - apply wpx_enter. unfold _install_websockets_stub. wpx_step. wpx_step.
    rewrite bool_decide_eq_false_2 by (rewrite E; by intros [? ?]).
    repeat wpx_step. split.
    + apply grows_mk.
      * intros other w Hn Hw. rewrite !not_elem_of_cons in Hn.
        destruct Hn as (H1 & H2 & _).
        rewrite lookup_insert_ne by done. rewrite lookup_insert_ne by done.
        rewrite lookup_insert_ne; [done|]. congruence.
      * intros other Hs.
        destruct (decide ("websockets.sync.client" = other)) as [<-|H1];
          [rewrite lookup_insert_eq; by eexists|rewrite lookup_insert_ne by done].
        destruct (decide ("websockets.sync" = other)) as [<-|H2];
          [rewrite lookup_insert_eq; by eexists|rewrite lookup_insert_ne by done].
        destruct (decide ("websockets" = other)) as [<-|H3];
          [rewrite lookup_insert_eq; by eexists|by rewrite lookup_insert_ne].
    + reg_lookup. by eexists.
Qed.



Lemma install_guard_true h fuel st :
  has_fixture_stub st = true ->
  _install_pytest_asyncio_stub h fuel st = (Return tt, st).
Proof.
  unfold has_fixture_stub, _install_pytest_asyncio_stub. intros H.
  unfold bind at 1. unfold sys_modules_get.
  destruct (sys_modules st !! "pytest_asyncio") as [m|]; [|done].
  unfold bind at 1. unfold hasattr. by rewrite H.
Qed.




(** X9: what [sitecustomize.py] leaves behind when no [pytest_asyncio.py]
    lies next to it. From every state, and whatever the host, its
    statements up to the call of [_install_websockets_stub] run without
    error (the call of [_install_docling_forwarders] that follows imports
    the real [docling] packages and is not covered): [pytest_asyncio] is
    bound to a new
    placeholder module (replacing any earlier entry) whose [fixture] is
    [_noop_fixture] and whose [asyncio] is [True]; the import hook is the
    first entry of [sys.meta_path]; [pytest_check], [asgi_lifespan] and
    [websockets] are registered. The call of
    [_install_pytest_asyncio_stub] finds the placeholder and returns at
    once, so [pytest] is not imported, the placeholder gets no
    [pytest_pyfunc_call] and the [asyncio] mark is not set. Registry
    entries other than [pytest_asyncio] and the two dotted [websockets]
    names keep their module, and older module objects their
    attributes. *)
Theorem startup_installs_placeholder_and_hook h fuel st :
  standalone_exists h = false ->
  let st' := exec (main h fuel) st in
  let stub := VModule (length (heap st)) in
  main h fuel st = (Return tt, st') /\
  direct_lookup st' "pytest_asyncio" = Some stub /\
  lookup_attr st' stub "fixture" = Some (VObj "_noop_fixture") /\
  lookup_attr st' stub "asyncio" = Some (VBool true) /\
  lookup_attr st' stub "pytest_pyfunc_call" = None /\
  meta_path st' = PytestImportHook :: meta_path st /\
  trace st' = trace st /\
  mark_asyncio st' = mark_asyncio st /\
  plugins st' = plugins st /\
  is_Some (direct_lookup st' "pytest_check") /\
  is_Some (direct_lookup st' "asgi_lifespan") /\
  is_Some (direct_lookup st' "websockets") /\
  (forall name v,
     name ∉ ["pytest_asyncio"; "websockets.sync"; "websockets.sync.client"] ->
     direct_lookup st name = Some v -> direct_lookup st' name = Some v) /\
  (forall l a, l < length (heap st) ->
               lookup_attr st' (VModule l) a = lookup_attr st (VModule l) a).
Proof.
  intros Hst st' stub.
  assert (W : wp (main h fuel)
            (fun _ s =>
               direct_lookup s "pytest_asyncio"
                 = Some (VModule (length (heap st) + 0)) /\
               lookup_attr s (VModule (length (heap st) + 0)) "fixture"
                 = Some (VObj "_noop_fixture") /\
               lookup_attr s (VModule (length (heap st) + 0)) "asyncio"
                 = Some (VBool true) /\
               lookup_attr s (VModule (length (heap st) + 0)) "pytest_pyfunc_call"
                 = None /\
               meta_path s = PytestImportHook :: meta_path st /\
               trace s = trace st /\
               mark_asyncio s = mark_asyncio st /\
               plugins s = plugins st /\
               is_Some (direct_lookup s "pytest_check") /\
               is_Some (direct_lookup s "asgi_lifespan") /\
               is_Some (direct_lookup s "websockets") /\
               (forall name v,
                  name ∉ ["pytest_asyncio"; "websockets.sync";
                           "websockets.sync.client"] ->
                  direct_lookup st name = Some v ->
                  direct_lookup s name = Some v) /\
               (forall l a, l < length (heap st) ->
                  lookup_attr s (VModule l) a = lookup_attr st (VModule l) a))
            st).
  { apply wpx_enter. unfold main. rewrite Hst. cbn [negb].
    repeat first [ wpx_step
                 | apply wpx_set_globals
                 | apply wpx_push_finder
                 | eapply wpx_load_name; [map_lookup; reflexivity|] ].
    match goal with
    | |- wp _ _ ?M => set (mid := M)
    end.
    assert (Hmid : _install_pytest_asyncio_stub h fuel mid = (Return tt, mid)).
    { apply install_guard_true. unfold has_fixture_stub, mid.
      unfold mk at 1. cbn [sys_modules]. rewrite lookup_insert_eq.
      apply bool_decide_eq_true_2. attr_lookup. by eexists. }
    unfold wp at 1. rewrite Hmid.
    apply wp_bind.
    eapply wp_mono; [apply (install_single_grows "pytest_check" "check")|].
    intros [] s1 [G1 R1]. apply wp_bind.
    eapply wp_mono;
      [apply (install_single_grows "asgi_lifespan" "LifespanManager")|].
    intros [] s2 [G2 R2].
    eapply wp_mono; [apply install_websockets_grows|].
    intros [] s3 [G3 R3].
    pose proof (grows_trans _ _ _ _ _ (grows_trans _ _ _ _ _ G1 G2) G3) as G.
    cbn [app] in G.
    destruct G as (E1 & E2 & E3 & E4 & E5 & E6 & E7 & E8 & E9).
    destruct G3 as (_ & K3 & _). destruct G2 as (_ & K2 & _).
    assert (Hlen : length (heap mid) = length (heap st) + 1).
    { unfold mid, mk. cbn [heap]. rewrite length_app. reflexivity. }
    split.
    { apply E1.
      - rewrite !not_elem_of_cons. split; [done|]. split; [done|].
        apply not_elem_of_nil.
      - unfold mid. by reg_lookup. }
    split; [rewrite E3 by lia; unfold mid; by attr_lookup|].
    split; [rewrite E3 by lia; unfold mid; by attr_lookup|].
    split; [rewrite E3 by lia; unfold mid; by attr_lookup|].
    split; [by rewrite E6|]. split; [by rewrite E9|].
    split; [by rewrite E7|]. split; [by rewrite E8|].
    split; [by apply K3, K2|]. split; [by apply K3|]. split; [done|].
    split.
    - intros name v Hn Hv. rewrite !not_elem_of_cons in Hn.
      destruct Hn as (H1 & H2 & H3 & _).
      apply E1.
      + rewrite !not_elem_of_cons. split; [done|]. split; [done|].
        apply not_elem_of_nil.
      + unfold mid, direct_lookup, mk. cbn [sys_modules].
        by rewrite lookup_insert_ne.
    - intros l a Hl. rewrite E3 by lia. unfold mid.
      by apply lookup_attr_old. }
  apply wp_exec in W as ([] & Hrun & W).
  rewrite Nat.add_0_r in W. split; [exact Hrun|exact W].
Qed.

Lemma startup_installs_placeholder_and_hook_witness :
  let st := exec (sys_modules_setitem "pytest_asyncio" (VObj "real plugin"))
              empty_interp in
  direct_lookup st "pytest_asyncio" = Some (VObj "real plugin") /\
  direct_lookup (exec (main plain_host 0) st) "pytest_asyncio" = Some (VModule 0).
Proof.
  intros st. split; [vm_compute; reflexivity|].
  destruct (startup_installs_placeholder_and_hook plain_host 0 st eq_refl)
    as (_ & H & _).
  exact H.
Defined.

End StartupExtras.

(** ** Extra: the bridge at its edges *)

Module BridgeExtras.
Import Conftest AsyncioFacts.

Lemma asyncio_run_nested {A} (main : M world A) w l :
  running w = Some l -> asyncio_run main w = (Raise nested_run_error, w).
Proof. intros H. unfold asyncio_run. by rewrite H. Qed.

Lemma finally_block_nested agen w l :
  running w = Some l -> finally_block agen w = (Raise nested_run_error, w).
Proof.
  intros H. unfold finally_block, try_except, bind.
  by rewrite (asyncio_run_nested _ w l H).
Qed.

(** X10: the bridge is not re-entrant. While a loop is running in the
    thread, no entry point of the harness runs any user code, and no
    loop is created: the coroutine wrapper and the call hook raise the
    [RuntimeError] of [asyncio.run] and leave the world as it is; the
    generator wrapper makes the generator object, fails in its [try] and
    again in its [finally], and ends with that error, the generator not
    started; a wrapper suspended at its [yield] ends with the same error
    at teardown, and the generator is not resumed. *)
Theorem bridge_refuses_running_loop (w : world) (l : nat) :
  running w = Some l ->
  (forall func args,
     _sync_wrapper func args w = (Raise nested_run_error, w)) /\
  (forall func args,
     gen_next (_sync_gen_wrapper func args) w
     = (Raise nested_run_error, FrameDone,
        set_agens (agens w ++ [AgenSuspended (func args)]) w)) /\
  (forall agen,
     gen_next (FrameAtYield agen) w = (Raise nested_run_error, FrameDone, w)) /\
  (forall item test_obj,
     obj item = CoroFn test_obj ->
     (forall name, name ∈ argnames item -> is_Some (funcargs item !! name)) ->
     pytest_pyfunc_call item w = (Raise nested_run_error, w)).
Proof.
  intros Hr. split; [|split; [|split]].
  - intros func args. unfold _sync_wrapper. by apply asyncio_run_nested with l.
  - intros func args. unfold _sync_gen_wrapper. cbn [gen_next]. unfold new_agen.
    set (w0 := set_agens _ w).
    assert (Hr0 : running w0 = Some l) by exact Hr.
    rewrite (asyncio_run_nested _ w0 l Hr0).
    by rewrite (finally_block_nested _ w0 l Hr0).
  - intros agen. cbn [gen_next]. by rewrite (finally_block_nested _ w l Hr).
  - intros item test_obj Ho Hres. unfold pytest_pyfunc_call. rewrite Ho.
    rewrite (CallHookFacts.dict_comprehension_filter _ _ Hres).
    unfold bind at 1. cbn [lift]. unfold bind at 1.
    by rewrite (asyncio_run_nested _ w l Hr).
Qed.

Lemma bridge_refuses_running_loop_witness :
  let w := enter_loop empty_world in
  gen_next (_sync_gen_wrapper two_yields {| pos := []; kw := ∅ |}) w
  = (Raise nested_run_error, FrameDone,
     set_agens [AgenSuspended (two_yields {| pos := []; kw := ∅ |})] w).
Proof.
  intros w.
  apply (proj1 (proj2 (bridge_refuses_running_loop w 0 eq_refl))
           two_yields {| pos := []; kw := ∅ |}).
Defined.

(** Resuming a finished generator under [asyncio.run]. *)
Lemma run_anext_finished agen w :
  running w = None ->
  agens w !! agen = Some AgenFinished ->
  exists w', asyncio_run (anext agen) w = (Raise StopAsyncIteration, w') /\
             ran_once w w' /\ agens w' = agens w.
Proof.
  intros Hr Ha. rewrite asyncio_run_idle by done.
  unfold anext. change (agens (enter_loop w)) with (agens w). rewrite Ha.
  cbn [fst snd]. eexists. split; [reflexivity|]. split; [|done].
  apply close_after_frame, loops_frame_refl.
Qed.

(** X11: an async generator fixture that never reaches its first
    [yield]. The wrapper's [try] gets the generator's exception, its
    [finally] resumes the finished generator in a second [asyncio.run],
    swallows the [StopAsyncIteration] of that, and the first exception
    leaves the wrapper: two loops were made and closed. A generator that
    ends without yielding makes the wrapper raise [StopAsyncIteration]
    itself. *)
Theorem gen_wrapper_without_first_yield (func : call_args -> agen_body)
  (args : call_args) (w : world) :
  running w = None ->
  let agen := length (agens w) in
  (forall e, fails_with e (func args) ->
     exists w', gen_next (_sync_gen_wrapper func args) w
                = (Raise e, FrameDone, w') /\
                agens w' !! agen = Some AgenFinished /\
                running w' = None /\
                length (loops w') = 2 + length (loops w)) /\
  (terminates (func args) ->
     exists w', gen_next (_sync_gen_wrapper func args) w
                = (Raise StopAsyncIteration, FrameDone, w') /\
                agens w' !! agen = Some AgenFinished /\
                running w' = None /\
                length (loops w') = 2 + length (loops w)).
Proof.
  intros Hr agen.
  unfold _sync_gen_wrapper. cbn [gen_next]. unfold new_agen.
  set (w0 := set_agens (agens w ++ [AgenSuspended (func args)]) w).
  assert (Ha0 : agens w0 !! agen = Some (AgenSuspended (func args))).
  { unfold w0, agen. cbn. by rewrite lookup_app_r, Nat.sub_diag by lia. }
  assert (Hlt : agen < length (agens w0)) by (by apply lookup_lt_Some in Ha0).
  destruct (run_anext_suspended agen (func args) w0 Hr Ha0)
    as (Honce & _ & Hterm & Hfail).
  assert (Hstep : forall e,
            fst (asyncio_run (anext agen) w0) = Raise e ->
            agens (snd (asyncio_run (anext agen) w0))
              = <[agen := AgenFinished]> (agens w0) ->
            exists w', match asyncio_run (anext agen) w0 with
                       | (Return value, w1) => (Return value, FrameAtYield agen, w1)
                       | (Raise e, w1) =>
                           match finally_block agen w1 with
                           | (Return _, w2) => (Raise e, FrameDone, w2)
                           | (Raise e', w2) => (Raise e', FrameDone, w2)
                           end
                       end = (Raise e, FrameDone, w') /\
                       agens w' !! agen = Some AgenFinished /\
                       running w' = None /\
                       length (loops w') = 2 + length (loops w)).
  { intros e Hres Hag.
    destruct (asyncio_run (anext agen) w0) as [r w1]. cbn [fst snd] in *.
    subst r.
    destruct Honce as (Hr1 & Hl1 & _ & _).
    assert (Ha1 : agens w1 !! agen = Some AgenFinished).
    { rewrite Hag. by apply list_lookup_insert_eq. }
    destruct (run_anext_finished agen w1 Hr1 Ha1)
      as (w2 & Hrun & (Hr2 & Hl2 & _ & _) & Hag2).
    unfold finally_block, try_except, bind. rewrite Hrun.
    rewrite bool_decide_eq_true_2 by done. cbn [ret].
    exists w2. split; [done|]. split; [by rewrite Hag2|]. split; [done|].
    rewrite Hl2, Hl1. reflexivity. }
  split.
  - intros e He. destruct (Hfail e He) as [Hres Hag]. by apply Hstep.
  - intros Ht. destruct (Hterm Ht) as [Hres Hag]. by apply Hstep.
Qed.

Lemma gen_wrapper_without_first_yield_witness :
  let func := fun _ : call_args => GSleep (GRaise ZeroDivisionError) in
  exists w', gen_next (_sync_gen_wrapper func {| pos := []; kw := ∅ |}) empty_world
             = (Raise ZeroDivisionError, FrameDone, w') /\
             length (loops w') = 2.
Proof.
  intros func.
  destruct (proj1 (gen_wrapper_without_first_yield func {| pos := []; kw := ∅ |}
                     empty_world eq_refl)
              ZeroDivisionError (fw_sleep _ _ (fw_raise _)))
    as (w' & H & _ & _ & Hl).
  exists w'. split; [exact H|exact Hl].
Defined.

End BridgeExtras.

(** ** Extra: the call styles of the fixture decorators *)

Module DecoratorExtras.
Import Conftest Decorators AsyncioFacts.

(** The first [next] of the generator wrapper. *)
Lemma gen_first_step (f : call_args -> agen_body) (args : call_args) v k w :
  running w = None ->
  yields_first v k (f args) ->
  exists w1, gen_next (_sync_gen_wrapper f args) w
             = (Return v, FrameAtYield (length (agens w)), w1) /\
             running w1 = None.
Proof.
  intros Hr Hy. unfold _sync_gen_wrapper. cbn [gen_next]. unfold new_agen.
  set (agen := length (agens w)).
  set (w0 := set_agens (agens w ++ [AgenSuspended (f args)]) w).
  assert (Ha0 : agens w0 !! agen = Some (AgenSuspended (f args))).
  { unfold w0, agen. cbn. by rewrite lookup_app_r, Nat.sub_diag by lia. }
  destruct (run_anext_suspended agen (f args) w0 Hr Ha0)
    as (Honce & Hyield & _ & _).
  destruct (Hyield v k Hy) as [Hres _].
  destruct (asyncio_run (anext agen) w0) as [r w1]. cbn [fst snd] in *.
  subst r. exists w1. split; [done|apply Honce].
Qed.

(** X12: bare and factory use of [@pytest_asyncio.fixture], as in
    [reproducer.py]. Used as a factory (no positional argument, or a
    first one that is not callable), the stub of [conftest.py], the stub
    of [_install_pytest_asyncio_stub] and the upgraded [fixture] agree:
    the function gets its synchronous wrapper and goes to
    [pytest.fixture] with the factory's arguments. Used bare, only the
    upgraded [fixture] makes a fixture of the function; the two stubs
    return their inner [decorator], which has taken the function for an
    argument of [pytest.fixture], and the placeholder's [_noop_fixture]
    returns a decorator too, not the function. With the upgraded
    [fixture], a bare-decorated async generator that yields [v] first is
    a generator fixture whose first [next] gives [v]. *)
Theorem fixture_call_styles (func : callable) :
  (forall args kwargs g,
     (forall f rest, args <> ArgFn f :: rest) ->
     exists k1 k2 k3,
       ConftestStub._fixture args kwargs = Decorator k1 /\
       SitecustomizeStub._fixture args kwargs = Decorator k2 /\
       SitecustomizeStub.fixture args kwargs = Decorator k3 /\
       k1 g = Fixture args kwargs (decorator g) /\
       k2 g = k1 g /\ k3 g = k1 g) /\
  (exists k1 k2 k3,
     ConftestStub._fixture [ArgFn func] ∅ = Decorator k1 /\
     SitecustomizeStub._fixture [ArgFn func] ∅ = Decorator k2 /\
     SitecustomizeStub._noop_fixture [ArgFn func] ∅ = Decorator k3 /\
     forall g, k1 g = Fixture [ArgFn func] ∅ (decorator g) /\
               k2 g = k1 g /\ k3 g = Function g) /\
  SitecustomizeStub.fixture [ArgFn func] ∅ = Fixture [] ∅ (decorator func) /\
  (forall f args v k w,
     func = AsyncGenFn f ->
     running w = None ->
     yields_first v k (f args) ->
     exists gen w1,
       SitecustomizeStub.fixture [ArgFn func] ∅
       = Fixture [] ∅ (FixtureGenerator gen) /\
       gen_next (gen args) w = (Return v, FrameAtYield (length (agens w)), w1)).
Proof.
  split; [|split; [|split]].
  - intros args kwargs g Hargs.
    assert (H3 : exists k3, SitecustomizeStub.fixture args kwargs = Decorator k3 /\
                            k3 g = Fixture args kwargs (decorator g)).
    { destruct args as [|[f|v] rest].
      - eexists. split; [reflexivity|]. by destruct g.
      - by destruct (Hargs f rest).
      - eexists. split; [reflexivity|]. by destruct g. }
    destruct H3 as (k3 & E3 & Hk3).
    assert (H2 : exists k2, SitecustomizeStub._fixture args kwargs = Decorator k2 /\
                            k2 g = Fixture args kwargs (decorator g)).
    { unfold SitecustomizeStub._fixture.
      destruct (negb (bool_decide (args = [])) || negb (bool_decide (kwargs = ∅)));
        (eexists; split; [reflexivity|]; by destruct g). }
    destruct H2 as (k2 & E2 & Hk2).
    exists (ConftestStub.decorator args kwargs), k2, k3.
    split; [reflexivity|]. split; [exact E2|]. split; [exact E3|].
    split; [reflexivity|]. split; [exact Hk2|exact Hk3].
  - exists (ConftestStub.decorator [ArgFn func] ∅).
    eexists. exists (fun g => Function g).
    split; [reflexivity|]. split; [reflexivity|]. split; [reflexivity|].
    intros g. split; [reflexivity|]. split; [by destruct g|reflexivity].
  - by destruct func.
  - intros f args v k w -> Hr Hy.
    destruct (gen_first_step f args v k w Hr Hy) as (w1 & Hn & _).
    exists (_sync_gen_wrapper f), w1. split; [reflexivity|exact Hn].
Qed.

Lemma fixture_call_styles_witness :
  let dummy := AsyncGenFn (fun _ => GYield (VStr "ok") GReturn) in
  exists gen w1,
    SitecustomizeStub.fixture [ArgFn dummy] ∅
    = Fixture [] ∅ (FixtureGenerator gen) /\
    gen_next (gen {| pos := []; kw := ∅ |}) empty_world
    = (Return (VStr "ok"), FrameAtYield 0, w1).
Proof.
  intros dummy.
  apply (proj2 (proj2 (proj2 (fixture_call_styles dummy)))
           (fun _ => GYield (VStr "ok") GReturn) {| pos := []; kw := ∅ |}
           (VStr "ok") GReturn empty_world eq_refl eq_refl (yf_yield _ _)).
Defined.

End DecoratorExtras.

(** ** Extra: the collection hook *)

Module CollectionExtras.
Import Collection Wp.

Lemma prefix_app (needle post : string) :
  String.prefix needle (needle +:+ post) = true.
Proof.
  induction needle as [|a needle IH].
  - change ("" +:+ post) with post. by destruct post.
  - change (String a needle +:+ post) with (String a (needle +:+ post)).
    change (match ascii_dec a a with
            | left _ => String.prefix needle (needle +:+ post)
            | right _ => false
            end = true).
    destruct (ascii_dec a a); [exact IH|done].
Qed.

Lemma prefix_split (needle hay : string) :
  String.prefix needle hay = true -> exists post, hay = needle +:+ post.
Proof.
  revert hay. induction needle as [|a needle IH]; intros hay H.
  - by exists hay.
  - destruct hay as [|b hay]; [done|].
    change (match ascii_dec a b with
            | left _ => String.prefix needle hay
            | right _ => false
            end = true) in H.
    destruct (ascii_dec a b) as [->|]; [|done].
    destruct (IH hay H) as [post ->]. by exists post.
Qed.

(** [str_in] is the substring test. *)
Lemma str_in_spec (needle hay : string) :
  str_in needle hay = true <-> exists pre post, hay = pre +:+ needle +:+ post.
Proof.
  split.
  - induction hay as [|c hay IH]; cbn [str_in].
    + destruct (String.prefix needle "") eqn:E; [|done]. intros _.
      destruct (prefix_split _ _ E) as [post ->]. by exists "", post.
    + destruct (String.prefix needle (String c hay)) eqn:E.
      * intros _. destruct (prefix_split _ _ E) as [post ->]. by exists "", post.
      * intros H. destruct (IH H) as (pre & post & ->).
        by exists (String c pre), post.
  - intros (pre & post & ->). induction pre as [|c pre IH].
    + change ("" +:+ needle +:+ post) with (needle +:+ post).
      pose proof (prefix_app needle post) as Hp.
      destruct (needle +:+ post); cbn [str_in]; by rewrite Hp.
    + change (String c pre +:+ needle +:+ post)
        with (String c (pre +:+ needle +:+ post)).
      cbn [str_in]. rewrite IH. by destruct (String.prefix _ _).
Qed.

Lemma e2e_path_spec path :
  str_in "src/docling-serve/tests/test_1-" path
  || str_in "src/docling-serve/tests/test_2-" path = true <-> e2e_path path.
Proof.
  rewrite orb_true_iff, !str_in_spec. unfold e2e_path. split.
  - intros [(pre & post & ->)|(pre & post & ->)]; exists pre, post; tauto.
  - intros (pre & post & [->| ->]); [left|right]; by exists pre, post.
Qed.

Lemma mark_loop_lookup items i it :
  items !! i = Some it ->
  exists it', mark_loop items !! i = Some it' /\
              fspath it' = fspath it /\
              (e2e_path (fspath it) ->
               own_markers it' = (own_markers it ++ [skip_e2e])%list) /\
              (~ e2e_path (fspath it) -> it' = it).
Proof.
  revert i. induction items as [|x rest IH]; intros [|i] H; try done.
  - cbn in H. simplify_eq. cbn [mark_loop].
    destruct (str_in _ _ || str_in _ _) eqn:E.
    + eexists. split; [reflexivity|]. split; [done|]. split; [done|].
      intros Hn. destruct Hn. by apply e2e_path_spec.
    + exists it. split; [reflexivity|]. split; [done|]. split; [|done].
      intros He. apply e2e_path_spec in He. congruence.
  - cbn [mark_loop]. by apply IH.
Qed.

Lemma mark_loop_length items : length (mark_loop items) = length items.
Proof. induction items as [|x rest IH]; cbn; [done|]. by rewrite IH. Qed.

Lemma hook_rtree_present items st :
  is_Some (sys_modules st !! "rtree") ->
  pytest_collection_modifyitems items st = (Return (mark_loop items), st).
Proof.
  intros H. unfold pytest_collection_modifyitems, bind, sys_modules_contains.
  by rewrite bool_decide_eq_true_2.
Qed.

(** X13: [pytest_collection_modifyitems]. The hook returns from every
    state. It keeps the items, their order and their paths; an item
    whose path contains one of the two end-to-end prefixes gets the skip
    marker appended to its markers, every other item is left as it is.
    With [rtree] registered the interpreter state is not touched;
    otherwise [rtree] and [rtree.index] are bound to two new modules,
    the second with [Index], and [rtree] has no attribute [index]. The
    hook run again on its own result leaves the state alone and appends
    the skip marker a second time. *)
Theorem collection_hook_marks_and_stubs (items : list item) st :
  let n := length (heap st) in
  exists marked marked2 st',
    pytest_collection_modifyitems items st = (Return marked, st') /\
    length marked = length items /\
    (forall i it, items !! i = Some it ->
       exists it', marked !! i = Some it' /\
                   fspath it' = fspath it /\
                   (e2e_path (fspath it) ->
                    own_markers it' = (own_markers it ++ [skip_e2e])%list) /\
                   (~ e2e_path (fspath it) -> it' = it)) /\
    (is_Some (sys_modules st !! "rtree") -> st' = st) /\
    (sys_modules st !! "rtree" = None ->
       direct_lookup st' "rtree" = Some (VModule (n + 0)) /\
       direct_lookup st' "rtree.index" = Some (VModule (n + 1)) /\
       lookup_attr st' (VModule (n + 1)) "Index" = Some (VObj "_DummyIndex") /\
       unlinked st' "rtree.index" /\
       (forall name, name <> "rtree" -> name <> "rtree.index" ->
                     direct_lookup st' name = direct_lookup st name) /\
       (forall l a, l < n ->
                    lookup_attr st' (VModule l) a = lookup_attr st (VModule l) a)) /\
    pytest_collection_modifyitems marked st' = (Return marked2, st') /\
    (forall i it, items !! i = Some it -> e2e_path (fspath it) ->
       exists it2, marked2 !! i = Some it2 /\
                   own_markers it2
                   = (own_markers it ++ [skip_e2e; skip_e2e])%list).
Proof.
  intros n.
  assert (Htwice : forall i it, items !! i = Some it -> e2e_path (fspath it) ->
            exists it2, mark_loop (mark_loop items) !! i = Some it2 /\
                        own_markers it2
                        = (own_markers it ++ [skip_e2e; skip_e2e])%list).
  { intros i it Hi He.
    destruct (mark_loop_lookup items i it Hi) as (it1 & H1 & Hp1 & Hm1 & _).
    destruct (mark_loop_lookup _ i it1 H1) as (it2 & H2 & _ & Hm2 & _).
    exists it2. split; [exact H2|].
    rewrite Hm2 by (by rewrite Hp1). rewrite Hm1 by done.
    by rewrite <- app_assoc. }
  destruct (sys_modules st !! "rtree") as [v0|] eqn:E.
  - assert (Hp : is_Some (sys_modules st !! "rtree")) by (by eexists).
    exists (mark_loop items), (mark_loop (mark_loop items)), st.
    split; [by apply hook_rtree_present|].
    split; [apply mark_loop_length|].
    split; [apply mark_loop_lookup|].
    split; [done|]. split; [done|].
    split; [by apply hook_rtree_present|exact Htwice].
  - assert (W : wp (pytest_collection_modifyitems items)
              (fun r s =>
                 r = mark_loop items /\
                 direct_lookup s "rtree" = Some (VModule (n + 0)) /\
                 direct_lookup s "rtree.index" = Some (VModule (n + 1)) /\
                 lookup_attr s (VModule (n + 1)) "Index"
                   = Some (VObj "_DummyIndex") /\
                 unlinked s "rtree.index" /\
                 (forall name, name <> "rtree" -> name <> "rtree.index" ->
                               direct_lookup s name = direct_lookup st name) /\
                 (forall l a, l < n ->
                    lookup_attr s (VModule l) a = lookup_attr st (VModule l) a))
              st).
    { apply wpx_enter. unfold pytest_collection_modifyitems.
      wpx_step. wpx_step. wpx_step.
      rewrite bool_decide_eq_false_2 by (rewrite E; by intros [? ?]).
      cbn [negb]. repeat wpx_step. subst n.
      split; [done|]. split; [by reg_lookup|]. split; [by reg_lookup|].
      split; [by attr_lookup|].
      split; [unlinked_at "rtree" "index"|].
      split.
      - intros name H1 H2. unfold direct_lookup, mk. cbn [sys_modules].
        by rewrite !lookup_insert_ne.
      - intros l a Hl. by apply lookup_attr_old. }
    apply wp_exec in W as (r & Hrun & -> & W).
    exists (mark_loop items), (mark_loop (mark_loop items)),
           (exec (pytest_collection_modifyitems items) st).
    split; [exact Hrun|].
    split; [apply mark_loop_length|].
    split; [apply mark_loop_lookup|].
    split; [by intros [? ?]|]. split; [intros _; exact W|].
    split; [|exact Htwice].
    apply hook_rtree_present. destruct W as (Hr & _).
    unfold direct_lookup in Hr. by rewrite Hr.
Qed.

End CollectionExtras.

(** ** Extra: the [FastAPI] class of [conftest.py] *)

Module ShimClassExtras.
Import ConftestFastAPI.

Section Init.
Variable starlette : Type.
Variable Starlette : list value -> gmap string value -> outcome starlette.

Lemma stripped_cons_ne (key k : string) (rest : list string) :
  k <> key ->
  bool_decide (k ∈ key :: rest /\ k ∈ _fastapi_only)
  = bool_decide (k ∈ rest /\ k ∈ _fastapi_only).
Proof.
  intros Hne. apply bool_decide_ext. rewrite elem_of_cons. tauto.
Qed.

Lemma stripped_cons_other (key k : string) (rest : list string) :
  key ∉ _fastapi_only ->
  bool_decide (k ∈ key :: rest /\ k ∈ _fastapi_only)
  = bool_decide (k ∈ rest /\ k ∈ _fastapi_only).
Proof.
  intros Hno. apply bool_decide_ext. rewrite elem_of_cons. split.
  - intros [[->|H] Ho]; [done|tauto].
  - tauto.
Qed.

(** The stripping loop over distinct keys of the keyword dictionary. *)
Lemma strip_loop_spec (keys : list string) :
  NoDup keys ->
  forall kw ex : gmap string value,
    (forall k, k ∈ keys -> is_Some (kw !! k)) ->
    exists kw' ex',
      strip_loop keys kw ex = Return (kw', ex') /\
      (forall k, kw' !! k
                 = if bool_decide (k ∈ keys /\ k ∈ _fastapi_only) then None
                   else kw !! k) /\
      (forall k, ex' !! k
                 = if bool_decide (k ∈ keys /\ k ∈ _fastapi_only) then kw !! k
                   else ex !! k).
Proof.
  induction 1 as [|key rest Hnotin Hnd IH]; intros kw ex Hin.
  - exists kw, ex. split; [done|]. split; intros k;
      rewrite bool_decide_eq_false_2; try done;
      intros [H _]; by apply elem_of_nil in H.
  - cbn [strip_loop].
    destruct (bool_decide (key ∈ _fastapi_only)) eqn:Honly.
    + apply bool_decide_eq_true_1 in Honly.
      destruct (Hin key) as [v Hv]; [by left|]. rewrite Hv.
      destruct (IH (delete key kw) (<[key := v]> ex))
        as (kw' & ex' & Hrun & Hkw & Hex).
      { intros k Hk. rewrite lookup_delete_ne by (intros ->; done).
        apply Hin. by right. }
      exists kw', ex'. split; [exact Hrun|]. split; intros k.
      * rewrite Hkw. destruct (decide (k = key)) as [->|Hne].
        -- rewrite bool_decide_eq_false_2 by (intros [? _]; done).
           rewrite lookup_delete_eq.
           rewrite bool_decide_eq_true_2; [done|]. split; [by left|done].
        -- rewrite lookup_delete_ne by done.
           by rewrite stripped_cons_ne.
      * rewrite Hex. destruct (decide (k = key)) as [->|Hne].
        -- rewrite bool_decide_eq_false_2 by (intros [? _]; done).
           rewrite lookup_insert_eq.
           rewrite bool_decide_eq_true_2; [done|]. split; [by left|done].
        -- rewrite lookup_delete_ne by done. rewrite lookup_insert_ne by done.
           by rewrite stripped_cons_ne.
    + apply bool_decide_eq_false_1 in Honly.
      destruct (IH kw ex) as (kw' & ex' & Hrun & Hkw & Hex).
      { intros k Hk. apply Hin. by right. }
      exists kw', ex'. split; [exact Hrun|].
      split; intros k; by rewrite stripped_cons_other.
Qed.

(** The keywords Starlette gets and the attributes the instance gets. *)
Lemma strip_kwargs (kwargs : gmap string value) :
  exists passed extra_attrs,
    strip_loop (map_to_list kwargs).*1 kwargs ∅ = Return (passed, extra_attrs) /\
    (forall k, passed !! k
               = if bool_decide (k ∈ _fastapi_only) then None else kwargs !! k) /\
    (forall k, extra_attrs !! k
               = if bool_decide (k ∈ _fastapi_only) then kwargs !! k else None).
Proof.
  destruct (strip_loop_spec (map_to_list kwargs).*1
              (NoDup_fst_map_to_list kwargs) kwargs ∅)
    as (passed & extra & Hrun & Hp & He).
  { intros k Hk. apply list_elem_of_fmap in Hk as ([k' v] & -> & Hkv).
    apply elem_of_map_to_list in Hkv. by eexists. }
  assert (Hkeys : forall k, k ∉ (map_to_list kwargs).*1 -> kwargs !! k = None).
  { intros k Hk. destruct (kwargs !! k) as [v|] eqn:E; [|done].
    destruct Hk. apply list_elem_of_fmap. exists (k, v).
    split; [done|]. by apply elem_of_map_to_list. }
  exists passed, extra. split; [exact Hrun|]. split; intros k.
  - rewrite Hp. destruct (bool_decide (k ∈ _fastapi_only)) eqn:Eo.
    + apply bool_decide_eq_true_1 in Eo.
      destruct (decide (k ∈ (map_to_list kwargs).*1)) as [Hk|Hk].
      * by rewrite bool_decide_eq_true_2.
      * rewrite bool_decide_eq_false_2 by tauto. by apply Hkeys.
    + apply bool_decide_eq_false_1 in Eo.
      by rewrite bool_decide_eq_false_2 by tauto.
  - rewrite He. rewrite lookup_empty.
    destruct (bool_decide (k ∈ _fastapi_only)) eqn:Eo.
    + apply bool_decide_eq_true_1 in Eo.
      destruct (decide (k ∈ (map_to_list kwargs).*1)) as [Hk|Hk].
      * by rewrite bool_decide_eq_true_2.
      * rewrite bool_decide_eq_false_2 by tauto. symmetry. by apply Hkeys.
    + apply bool_decide_eq_false_1 in Eo.
      by rewrite bool_decide_eq_false_2 by tauto.
Qed.

(** X14: the constructor of the shim's [FastAPI]. Starlette never sees
    a FastAPI-only keyword and gets every other keyword as passed; the
    constructor fails only when Starlette does, with Starlette's
    exception. The instance then has each FastAPI-only keyword that was
    passed as an attribute, [openapi_url] and
    [swagger_ui_oauth2_redirect_url] with their defaults when they were
    not passed (a passed [None] stays [None]), no attribute for a
    FastAPI-only keyword that was not passed (reading [docs_url] then
    fails), and no [routes] yet. *)
Theorem init_strips_fastapi_keywords (args : list value)
  (kwargs : gmap string value) :
  exists passed : gmap string value,
    (forall k, passed !! k
               = if bool_decide (k ∈ _fastapi_only) then None else kwargs !! k) /\
    (forall e, Starlette args passed = Raise e ->
               __init__ starlette Starlette args kwargs = Raise e) /\
    (forall a, Starlette args passed = Return a ->
       exists self,
         __init__ starlette Starlette args kwargs = Return self /\
         _app starlette self = a /\
         routes starlette self = None /\
         attrs starlette self !! "openapi_url"
           = Some (default (VStr "/openapi.json") (kwargs !! "openapi_url")) /\
         attrs starlette self !! "swagger_ui_oauth2_redirect_url"
           = Some (default (VStr "/docs/oauth2-redirect")
                           (kwargs !! "swagger_ui_oauth2_redirect_url")) /\
         (forall k, k ∈ _fastapi_only -> k <> "openapi_url" ->
                    k <> "swagger_ui_oauth2_redirect_url" ->
                    attrs starlette self !! k = kwargs !! k) /\
         (forall k, k ∉ _fastapi_only -> attrs starlette self !! k = None)).
Proof.
  destruct (strip_kwargs kwargs) as (passed & extra & Hrun & Hp & He).
  exists passed. split; [exact Hp|]. split.
  - intros e HS. unfold __init__. by rewrite Hrun, HS.
  - intros a HS. eexists. split; [unfold __init__; by rewrite Hrun, HS|].
    cbn [_app routes attrs].
    split; [done|]. split; [done|].
    assert (Ho : bool_decide ("openapi_url" ∈ _fastapi_only) = true)
      by (vm_compute; reflexivity).
    assert (Hs : bool_decide ("swagger_ui_oauth2_redirect_url" ∈ _fastapi_only)
                 = true) by (vm_compute; reflexivity).
    split.
    { rewrite lookup_insert_ne by done. rewrite lookup_insert_eq.
      by rewrite He, Ho. }
    split.
    { rewrite lookup_insert_eq. by rewrite He, Hs. }
    split.
    + intros k Hk H1 H2. rewrite !lookup_insert_ne by done.
      rewrite He. by rewrite bool_decide_eq_true_2.
    + intros k Hk.
      assert (k <> "openapi_url").
      { intros ->. apply Hk. exact (proj1 (bool_decide_eq_true _) Ho). }
      assert (k <> "swagger_ui_oauth2_redirect_url").
      { intros ->. apply Hk. exact (proj1 (bool_decide_eq_true _) Hs). }
      rewrite !lookup_insert_ne by done.
      rewrite He. by rewrite bool_decide_eq_false_2.
Qed.

End Init.

Section Routes.
Variable starlette : Type.
Variable add_route
  : string -> value -> list string -> starlette -> outcome unit * starlette.

(** One decorated function. *)
Lemma make_decorator_run (http_method path : string) (func : value)
  (self : app starlette) :
  _make_decorator starlette add_route http_method path func self
  = (Return func,
     {| _app := snd (add_route path func [http_method] (_app starlette self));
        attrs := attrs starlette self;
        routes := Some (default [] (routes starlette self)
                          ++ [(path, func, [http_method])])%list |}).
Proof.
  unfold _make_decorator, bind, add_api_route, ret. cbn [fst snd].
  by destruct (routes starlette self).
Qed.

Lemma decorate_all_run (ds : list (string * string * value)) :
  forall self : app starlette,
    decorate_all add_route ds self
    = (Return (map snd ds),
       {| _app := foldl (fun a d => snd (add_route d.1.2 d.2 [d.1.1] a))
                        (_app starlette self) ds;
          attrs := attrs starlette self;
          routes := match ds with
                    | [] => routes starlette self
                    | _ => Some (default [] (routes starlette self)
                                 ++ map (fun d => (d.1.2, d.2, [d.1.1])) ds)%list
                    end |}).
Proof.
  induction ds as [|[[m p] f] rest IH]; intros self.
  - by destruct self.
  - cbn [decorate_all]. unfold bind at 1. rewrite make_decorator_run.
    unfold bind at 1. rewrite IH. cbn [ret map foldl fst snd _app attrs routes].
    f_equal. f_equal. destruct rest as [|d rest]; [done|].
    change (default [] (Some ?x)) with x. by rewrite <- app_assoc.
Qed.

(** X15: route registration on the shim's [FastAPI]. Decorating
    functions with [@app.<method>(path)] never fails, whatever
    Starlette's [add_route] does: every decorator returns the function
    it was given, and the instance records the routes in the order of
    decoration, each with the one method of its decorator, after the
    routes it had; Starlette got the same calls in the same order, and
    the other attributes are untouched. [add_api_route] called without
    methods or with an empty list records and passes [["GET"]]. *)
Theorem decorators_record_routes (ds : list (string * string * value))
  (self : app starlette) :
  (exists self',
     decorate_all add_route ds self = (Return (map snd ds), self') /\
     attrs starlette self' = attrs starlette self /\
     _app starlette self'
       = foldl (fun a d => snd (add_route d.1.2 d.2 [d.1.1] a))
               (_app starlette self) ds /\
     (ds = [] -> routes starlette self' = routes starlette self) /\
     (ds <> [] ->
      routes starlette self'
      = Some (default [] (routes starlette self)
              ++ map (fun d => (d.1.2, d.2, [d.1.1])) ds)%list)) /\
  (forall path endpoint,
     add_api_route starlette add_route path endpoint None self
       = add_api_route starlette add_route path endpoint (Some []) self /\
     routes starlette
       (exec (add_api_route starlette add_route path endpoint None) self)
       = Some (default [] (routes starlette self)
               ++ [(path, endpoint, ["GET"])])%list /\
     _app starlette
       (exec (add_api_route starlette add_route path endpoint None) self)
       = snd (add_route path endpoint ["GET"] (_app starlette self))).
Proof.
  split.
  { eexists. split; [apply decorate_all_run|]. cbn [_app attrs routes].
    split; [done|]. split; [done|]. split; [by intros ->|].
    intros Hne. by destruct ds. }
  intros path endpoint. split; [reflexivity|].
  unfold exec, add_api_route. cbn [snd routes _app].
  split; [|done]. by destruct (routes starlette self).
Qed.

End Routes.

Section Router.
Variable starlette : Type.

(** X18: reading [app.router] on the shim's [FastAPI]. The class
    [_Router] is bound in the class body of [FastAPI] only, and the
    property's lambda looks the name up in the module namespace of
    [conftest.py]. In every state in which that namespace has no
    [_Router], reading [router] raises [NameError] for [_Router],
    whatever the instance, and changes nothing; it is the object bound
    to that name in the module namespace, not the class of the class
    body, that would be called. *)
Theorem router_reads_module_namespace (A : Type)
  (call : value -> app starlette -> outcome A) (self : app starlette)
  (st : interp) :
  globals st !! "_Router" = None ->
  router starlette call self st = (Raise (NameError "_Router"), st) /\
  forall v,
    router starlette call self (set_globals (<["_Router" := v]> (globals st)) st)
    = (call v self, set_globals (<["_Router" := v]> (globals st)) st).
Proof.
  intros Hnone. unfold router, bind, load_name. split.
  - by rewrite Hnone.
  - intros v. cbn [globals set_globals]. rewrite lookup_insert_eq.
    unfold lift. by destruct (call v self).
Qed.

End Router.

Lemma router_reads_module_namespace_witness :
  let self : app unit := {| _app := tt; attrs := ∅; routes := None |} in
  globals Scenarios.after_sitecustomize !! "_Router" = None /\
  router unit (fun _ s => Return s) self Scenarios.after_sitecustomize
  = (Raise (NameError "_Router"), Scenarios.after_sitecustomize).
Proof.
  intros self.
  assert (H : globals Scenarios.after_sitecustomize !! "_Router" = None)
    by (vm_compute; reflexivity).
  split; [exact H|].
  exact (proj1 (router_reads_module_namespace unit _ (fun _ s => Return s)
                  self Scenarios.after_sitecustomize H)).
Defined.

Lemma init_strips_fastapi_keywords_witness :
  let Starlette := fun (_ : list value) (kw : gmap string value) => Return kw in
  let kwargs : gmap string value :=
    <["title" := VStr "docling"]> (<["debug" := VBool true]> ∅) in
  exists self,
    __init__ _ Starlette [] kwargs = Return self /\
    _app _ self !! "title" = None /\
    _app _ self !! "debug" = Some (VBool true) /\
    attrs _ self !! "title" = Some (VStr "docling") /\
    attrs _ self !! "openapi_url" = Some (VStr "/openapi.json").
Proof.
  intros Starlette kwargs.
  destruct (init_strips_fastapi_keywords _ Starlette [] kwargs)
    as (passed & Hp & _ & Hret).
  destruct (Hret passed eq_refl) as (self & Hrun & Ha & _ & Ho & _ & Hk & _).
  exists self. split; [exact Hrun|].
  split; [rewrite Ha, Hp; vm_compute; reflexivity|].
  split; [rewrite Ha, Hp; vm_compute; reflexivity|].
  split; [|rewrite Ho; vm_compute; reflexivity].
  assert (Ht : "title" ∈ _fastapi_only)
    by (apply (bool_decide_unpack _); vm_compute; exact I).
  rewrite (Hk "title" Ht) by discriminate.
  vm_compute. reflexivity.
Defined.

End ShimClassExtras.

(** ** Extra: the blocks of [conftest.py] and their siblings *)

Module SiblingExtras.
Import Conftest ConftestBlocks Sitecustomize Wp.

Lemma same_modules_refl st : same_modules st st.
Proof. by repeat split. Qed.

(** Two computations that end in states with the same heap and registry
    as a third. *)
Lemma agree_from_wp (block installer : M interp unit) st hp sm :
  wp block (fun _ s => heap s = hp /\ sys_modules s = sm /\
                       meta_path s = meta_path st /\
                       mark_asyncio s = mark_asyncio st /\
                       plugins s = plugins st /\ trace s = trace st) st ->
  wp installer (fun _ s => heap s = hp /\ sys_modules s = sm /\
                           meta_path s = meta_path st /\
                           mark_asyncio s = mark_asyncio st /\
                           plugins s = plugins st /\ trace s = trace st) st ->
  siblings_agree block installer st.
Proof.
  intros Wb Wi.
  apply wp_exec in Wb as ([] & Hb & B1 & B2 & B3 & B4 & B5 & B6).
  apply wp_exec in Wi as ([] & Hi & I1 & I2 & I3 & I4 & I5 & I6).
  split; [exact Hb|]. split; [exact Hi|].
  unfold same_modules. repeat split; congruence.
Qed.

Lemma agree_from_wp_with (block installer : M interp unit) st hp sm
  (Pb Pi : interp -> Prop) :
  wp block (fun _ s => (heap s = hp /\ sys_modules s = sm /\
                        meta_path s = meta_path st /\
                        mark_asyncio s = mark_asyncio st /\
                        plugins s = plugins st /\ trace s = trace st) /\
                       Pb s) st ->
  wp installer (fun _ s => (heap s = hp /\ sys_modules s = sm /\
                            meta_path s = meta_path st /\
                            mark_asyncio s = mark_asyncio st /\
                            plugins s = plugins st /\ trace s = trace st) /\
                           Pi s) st ->
  siblings_agree block installer st /\
  Pb (exec block st) /\ Pi (exec installer st).
Proof.
  intros Wb Wi.
  assert (Wb' := Wb). assert (Wi' := Wi).
  apply wp_exec in Wb' as ([] & _ & _ & HPb).
  apply wp_exec in Wi' as ([] & _ & _ & HPi).
  split; [|by split].
  apply (agree_from_wp block installer st hp sm).
  - eapply wp_mono; [exact Wb|]. by intros [] s [H _].
  - eapply wp_mono; [exact Wi|]. by intros [] s [H _].
Qed.

Lemma agree_noop (block installer : M interp unit) st :
  block st = (Return tt, st) -> installer st = (Return tt, st) ->
  siblings_agree block installer st.
Proof.
  intros Hb Hi. unfold siblings_agree, exec. rewrite Hb, Hi. cbn [snd].
  split; [done|]. split; [done|]. apply same_modules_refl.
Qed.

Ltac block_absent E :=
  apply wpx_enter; wpx_step; wpx_step;
  rewrite bool_decide_eq_false_2 by (rewrite E; by intros [? ?]);
  cbn [negb]; repeat wpx_step; unfold mk; cbn [heap sys_modules meta_path
    mark_asyncio plugins trace]; repeat split; reflexivity.

(** X16: the guarded blocks of [conftest.py] and the installers of
    [sitecustomize.py] are the same code twice, and stay in step. From
    every state the [pytest_check] and [asgi_lifespan] blocks return and
    leave the module objects and the registry their installers leave
    (nothing when the name is registered); so does the [websockets]
    block when [websockets] is not registered. They differ in the
    module-level names the blocks bind. *)
Theorem conftest_blocks_match_installers st :
  siblings_agree pytest_check_block _install_pytest_check_stub st /\
  siblings_agree asgi_lifespan_block _install_asgi_lifespan_stub st /\
  (sys_modules st !! "websockets" = None ->
   siblings_agree websockets_block _install_websockets_stub st /\
   exists v, globals (exec websockets_block st) !! "_ws_mod" = Some v /\
             globals (exec _install_websockets_stub st) = globals st).
Proof.
  split; [|split].
  - destruct (sys_modules st !! "pytest_check") as [v0|] eqn:E.
    + apply agree_noop.
      * unfold pytest_check_block, bind, sys_modules_contains.
        rewrite E. by rewrite bool_decide_eq_true_2.
      * apply (InstallerExtras.install_single_present "pytest_check" "check").
        by rewrite E.
    + eapply agree_from_wp.
      * unfold pytest_check_block. block_absent E.
      * unfold _install_pytest_check_stub. block_absent E.
  - destruct (sys_modules st !! "asgi_lifespan") as [v0|] eqn:E.
    + apply agree_noop.
      * unfold asgi_lifespan_block, bind, sys_modules_contains.
        rewrite E. by rewrite bool_decide_eq_true_2.
      * apply (InstallerExtras.install_single_present "asgi_lifespan"
                 "LifespanManager").
        by rewrite E.
    + eapply agree_from_wp.
      * unfold asgi_lifespan_block. block_absent E.
      * unfold _install_asgi_lifespan_stub. apply wpx_enter. wpx_step. wpx_step.
        rewrite bool_decide_eq_false_2 by (rewrite E; by intros [? ?]).
        repeat wpx_step. unfold mk.
        cbn [heap sys_modules meta_path mark_asyncio plugins trace].
        rewrite insert_insert_eq. by repeat split.
  - intros E.
    assert (H : siblings_agree websockets_block _install_websockets_stub st /\
                (exists v, globals (exec websockets_block st) !! "_ws_mod"
                           = Some v) /\
                globals (exec _install_websockets_stub st) = globals st);
      [|destruct H as (Ha & [v Hv] & Hi); split; [exact Ha|]; exists v;
        by split].
    eapply (agree_from_wp_with websockets_block _install_websockets_stub st
              _ _
              (fun s => exists v, globals s !! "_ws_mod" = Some v)
              (fun s => globals s = globals st)).
    + apply wpx_enter. unfold websockets_block. wpx_step. wpx_step.
      rewrite bool_decide_eq_false_2 by (rewrite E; by intros [? ?]).
      cbn [negb].
      repeat first [ wpx_step
                   | eapply StartupExtras.wpx_load_name;
                     [map_lookup; reflexivity|] ].
      unfold mk. cbn [heap sys_modules meta_path mark_asyncio plugins trace
                      globals].
      split; [repeat split; reflexivity|].
      eexists. map_lookup. reflexivity.
    + apply wpx_enter. unfold _install_websockets_stub. wpx_step. wpx_step.
      rewrite bool_decide_eq_false_2 by (rewrite E; by intros [? ?]).
      repeat wpx_step. unfold mk.
      cbn [heap sys_modules meta_path mark_asyncio plugins trace globals].
      by repeat split.
Qed.

End SiblingExtras.

(** ** Extra: the [pypdfium2] block of [conftest.py] *)

Module Pypdfium2Extras.
Import Conftest Wp.

(** X17: the [pypdfium2] block, from every state. It guards on the
    top-level name only: with [pypdfium2] registered nothing happens,
    whether or not its submodules are registered. Otherwise the block
    returns and binds [pypdfium2], [pypdfium2.raw], [pypdfium2._helpers]
    and [pypdfium2._helpers.misc] to four new modules, replacing earlier
    entries of the dotted names; none of the three children is an
    attribute of its parent, so they are reached by import only;
    [PdfiumError] is the same object in [pypdfium2] and in
    [pypdfium2._helpers.misc]; other registry entries and older modules
    are unchanged. *)
Theorem pypdfium2_block_tree st :
  (is_Some (sys_modules st !! "pypdfium2") ->
   pypdfium2_block st = (Return tt, st)) /\
  (sys_modules st !! "pypdfium2" = None ->
   let st' := exec pypdfium2_block st in
   let n := length (heap st) in
   pypdfium2_block st = (Return tt, st') /\
   direct_lookup st' "pypdfium2" = Some (VModule (n + 0)) /\
   direct_lookup st' "pypdfium2.raw" = Some (VModule (n + 1)) /\
   direct_lookup st' "pypdfium2._helpers" = Some (VModule (n + 2)) /\
   direct_lookup st' "pypdfium2._helpers.misc" = Some (VModule (n + 3)) /\
   unlinked st' "pypdfium2.raw" /\
   unlinked st' "pypdfium2._helpers" /\
   unlinked st' "pypdfium2._helpers.misc" /\
   lookup_attr st' (VModule (n + 0)) "PdfiumError" = Some (VObj "PdfiumError") /\
   lookup_attr st' (VModule (n + 3)) "PdfiumError" = Some (VObj "PdfiumError") /\
   (forall name,
      name ∉ ["pypdfium2"; "pypdfium2.raw"; "pypdfium2._helpers";
               "pypdfium2._helpers.misc"] ->
      direct_lookup st' name = direct_lookup st name) /\
   (forall l a, l < n ->
                lookup_attr st' (VModule l) a = lookup_attr st (VModule l) a)).
Proof.
  split; [apply ParentFacts.pypdfium2_block_skipped|].
  intros E st' n.
  assert (W : wp pypdfium2_block
            (fun _ s =>
               direct_lookup s "pypdfium2" = Some (VModule (n + 0)) /\
               direct_lookup s "pypdfium2.raw" = Some (VModule (n + 1)) /\
               direct_lookup s "pypdfium2._helpers" = Some (VModule (n + 2)) /\
               direct_lookup s "pypdfium2._helpers.misc" = Some (VModule (n + 3)) /\
               unlinked s "pypdfium2.raw" /\
               unlinked s "pypdfium2._helpers" /\
               unlinked s "pypdfium2._helpers.misc" /\
               lookup_attr s (VModule (n + 0)) "PdfiumError"
                 = Some (VObj "PdfiumError") /\
               lookup_attr s (VModule (n + 3)) "PdfiumError"
                 = Some (VObj "PdfiumError") /\
               (forall name,
                  name ∉ ["pypdfium2"; "pypdfium2.raw"; "pypdfium2._helpers";
                           "pypdfium2._helpers.misc"] ->
                  direct_lookup s name = direct_lookup st name) /\
               (forall l a, l < n ->
                  lookup_attr s (VModule l) a = lookup_attr st (VModule l) a))
            st).
  { apply wpx_enter. unfold pypdfium2_block. wpx_step. wpx_step.
    rewrite bool_decide_eq_false_2 by (rewrite E; by intros [? ?]).
    cbn [negb]. repeat wpx_step. subst n.
    split; [by reg_lookup|]. split; [by reg_lookup|].
    split; [by reg_lookup|]. split; [by reg_lookup|].
    split; [unlinked_at "pypdfium2" "raw"|].
    split; [unlinked_at "pypdfium2" "_helpers"|].
    split; [unlinked_at "pypdfium2._helpers" "misc"|].
    split; [by attr_lookup|]. split; [by attr_lookup|].
    split.
    - intros name Hn. rewrite !not_elem_of_cons in Hn.
      destruct Hn as (H1 & H2 & H3 & H4 & _). unfold direct_lookup, mk.
      cbn [sys_modules]. by rewrite !lookup_insert_ne.
    - intros l a Hl. by apply lookup_attr_old. }
  apply wp_exec in W as ([] & Hrun & W). split; [exact Hrun|exact W].
Qed.

Lemma pypdfium2_block_tree_witness :
  let st := exec (sys_modules_setitem "pypdfium2.raw" (VObj "real")) empty_interp in
  direct_lookup st "pypdfium2.raw" = Some (VObj "real") /\
  direct_lookup (exec pypdfium2_block st) "pypdfium2.raw" = Some (VModule 1) /\
  unlinked (exec pypdfium2_block st) "pypdfium2.raw".
Proof.
  intros st. split; [vm_compute; reflexivity|].
  destruct (proj2 (pypdfium2_block_tree st) ltac:(vm_compute; reflexivity))
    as (_ & _ & H1 & _ & _ & H2 & _).
  split; [exact H1|exact H2].
Defined.

End Pypdfium2Extras.
